(** * Planning-poker room store: the store operations and their properties

    The development follows [roomStore.ts] (the room table, its mutation
    API, its storage and its channel), [App.tsx] (the session, the forms and
    the effects of the application) and the two views.

    Modelling conventions.
    - A JavaScript string is the list of its UTF-16 code units.
    - An object used as a dictionary ([RoomsMap], [participants], [votes]) is
      the list of its own enumerable properties in enumeration order.  Its
      prototype is [Object.prototype]: [JsObject.lookup], [JsObject.in_] and
      [JsObject.assign] are [o[k]], [k in o] and [o[k] = v] with the members
      that the object inherits; [JsObject.get], [JsObject.has] and
      [JsObject.set] work on the own properties alone.
    - A function that can throw gives a [completion]: the [TypeError] of a
      property read on [undefined] is a result of the model.
    - Time stamps ([joinedAt], [createdAt], [Date.now()]) are integers.
    - [updateRooms] runs its mutator on a JSON deep copy of the table.  The
      copy has the own properties of the table, so the copy of a table of
      the model is the table itself; persisting, broadcasting and notifying
      the listeners do not touch the table. *)

From Stdlib Require Import Ascii String.
From Stdlib Require Import List NArith ZArith Bool Lia.
Import ListNotations.

Set Implicit Arguments.

(** ** Strings *)

Module JsString.

Definition jsstring := list N.

(** An ASCII literal of the source as code units. *)
Definition lit (s : string) : jsstring :=
  List.map N_of_ascii (list_ascii_of_string s).

Definition eq_dec : forall a b : jsstring, {a = b} + {a <> b} :=
  list_eq_dec N.eq_dec.

Definition eqb (a b : jsstring) : bool := if eq_dec a b then true else false.

(** The code units matched by [\s] and stripped by [String.prototype.trim]:
    [WhiteSpace] and [LineTerminator] of ECMAScript. *)
Definition is_ws (c : N) : bool :=
  ((9 <=? c) && (c <=? 13) || (c =? 32) || (c =? 160) || (c =? 5760)
   || (8192 <=? c) && (c <=? 8202) || (c =? 8232) || (c =? 8233)
   || (c =? 8239) || (c =? 8287) || (c =? 12288) || (c =? 65279))%N.

Fixpoint trimStart (s : jsstring) : jsstring :=
  match s with
  | c :: s' => if is_ws c then trimStart s' else s
  | [] => []
  end.

Definition trimEnd (s : jsstring) : jsstring := rev (trimStart (rev s)).

Definition trim (s : jsstring) : jsstring := trimEnd (trimStart s).

(** [s.slice(from, to)] for [0 <= from <= to]. *)
Definition slice (from to : nat) (s : jsstring) : jsstring :=
  firstn (to - from) (skipn from s).

(** [s.slice(-n)]: the last [n] code units, the whole string when shorter. *)
Definition slice_last (n : nat) (s : jsstring) : jsstring :=
  skipn (length s - n) s.

(** [toUpperCase] on the code units it meets in this program, the radix-36
    digits, the dot and the minus sign: [a-z] go to [A-Z]. *)
Definition upper (c : N) : N :=
  if ((97 <=? c) && (c <=? 122))%N then (c - 32)%N else c.

Definition toUpperCase (s : jsstring) : jsstring := List.map upper s.

(** The radix-36 digit characters [0-9a-z]. *)
Definition digit36 (d : N) : N :=
  if (d <? 10)%N then (48 + d)%N else (87 + d)%N.

(** The digits of [n] in the given radix, most significant first, put in
    front of [acc]; the fuel bounds the number of digits. *)
Fixpoint digits (radix : N) (fuel : nat) (n : N) (acc : jsstring) : jsstring :=
  match fuel with
  | O => acc
  | S fuel' =>
      let acc' := digit36 (n mod radix) :: acc in
      if (n / radix =? 0)%N then acc' else digits radix fuel' (n / radix) acc'
  end.

(** [n.toString(radix)] for an integer [n], in radix 10 for an integer
    below [10^21]. *)
Definition Z_toString (radix : N) (n : Z) : jsstring :=
  let m := Z.abs_N n in
  let ds := digits radix (S (N.to_nat (N.log2 m))) m [] in
  if (n <? 0)%Z then 45%N :: ds else ds.

(** The number that a string of digits denotes. *)
Definition digit_value (c : N) : N :=
  if (c <? 58)%N then (c - 48)%N else (c - 87)%N.

Definition digits_value (radix : N) (s : jsstring) : N :=
  fold_left (fun acc c => (radix * acc + digit_value c)%N) s 0%N.

Definition is_upper_alnum (c : N) : bool :=
  ((48 <=? c) && (c <=? 57) || (65 <=? c) && (c <=? 90))%N.

End JsString.
Import JsString.

(** ** Objects used as dictionaries *)

Module JsObject.

Section Obj.
Variable V : Type.

(** The own enumerable properties of an object, in enumeration order. *)
Definition t := list (jsstring * V).

(** The own property [k] of [o]; [None] when [o] has no own key [k]. *)
Fixpoint get (k : jsstring) (o : t) : option V :=
  match o with
  | [] => None
  | (k', v) :: o' => if JsString.eqb k k' then Some v else get k o'
  end.

(** [k] is an own key of [o]. *)
Definition has (k : jsstring) (o : t) : bool :=
  match get k o with Some _ => true | None => false end.

(** [delete o[k]], which removes an own property and nothing else. *)
Fixpoint delete (k : jsstring) (o : t) : t :=
  match o with
  | [] => []
  | (k', v) :: o' =>
      if JsString.eqb k k' then delete k o' else (k', v) :: delete k o'
  end.

(** [Object.keys(o)]. *)
Definition keys (o : t) : list jsstring := List.map fst o.

Fixpoint replace (k : jsstring) (v : V) (o : t) : t :=
  match o with
  | [] => []
  | (k', v') :: o' =>
      if JsString.eqb k k' then (k, v) :: o' else (k', v') :: replace k v o'
  end.

(** An array index is the canonical decimal form of an integer below
    [2^32 - 1]; such keys are enumerated first, in ascending order. *)
Definition is_digit (c : N) : bool := ((48 <=? c) && (c <=? 57))%N.

Definition decimal (k : jsstring) : N :=
  fold_left (fun acc c => (10 * acc + (c - 48))%N) k 0%N.

Definition array_index (k : jsstring) : option N :=
  match k with
  | [] => None
  | c :: rest =>
      if forallb is_digit k
         && ((c =? 48)%N && (length rest =? 0)%nat || negb (c =? 48)%N)
         && (decimal k <? 4294967295)%N
      then Some (decimal k) else None
  end.

Fixpoint insert_index (i : N) (k : jsstring) (v : V) (o : t) : t :=
  match o with
  | [] => [(k, v)]
  | (k', v') :: o' =>
      match array_index k' with
      | Some j =>
          if (j <? i)%N then (k', v') :: insert_index i k v o'
          else (k, v) :: o
      | None => (k, v) :: o
      end
  end.

(** A property that is created: after the entries already there, except
    that an array index takes its place among the array indices. *)
Definition create (k : jsstring) (v : V) (o : t) : t :=
  match array_index k with
  | Some i => insert_index i k v o
  | None => o ++ [(k, v)]
  end.

(** The own property [k] is given the value [v]: replaced where it is when
    [o] has it, created otherwise.  This is what a computed key of an object
    literal does, and what a room changed in place does to the table. *)
Definition set (k : jsstring) (v : V) (o : t) : t :=
  if has k o then replace k v o else create k v o.

(** What [o[k]] finds: an own property, a member of [Object.prototype] that
    [o] inherits, or nothing. *)
Inductive property :=
| Own (v : V)
| Inherited
| Undefined.

End Obj.

Arguments Inherited {V}.
Arguments Undefined {V}.

(** The members of [Object.prototype].  The objects of the program are made
    by object literals and by [JSON.parse], so each of them inherits these:
    eleven functions and the accessor [__proto__], which reads as
    [Object.prototype] itself.  All of them are truthy, and none of them has
    a property [participants], [votes], [id] or [joinedAt]. *)
Definition Object_prototype : list jsstring :=
  List.map lit
    ["constructor"; "__defineGetter__"; "__defineSetter__"; "hasOwnProperty";
     "__lookupGetter__"; "__lookupSetter__"; "isPrototypeOf";
     "propertyIsEnumerable"; "toString"; "valueOf"; "__proto__";
     "toLocaleString"]%string.

Definition inherited (k : jsstring) : bool :=
  existsb (JsString.eqb k) Object_prototype.

Definition proto : jsstring := lit "__proto__".

Section Chain.
Variable V : Type.

(** [o[k]]. *)
Definition lookup (k : jsstring) (o : t V) : property V :=
  match get k o with
  | Some v => Own v
  | None => if inherited k then Inherited else Undefined
  end.

(** [k in o]. *)
Definition in_ (k : jsstring) (o : t V) : bool := has k o || inherited k.

(** [o[k] = v].  An own property is replaced.  Otherwise the property is
    created, the members of [Object.prototype] being writable, except under
    [__proto__]: there the setter of [Object.prototype] runs, which changes
    the prototype of [o] when [v] is an object or [null] and does nothing
    for another value; in both cases [o] gets no own property. *)
Definition assign (k : jsstring) (v : V) (o : t V) : t V :=
  if has k o then replace k v o
  else if JsString.eqb k proto then o
  else create k v o.

End Chain.

End JsObject.

Import JsObject.

(** An id that no object of the program inherits: no member of
    [Object.prototype], and not [revealed] either, the one name that the
    program can add to [Object.prototype] (see [revealVotes]). *)
Definition ordinary (k : jsstring) : bool :=
  negb (inherited k) && negb (JsString.eqb k (lit "revealed")).

(** How a function of the source ends: it runs to its end, or throws the
    [TypeError] of a property read on [undefined], or stores an object that
    the types of [roomStore.ts] do not have (see
    [updateParticipantProfile]). *)
Inductive completion (A : Type) : Type :=
| Normal (a : A)
| TypeError
| IllTyped.

Arguments TypeError {A}.
Arguments IllTyped {A}.


(** ** The data model of [roomStore.ts] *)

Inductive DeckType := fibonacci | numeric | custom.

Module ParticipantProfile.
Record t := mk {
  id : jsstring;
  name : jsstring;
  avatarColor : jsstring;
  joinedAt : Z
}.
End ParticipantProfile.

Module RoomState.
Record t := mk {
  id : jsstring;
  name : jsstring;
  deckType : DeckType;
  deckValues : list jsstring;
  hostId : jsstring;
  participants : JsObject.t ParticipantProfile.t;
  votes : JsObject.t (option jsstring);   (* [None] is [null] *)
  revealed : bool;
  createdAt : Z
}.

Definition with_participants (ps : JsObject.t ParticipantProfile.t) (r : t) : t :=
  mk (id r) (name r) (deckType r) (deckValues r) (hostId r) ps (votes r)
     (revealed r) (createdAt r).

Definition with_votes (vs : JsObject.t (option jsstring)) (r : t) : t :=
  mk (id r) (name r) (deckType r) (deckValues r) (hostId r) (participants r) vs
     (revealed r) (createdAt r).

Definition with_hostId (h : jsstring) (r : t) : t :=
  mk (id r) (name r) (deckType r) (deckValues r) h (participants r) (votes r)
     (revealed r) (createdAt r).

Definition with_revealed (b : bool) (r : t) : t :=
  mk (id r) (name r) (deckType r) (deckValues r) (hostId r) (participants r)
     (votes r) b (createdAt r).
End RoomState.

Definition RoomsMap := JsObject.t RoomState.t.

Record CreateRoomOptions := {
  opt_name : jsstring;
  opt_deckType : DeckType;
  opt_customDeck : option (list jsstring);   (* [None] is an absent field *)
  opt_host : ParticipantProfile.t
}.

Record JoinRoomResult := {
  success : bool;
  reason : option jsstring;
  room : option RoomState.t
}.

(** [Partial<Omit<ParticipantProfile, 'id' | 'joinedAt'>>] *)
Record ProfileUpdates := {
  upd_name : option jsstring;
  upd_avatarColor : option jsstring
}.

(** ** The store *)

(** [updateRooms] hands a draft, the JSON copy of the table, to the mutator.
    When the mutator returns, the draft becomes the table; when it throws,
    nothing is committed. *)
Definition updateRooms (mutator : RoomsMap -> completion RoomsMap) (rooms : RoomsMap)
  : completion RoomsMap :=
  let draft := rooms in
  mutator draft.

(** The table after a call on the table [rooms]: the committed draft, and
    [rooms] itself when nothing was committed. *)
Definition committed (rooms : RoomsMap) (result : completion RoomsMap) : RoomsMap :=
  match result with
  | Normal draft => draft
  | TypeError | IllTyped => rooms
  end.

Definition coffee : jsstring := [9749%N].

(** [PRESET_DECKS.fibonacci] and [PRESET_DECKS.numeric] *)
Definition PRESET_DECKS_fibonacci : list jsstring :=
  List.map lit ["0"; "1"; "2"; "3"; "5"; "8"; "13"; "21"; "34"; "55"; "89"; "?"]%string
  ++ [coffee].

Definition PRESET_DECKS_numeric : list jsstring :=
  List.map lit ["0"; "1"; "2"; "3"; "4"; "5"; "6"; "7"; "8"; "9"; "10"; "?"]%string
  ++ [coffee].

Definition nonempty (s : jsstring) : bool :=
  match s with [] => false | _ :: _ => true end.

Definition resolveDeck (deckType : DeckType) (customDeck : option (list jsstring))
  : list jsstring :=
  match deckType with
  | custom =>
      let deck :=
        filter nonempty
          (List.map trim (match customDeck with Some d => d | None => [] end)) in
      match deck with
      | [] => [lit "?"]
      | _ :: _ => deck
      end
  | fibonacci => PRESET_DECKS_fibonacci
  | numeric => PRESET_DECKS_numeric
  end.

(** [Math.random().toString(36)]: the draw is a double in [0, 1), rendered
    as [0] when it is zero and as [0.] followed by its radix-36 digits
    otherwise.  A draw is given by these digits, each below 36 (one half is
    [[18]], rendered [0.i]). *)
Definition random_toString36 (draw : list N) : jsstring :=
  match draw with
  | [] => lit "0"
  | _ :: _ => lit "0." ++ List.map digit36 draw
  end.

Definition generateRoomId (draw : list N) (now : Z) : jsstring :=
  toUpperCase (slice 2 6 (random_toString36 draw))
  ++ lit "-"
  ++ toUpperCase (slice_last 4 (Z_toString 36 now)).

(** [createRoom] reads the random source once and the clock twice
    ([now_id] in [generateRoomId], then [now_created]); it returns the new
    id and the committed table.  The keys of [participants] and [votes] are
    computed keys of object literals, which define own properties whatever
    the id of the host is. *)
Definition createRoom (draw : list N) (now_id now_created : Z)
    (options : CreateRoomOptions) (rooms : RoomsMap) : jsstring * RoomsMap :=
  let id := generateRoomId draw now_id in
  let deckValues := resolveDeck (opt_deckType options) (opt_customDeck options) in
  let participant :=
    ParticipantProfile.mk
      (ParticipantProfile.id (opt_host options))
      (ParticipantProfile.name (opt_host options))
      (ParticipantProfile.avatarColor (opt_host options))
      (ParticipantProfile.joinedAt (opt_host options)) in
  let votes := [(ParticipantProfile.id participant, @None jsstring)] in
  let room :=
    RoomState.mk id
      (match trim (opt_name options) with
       | [] => lit "Sala sem nome"
       | _ :: _ => trim (opt_name options)
       end)
      (opt_deckType options)
      deckValues
      (ParticipantProfile.id participant)
      [(ParticipantProfile.id participant, participant)]
      votes
      false
      now_created in
  (id, committed rooms (updateRooms (fun draft => Normal (assign id room draft)) rooms)).

Definition not_found : jsstring := lit "Sala n" ++ [227%N] ++ lit "o encontrada.".

(** [joinRoom].  A room id that names a member of [Object.prototype] passes
    both tests on the room, and the mutator throws on the [participants] of
    that member.  In a room of the table, [joinedAt] is taken from an own
    entry under the id; a member of [Object.prototype] has no [joinedAt].
    The result is that of the call when it returns, with the table after
    the call. *)
Definition joinRoom (roomId : jsstring) (profile : ParticipantProfile.t)
    (rooms : RoomsMap) : completion JoinRoomResult * RoomsMap :=
  match lookup roomId rooms with
  | Undefined =>
      (Normal {| success := false; reason := Some not_found; room := None |}, rooms)
  | Own _ | Inherited =>
      let result :=
        updateRooms (fun draft =>
          match lookup roomId draft with
          | Undefined => Normal draft
          | Inherited => TypeError
          | Own room =>
              let pid := ParticipantProfile.id profile in
              let participants' :=
                assign pid
                  (ParticipantProfile.mk pid
                     (ParticipantProfile.name profile)
                     (ParticipantProfile.avatarColor profile)
                     (match lookup pid (RoomState.participants room) with
                      | Own previous => ParticipantProfile.joinedAt previous
                      | Inherited | Undefined => ParticipantProfile.joinedAt profile
                      end))
                  (RoomState.participants room) in
              let votes' :=
                if negb (in_ pid (RoomState.votes room))
                then assign pid None (RoomState.votes room)
                else RoomState.votes room in
              Normal
                (set roomId
                   (RoomState.with_votes votes'
                      (RoomState.with_participants participants' room))
                   draft)
          end) rooms in
      match result with
      | Normal rooms' =>
          (Normal {| success := true; reason := None; room := get roomId rooms' |},
           rooms')
      | TypeError => (TypeError, rooms)
      | IllTyped => (IllTyped, rooms)
      end
  end.

(** The calls that return nothing, each with the way it ends. *)
Module Try.

Definition leaveRoom (roomId participantId : jsstring) (rooms : RoomsMap)
  : completion RoomsMap :=
  match lookup roomId rooms with
  | Undefined => Normal rooms
  | Own _ | Inherited =>
      updateRooms (fun draft =>
        match lookup roomId draft with
        | Undefined => Normal draft
        | Inherited => TypeError
        | Own room =>
            let participants' := delete participantId (RoomState.participants room) in
            let votes' := delete participantId (RoomState.votes room) in
            let remainingIds := keys participants' in
            match remainingIds with
            | [] => Normal (delete roomId draft)
            | first :: _ =>
                let hostId' :=
                  if JsString.eqb (RoomState.hostId room) participantId
                  then first else RoomState.hostId room in
                let revealed' :=
                  if RoomState.revealed room && (length remainingIds =? 0)%nat
                  then false else RoomState.revealed room in
                Normal
                  (set roomId
                     (RoomState.with_revealed revealed'
                        (RoomState.with_hostId hostId'
                           (RoomState.with_votes votes'
                              (RoomState.with_participants participants' room))))
                     draft)
            end
        end) rooms
  end.

(** [updateParticipantProfile].  When the id is no own key of the
    participants but names a member of [Object.prototype], the test on the
    participant passes and the member is spread: the object that is made has
    the fields of [updates] and neither [id] nor [joinedAt].  Under
    [__proto__] it becomes the prototype of [room.participants], which gets
    no key; under another name it is stored as a participant, which no
    [ParticipantProfile] describes. *)
Definition updateParticipantProfile (roomId participantId : jsstring)
    (updates : ProfileUpdates) (rooms : RoomsMap) : completion RoomsMap :=
  updateRooms (fun draft =>
    match lookup roomId draft with
    | Undefined => Normal draft
    | Inherited => TypeError
    | Own room =>
        match lookup participantId (RoomState.participants room) with
        | Undefined => Normal draft
        | Inherited =>
            if JsString.eqb participantId proto then Normal draft else IllTyped
        | Own participant =>
            let merged :=
              ParticipantProfile.mk
                (ParticipantProfile.id participant)
                (match upd_name updates with
                 | Some n => n
                 | None => ParticipantProfile.name participant
                 end)
                (match upd_avatarColor updates with
                 | Some c => c
                 | None => ParticipantProfile.avatarColor participant
                 end)
                (ParticipantProfile.joinedAt participant) in
            Normal
              (set roomId
                 (RoomState.with_participants
                    (assign participantId merged (RoomState.participants room)) room)
                 draft)
        end
    end) rooms.

Definition submitVote (roomId participantId : jsstring) (value : option jsstring)
    (rooms : RoomsMap) : completion RoomsMap :=
  updateRooms (fun draft =>
    match lookup roomId draft with
    | Undefined => Normal draft
    | Inherited => TypeError
    | Own room =>
        if negb (in_ participantId (RoomState.participants room)) then Normal draft
        else
          let voted :=
            RoomState.with_votes
              (assign participantId value (RoomState.votes room)) room in
          Normal
            (set roomId
               (match value with
                | None => RoomState.with_revealed false voted
                | Some _ => voted
                end)
               draft)
    end) rooms.

(** [revealVotes].  Under a room id that names a member of
    [Object.prototype], [revealed] is written on that member and the table
    stays as it is; the member under [__proto__] is [Object.prototype]
    itself, which from then on hands [revealed] down to every object. *)
Definition revealVotes (roomId : jsstring) (rooms : RoomsMap) : completion RoomsMap :=
  updateRooms (fun draft =>
    match lookup roomId draft with
    | Undefined | Inherited => Normal draft
    | Own room => Normal (set roomId (RoomState.with_revealed true room) draft)
    end) rooms.

Definition resetVotes (roomId : jsstring) (rooms : RoomsMap) : completion RoomsMap :=
  updateRooms (fun draft =>
    match lookup roomId draft with
    | Undefined => Normal draft
    | Inherited => TypeError
    | Own room =>
        let votes' :=
          fold_left (fun votes participantId => assign participantId None votes)
            (keys (RoomState.votes room)) (RoomState.votes room) in
        Normal
          (set roomId
             (RoomState.with_revealed false (RoomState.with_votes votes' room))
             draft)
    end) rooms.

Definition removeParticipant (roomId participantId : jsstring) (rooms : RoomsMap)
  : completion RoomsMap :=
  leaveRoom roomId participantId rooms.

Definition transferHost (roomId newHostId : jsstring) (rooms : RoomsMap)
  : completion RoomsMap :=
  updateRooms (fun draft =>
    match lookup roomId draft with
    | Undefined => Normal draft
    | Inherited => TypeError
    | Own room =>
        if negb (in_ newHostId (RoomState.participants room)) then Normal draft
        else Normal (set roomId (RoomState.with_hostId newHostId room) draft)
    end) rooms.

End Try.

(** The table that each of these calls leaves. *)
Definition leaveRoom (roomId participantId : jsstring) (rooms : RoomsMap)
  : RoomsMap :=
  committed rooms (Try.leaveRoom roomId participantId rooms).

Definition updateParticipantProfile (roomId participantId : jsstring)
    (updates : ProfileUpdates) (rooms : RoomsMap) : RoomsMap :=
  committed rooms (Try.updateParticipantProfile roomId participantId updates rooms).

Definition submitVote (roomId participantId : jsstring) (value : option jsstring)
    (rooms : RoomsMap) : RoomsMap :=
  committed rooms (Try.submitVote roomId participantId value rooms).

Definition revealVotes (roomId : jsstring) (rooms : RoomsMap) : RoomsMap :=
  committed rooms (Try.revealVotes roomId rooms).

Definition resetVotes (roomId : jsstring) (rooms : RoomsMap) : RoomsMap :=
  committed rooms (Try.resetVotes roomId rooms).

Definition removeParticipant (roomId participantId : jsstring) (rooms : RoomsMap)
  : RoomsMap :=
  leaveRoom roomId participantId rooms.

Definition transferHost (roomId newHostId : jsstring) (rooms : RoomsMap)
  : RoomsMap :=
  committed rooms (Try.transferHost roomId newHostId rooms).

(** No string occurs twice. *)
Fixpoint distinct (l : list jsstring) : bool :=
  match l with
  | [] => true
  | x :: rest => negb (existsb (JsString.eqb x) rest) && distinct rest
  end.

(** The room that a call of [createRoom] leaves in the table under the id it
    returns. *)
Definition created_room (draw : list N) (now_id now_created : Z)
    (options : CreateRoomOptions) (rooms : RoomsMap) : option RoomState.t :=
  let result := createRoom draw now_id now_created options rooms in
  get (fst result) (snd result).

(** The format [XXXX-YYYY] of a room id: four characters of [0-9A-Z], a
    dash, four characters of [0-9A-Z]. *)
Definition room_id_format (id : jsstring) : bool :=
  match id with
  | [x1; x2; x3; x4; dash; y1; y2; y3; y4] =>
      forallb is_upper_alnum [x1; x2; x3; x4] && (dash =? 45)%N
      && forallb is_upper_alnum [y1; y2; y3; y4]
  | _ => false
  end.

(** ** The calls of the mutation API and the tables they reach *)

Inductive call :=
| CreateRoom (draw : list N) (now_id now_created : Z) (options : CreateRoomOptions)
| JoinRoom (roomId : jsstring) (profile : ParticipantProfile.t)
| LeaveRoom (roomId participantId : jsstring)
| UpdateParticipantProfile (roomId participantId : jsstring) (updates : ProfileUpdates)
| SubmitVote (roomId participantId : jsstring) (value : option jsstring)
| RevealVotes (roomId : jsstring)
| ResetVotes (roomId : jsstring)
| RemoveParticipant (roomId participantId : jsstring)
| TransferHost (roomId newHostId : jsstring).

Definition perform (c : call) (rooms : RoomsMap) : RoomsMap :=
  match c with
  | CreateRoom draw now_id now_created options =>
      snd (createRoom draw now_id now_created options rooms)
  | JoinRoom roomId profile => snd (joinRoom roomId profile rooms)
  | LeaveRoom roomId participantId => leaveRoom roomId participantId rooms
  | UpdateParticipantProfile roomId participantId updates =>
      updateParticipantProfile roomId participantId updates rooms
  | SubmitVote roomId participantId value =>
      submitVote roomId participantId value rooms
  | RevealVotes roomId => revealVotes roomId rooms
  | ResetVotes roomId => resetVotes roomId rooms
  | RemoveParticipant roomId participantId =>
      removeParticipant roomId participantId rooms
  | TransferHost roomId newHostId => transferHost roomId newHostId rooms
  end.

(** A call with the way it ends. *)
Definition attempt (c : call) (rooms : RoomsMap) : completion RoomsMap :=
  match c with
  | CreateRoom draw now_id now_created options =>
      Normal (snd (createRoom draw now_id now_created options rooms))
  | JoinRoom roomId profile =>
      match fst (joinRoom roomId profile rooms) with
      | Normal _ => Normal (snd (joinRoom roomId profile rooms))
      | TypeError => TypeError
      | IllTyped => IllTyped
      end
  | LeaveRoom roomId participantId => Try.leaveRoom roomId participantId rooms
  | UpdateParticipantProfile roomId participantId updates =>
      Try.updateParticipantProfile roomId participantId updates rooms
  | SubmitVote roomId participantId value =>
      Try.submitVote roomId participantId value rooms
  | RevealVotes roomId => Try.revealVotes roomId rooms
  | ResetVotes roomId => Try.resetVotes roomId rooms
  | RemoveParticipant roomId participantId =>
      Try.removeParticipant roomId participantId rooms
  | TransferHost roomId newHostId => Try.transferHost roomId newHostId rooms
  end.

(** The calls that name a participant by an ordinary id.  [createRoom],
    [leaveRoom], [removeParticipant], [revealVotes] and [resetVotes] only
    touch own keys of a room, whatever the ids are. *)
Definition ordinary_call (c : call) : bool :=
  match c with
  | JoinRoom _ profile => ordinary (ParticipantProfile.id profile)
  | UpdateParticipantProfile _ participantId _
  | SubmitVote _ participantId _
  | TransferHost _ participantId => ordinary participantId
  | CreateRoom _ _ _ _ | LeaveRoom _ _ | RevealVotes _ | ResetVotes _
  | RemoveParticipant _ _ => true
  end.

Inductive reachable : RoomsMap -> Prop :=
| reachable_empty : reachable []
| reachable_call c rooms : reachable rooms -> reachable (perform c rooms).

(** The table after a sequence of calls, from the empty table. *)
Definition run (calls : list call) : RoomsMap :=
  fold_left (fun rooms c => perform c rooms) calls [].

(** The two room invariants of the data model. *)
Definition votes_cover_participants (r : RoomState.t) : Prop :=
  forall k, has k (RoomState.participants r) = true ->
            has k (RoomState.votes r) = true.

Definition host_is_participant (r : RoomState.t) : Prop :=
  RoomState.participants r <> [] ->
  has (RoomState.hostId r) (RoomState.participants r) = true.

Definition every_room (P : RoomState.t -> Prop) (rooms : RoomsMap) : Prop :=
  forall id r, In (id, r) rooms -> P r.

(** What the calls maintain in every room: somebody is in the room, the host
    is a participant, and participants and votes have the same keys. *)
Definition room_sound (r : RoomState.t) : Prop :=
  RoomState.participants r <> []
  /\ has (RoomState.hostId r) (RoomState.participants r) = true
  /\ forall k, has k (RoomState.votes r) = has k (RoomState.participants r).

(** The room has a participant. *)
Definition occupied (r : RoomState.t) : Prop := RoomState.participants r <> [].

(** The dictionaries of a room have distinct keys, as the objects they stand
    for. *)
Definition objects (r : RoomState.t) : Prop :=
  NoDup (keys (RoomState.participants r)) /\ NoDup (keys (RoomState.votes r)).

(** Sample data for the examples. *)
Definition ana : ParticipantProfile.t :=
  ParticipantProfile.mk (lit "U1") (lit "Ana") (lit "#3498db") 1700000000500.

Definition bia : ParticipantProfile.t :=
  ParticipantProfile.mk (lit "U2") (lit "Bia") (lit "#e67e22") 1700000001000.

(** A participant whose id is the name of a member of [Object.prototype]. *)
Definition eva : ParticipantProfile.t :=
  ParticipantProfile.mk (lit "constructor") (lit "Eva") (lit "#e74c3c") 1700000002000.

Definition sample_options : CreateRoomOptions :=
  {| opt_name := lit " Sprint 12 ";
     opt_deckType := fibonacci;
     opt_customDeck := None;
     opt_host := ana |}.

Definition sample_draw : list N := [10; 11; 1; 2; 7; 30]%N.

Definition sample_call : call :=
  CreateRoom sample_draw 1700000000000 1700000000001 sample_options.

(** One room [AB12-3V28] with the host Ana. *)
Definition sample_rooms : RoomsMap := perform sample_call [].

Definition sample_id : jsstring := lit "AB12-3V28".

(** Ana's room after Bia joined it. *)
Definition two_rooms : RoomsMap := perform (JoinRoom sample_id bia) sample_rooms.

Definition two_room : RoomState.t :=
  RoomState.mk sample_id (lit "Sprint 12") fibonacci PRESET_DECKS_fibonacci
    (lit "U1") [(lit "U1", ana); (lit "U2", bia)]
    [(lit "U1", None); (lit "U2", None)] false 1700000000001.

(** A stored table whose room names a host that is not in the room. *)
Definition stray_host_rooms : RoomsMap :=
  [(sample_id,
    RoomState.mk sample_id (lit "Sprint 12") fibonacci PRESET_DECKS_fibonacci
      (lit "U9") [(lit "U1", ana)] [(lit "U1", None)] false 1700000000001)].

(** ** [App.tsx]: the custom deck typed by the user *)

(** [\s*] followed by [rest], greedy with backtracking; the result is the
    length of the match. *)
Fixpoint ws_star (rest : jsstring -> option nat) (s : jsstring) : option nat :=
  match s with
  | c :: s' =>
      if is_ws c then
        match ws_star rest s' with
        | Some n => Some (S n)
        | None => rest s
        end
      else rest s
  | [] => rest []
  end.

(** A match of [/\s*[,\n]\s*/] at the start of [s]. *)
Definition separator (s : jsstring) : option nat :=
  ws_star (fun s1 =>
    match s1 with
    | c :: s2 =>
        if ((c =? 44) || (c =? 10))%N
        then option_map S (ws_star (fun _ => Some O) s2)
        else None
    | [] => None
    end) s.

(** [String.prototype.split] with that pattern: [skip] code units of the
    last separator remain to be passed over, [piece] is the current piece
    in reverse. *)
Fixpoint split_from (s : jsstring) (skip : nat) (piece : jsstring)
  : list jsstring :=
  match s with
  | [] => [rev piece]
  | c :: s' =>
      match skip with
      | S k => split_from s' k piece
      | O =>
          match separator s with
          | Some (S len) => rev piece :: split_from s' len []
          | _ => split_from s' O (c :: piece)
          end
      end
  end.

Definition split (input : jsstring) : list jsstring := split_from input O [].

Definition parseCustomDeck (input : jsstring) : list jsstring :=
  filter nonempty (List.map trim (split input)).

(** [handleCreateRoom] hands the parsed deck to [createRoom] for a custom
    deck and no deck otherwise. *)
Definition customDeck_of_form (deckType : DeckType) (customDeck : jsstring)
  : option (list jsstring) :=
  match deckType with
  | custom => Some (parseCustomDeck customDeck)
  | _ => None
  end.

(** The text [ 1, 2,,  3 \n5] typed in the form, the line break being the
    code unit 10. *)
Definition typed_deck : jsstring := lit " 1, 2,,  3 " ++ [10%N] ++ lit "5".

Definition custom_options (name : jsstring) (host : ParticipantProfile.t)
    (input : jsstring) : CreateRoomOptions :=
  {| opt_name := name;
     opt_deckType := custom;
     opt_customDeck := customDeck_of_form custom input;
     opt_host := host |}.

(** ** Start-up: [loadRooms] *)

(** The values of a list, when none is missing. *)
Fixpoint all_of (A : Type) (l : list (option A)) : option (list A) :=
  match l with
  | [] => Some []
  | Some x :: rest =>
      match all_of rest with
      | Some xs => Some (x :: xs)
      | None => None
      end
  | None :: _ => None
  end.

Section Load.

(** The numbers of a parsed JSON text, with their [String] and [Boolean]
    conversions. *)
Variable number : Type.
Variable Number_toString : number -> jsstring.
Variable Number_toBoolean : number -> bool.

Unset Elimination Schemes.
Inductive json :=
| JUndefined
| JNull
| JBool (b : bool)
| JNum (n : number)
| JStr (s : jsstring)
| JArr (items : list json)
| JObj (props : list (jsstring * json)).
Set Elimination Schemes.

(** [String(value)], [None] when the conversion throws.  An array is joined
    with commas, [null] and [undefined] elements giving the empty string.
    An object is converted by its [toString]: a parsed object with an own
    key [toString] holds there a value that cannot be called, and neither
    this value nor [valueOf] gives a primitive, so that the conversion
    throws; any other parsed object inherits the [toString] of
    [Object.prototype]. *)
Fixpoint String_ (value : json) : option jsstring :=
  match value with
  | JUndefined => Some (lit "undefined")
  | JNull => Some (lit "null")
  | JBool true => Some (lit "true")
  | JBool false => Some (lit "false")
  | JNum n => Some (Number_toString n)
  | JStr s => Some s
  | JArr items =>
      (fix join (l : list json) : option jsstring :=
         match l with
         | [] => Some []
         | x :: rest =>
             let elem :=
               match x with
               | JUndefined | JNull => Some []
               | _ => String_ x
               end in
             match elem, rest with
             | None, _ => None
             | Some elem, [] => Some elem
             | Some elem, _ :: _ =>
                 match join rest with
                 | Some others => Some (elem ++ lit "," ++ others)
                 | None => None
                 end
             end
         end) items
  | JObj props =>
      if has (lit "toString") props then None else Some (lit "[object Object]")
  end.

(** [Boolean(value)] *)
Definition Boolean (value : json) : bool :=
  match value with
  | JUndefined | JNull => false
  | JBool b => b
  | JNum n => Number_toBoolean n
  | JStr s => nonempty s
  | JArr _ | JObj _ => true
  end.

(** A room as parsed from the stored text: [deckValues] and [revealed] are
    whatever the text holds, [JUndefined] when the field is missing. *)
Record StoredRoom := {
  st_id : jsstring;
  st_name : jsstring;
  st_deckType : DeckType;
  st_deckValues : json;
  st_hostId : jsstring;
  st_participants : JsObject.t ParticipantProfile.t;
  st_votes : JsObject.t (option jsstring);
  st_revealed : json;
  st_createdAt : Z
}.

(** What [loadRooms] does to one room; [None] when a conversion throws. *)
Definition sanitize (stored : StoredRoom) : option RoomState.t :=
  match
    match st_deckValues stored with
    | JArr items => all_of (List.map String_ items)
    | _ => Some []
    end
  with
  | Some deckValues =>
      Some (RoomState.mk (st_id stored) (st_name stored) (st_deckType stored)
              deckValues
              (st_hostId stored) (st_participants stored) (st_votes stored)
              (Boolean (st_revealed stored))
              (st_createdAt stored))
  | None => None
  end.

(** [parsed] is [None] when nothing is stored or the text does not parse.
    An exception in the sanitizing of a room is caught as well, and the
    table is empty then. *)
Definition loadRooms (isBrowser : bool) (parsed : option (JsObject.t StoredRoom))
  : RoomsMap :=
  if negb isBrowser then []
  else
    match parsed with
    | None => []
    | Some table =>
        match
          all_of
            (List.map
               (fun entry =>
                  option_map (fun room => (fst entry, room)) (sanitize (snd entry)))
               table)
        with
        | Some rooms => rooms
        | None => []
        end
    end.

End Load.

(** A stored table for the examples: the deck of the first room is not an
    array, the deck of the second one holds a number and a string. *)
Definition Number_toString (n : Z) : jsstring := Z_toString 10 n.

Definition Number_toBoolean (n : Z) : bool := negb (n =? 0)%Z.

Definition stored_room (deck revealed : json Z) : StoredRoom Z :=
  {| st_id := sample_id;
     st_name := lit "Sprint 12";
     st_deckType := custom;
     st_deckValues := deck;
     st_hostId := lit "U1";
     st_participants := [(lit "U1", ana)];
     st_votes := [(lit "U1", None)];
     st_revealed := revealed;
     st_createdAt := 1700000000001 |}.

Definition stored_table : JsObject.t (StoredRoom Z) :=
  [(lit "AAAA-0001", stored_room (JNull Z) (JNum 1%Z));
   (lit "AAAA-0002", stored_room (JArr [JNum 13%Z; JStr Z (lit "XL")]) (JUndefined Z))].

Definition loaded_rooms : RoomsMap :=
  loadRooms Number_toString Number_toBoolean true (Some stored_table).

(** * The rest of the store and of the application *)

(** ** The room a call is about *)

Definition target (c : call) : jsstring :=
  match c with
  | CreateRoom draw now_id _ _ => generateRoomId draw now_id
  | JoinRoom roomId _ | LeaveRoom roomId _ | UpdateParticipantProfile roomId _ _
  | SubmitVote roomId _ _ | RevealVotes roomId | ResetVotes roomId
  | RemoveParticipant roomId _ | TransferHost roomId _ => roomId
  end.

(** A second room, [ZYXW-3V28], beside Ana's and Bia's. *)
Definition other_options : CreateRoomOptions :=
  {| opt_name := lit "Retro";
     opt_deckType := numeric;
     opt_customDeck := None;
     opt_host := ParticipantProfile.mk (lit "U7") (lit "Caio") (lit "#9b59b6")
                   1700000002000 |}.

Definition other_id : jsstring := lit "ZYXW-3V28".

Definition pair_rooms : RoomsMap :=
  perform (CreateRoom [35; 34; 33; 32]%N 1700000000000 1700000002001 other_options)
    two_rooms.

(** The fields of a room that are fixed when it is created. *)
Definition created_fields (r : RoomState.t)
  : jsstring * jsstring * DeckType * list jsstring * Z :=
  (RoomState.id r, RoomState.name r, RoomState.deckType r,
   RoomState.deckValues r, RoomState.createdAt r).

Definition is_createRoom (c : call) : bool :=
  match c with CreateRoom _ _ _ _ => true | _ => false end.

(** ** The store with its storage, its channel and its listeners *)

(** The data of a message event, as the handler of the channel looks at it:
    [data.payload] is taken as a table when it is an object. *)
Inductive payload :=
| NoTable                       (* falsy, or not an object *)
| Table (table : RoomsMap).

Inductive event_data :=
| NotAnObject                   (* falsy, or not an object *)
| Data (type : option jsstring) (payload : payload).

Definition rooms_sync : jsstring := lit "rooms-sync".

(** [isBrowser], and whether [window] has a [BroadcastChannel]. *)
Record Env := {
  isBrowser : bool;
  hasBroadcastChannel : bool
}.

(** [channel] is not [null]. *)
Definition channel (env : Env) : bool := isBrowser env && hasBroadcastChannel env.

Module Store.

(** The state of the module: the table, the item of the local storage (the
    table whose JSON text it holds), the set of the listeners in insertion
    order, the messages posted on the channel and the calls of the
    listeners, both oldest first.  A listener is known by its identity and
    does not call the store back; writing to the storage and posting succeed. *)
Record t := mk {
  rooms : RoomsMap;
  storage : option RoomsMap;
  listeners : list nat;
  posted : list event_data;
  notified : list nat
}.

Definition emit (s : t) : t :=
  mk (rooms s) (storage s) (listeners s) (posted s) (notified s ++ listeners s).

Definition persist (env : Env) (s : t) : t :=
  if negb (isBrowser env) then s
  else mk (rooms s) (Some (rooms s)) (listeners s) (posted s) (notified s).

Definition broadcast (env : Env) (s : t) : t :=
  if negb (channel env) then s
  else mk (rooms s) (storage s) (listeners s)
         (posted s ++ [Data (Some rooms_sync) (Table (rooms s))]) (notified s).

(** [updateRooms] on the store: the table is replaced, stored, posted and
    the listeners are called when the mutator returns; nothing happens when
    it throws.  When it stores an ill-typed object the store is left as it
    is as well: the model has no table for what is committed then. *)
Definition updateRooms (env : Env) (mutator : RoomsMap -> completion RoomsMap)
    (s : t) : t :=
  let draft := rooms s in
  match mutator draft with
  | Normal draft' =>
      let s' := mk draft' (storage s) (listeners s) (posted s) (notified s) in
      emit (broadcast env (persist env s'))
  | TypeError | IllTyped => s
  end.

(** The handler of the messages of the channel; there is none without a
    channel. *)
Definition onmessage (env : Env) (data : event_data) (s : t) : t :=
  if negb (channel env) then s
  else
    match data with
    | NotAnObject => s
    | Data type payload =>
        match type, payload with
        | Some type, Table table =>
            if JsString.eqb type rooms_sync
            then emit (persist env
                         (mk table (storage s) (listeners s) (posted s) (notified s)))
            else s
        | _, _ => s
        end
    end.

Definition getRoomsSnapshot (s : t) : RoomsMap := rooms s.

(** [listeners.add] and [listeners.delete] of a [Set]. *)
Definition subscribeRooms (listener : nat) (s : t) : t :=
  mk (rooms s) (storage s)
     (if existsb (Nat.eqb listener) (listeners s) then listeners s
      else listeners s ++ [listener])
     (posted s) (notified s).

Definition unsubscribe (listener : nat) (s : t) : t :=
  mk (rooms s) (storage s)
     (filter (fun l => negb (Nat.eqb listener l)) (listeners s))
     (posted s) (notified s).

(** [joinRoom] and [leaveRoom] (so [removeParticipant]) return before
    [updateRooms] when the table has nothing under the room id; every other
    call runs [updateRooms] whatever the table holds. *)
Definition reaches_updateRooms (c : call) (table : RoomsMap) : bool :=
  match c with
  | JoinRoom roomId _ | LeaveRoom roomId _ | RemoveParticipant roomId _ =>
      match lookup roomId table with
      | Undefined => false
      | Own _ | Inherited => true
      end
  | _ => true
  end.

(** A call of the API on the store. *)
Definition invoke (env : Env) (c : call) (s : t) : t :=
  if reaches_updateRooms c (rooms s)
  then updateRooms env (fun draft => attempt c draft) s
  else s.

End Store.

(** What [JSON.parse] reads from the text that [persist] wrote for a
    room. *)
Definition stored_of (number : Type) (r : RoomState.t) : StoredRoom number :=
  {| st_id := RoomState.id r;
     st_name := RoomState.name r;
     st_deckType := RoomState.deckType r;
     st_deckValues := JArr (List.map (@JStr number) (RoomState.deckValues r));
     st_hostId := RoomState.hostId r;
     st_participants := RoomState.participants r;
     st_votes := RoomState.votes r;
     st_revealed := JBool number (RoomState.revealed r);
     st_createdAt := RoomState.createdAt r |}.

(** The table of a tab that starts on a storage. *)
Definition startup (number : Type) (toString : number -> jsstring)
    (toBoolean : number -> bool) (env : Env) (storage : option RoomsMap)
  : RoomsMap :=
  loadRooms toString toBoolean (isBrowser env)
    (option_map (List.map (fun entry => (fst entry, stored_of number (snd entry))))
       storage).

Definition browser : Env := {| isBrowser := true; hasBroadcastChannel := true |}.

Definition fresh_store : Store.t := Store.mk [] None [] [] [].

(** What happens to a store: a call of the API, a message of the channel, a
    subscription or the end of one. *)
Inductive action :=
| Invoke (c : call)
| Receive (data : event_data)
| Subscribe (listener : nat)
| Unsubscribe (listener : nat).

Definition act (env : Env) (a : action) (s : Store.t) : Store.t :=
  match a with
  | Invoke c => Store.invoke env c s
  | Receive data => Store.onmessage env data s
  | Subscribe listener => Store.subscribeRooms listener s
  | Unsubscribe listener => Store.unsubscribe listener s
  end.

(** A tab: the store that starts on the table [loaded] and goes through
    the actions. *)
Definition tab (env : Env) (loaded : RoomsMap) (actions : list action) : Store.t :=
  fold_left (fun s a => act env a s) actions (Store.mk loaded None [] [] []).

(** ** [App.tsx] and the landing view *)

(** [SessionProfile] of [types.ts] has the fields of [ParticipantProfile]. *)
Definition SessionProfile := ParticipantProfile.t.

Definition DEFAULT_COLOR : jsstring := lit "#3498db".

(** [customDeckPreview] of the landing view: the cards shown while the deck
    is typed. *)
Definition customDeckPreview (customDeck : jsstring) : list jsstring :=
  filter nonempty (List.map trim (split customDeck)).

(** No white space at either end. *)
Definition trimmed (s : jsstring) : Prop :=
  trimStart s = s /\ trimStart (rev s) = rev s.

Definition generateSessionId (draw : list N) : jsstring :=
  lit "USR-" ++ toUpperCase (slice 2 8 (random_toString36 draw)).

(** [stored] is the session read from the storage, [None] when there is no
    window, no item, or a text that does not parse to an object. *)
Definition loadStoredSession (stored : option SessionProfile) : option SessionProfile :=
  match stored with
  | None => None
  | Some parsed =>
      match ParticipantProfile.id parsed with
      | [] => None
      | _ :: _ => Some parsed
      end
  end.

Definition ensureSession (base : option SessionProfile) (draw : list N) (now : Z)
  : SessionProfile :=
  match base with
  | Some base => base
  | None => ParticipantProfile.mk (generateSessionId draw) [] DEFAULT_COLOR now
  end.

Record Errors := {
  err_session : option jsstring;
  err_create : option jsstring;
  err_join : option jsstring
}.

(** The state of [App]. *)
Record AppState := {
  session : option SessionProfile;
  currentRoomId : option jsstring;
  errors : Errors
}.

Definition no_errors : Errors :=
  {| err_session := None; err_create := None; err_join := None |}.

Definition with_session_error (message : jsstring) (app : AppState) : AppState :=
  {| session := session app;
     currentRoomId := currentRoomId app;
     errors := {| err_session := Some message;
                  err_create := err_create (errors app);
                  err_join := err_join (errors app) |} |}.

Record CreateRoomFormValues := {
  roomName : jsstring;
  form_deckType : DeckType;
  customDeck : jsstring
}.

(** [handleCreateRoom]: the clock is read for the [joinedAt] of the host,
    then twice in [createRoom]. *)
Definition handleCreateRoom (draw : list N) (now_joined now_id now_created : Z)
    (values : CreateRoomFormValues) (app : AppState) (rooms : RoomsMap)
  : AppState * RoomsMap :=
  match session app with
  | None => (app, rooms)
  | Some session =>
      let trimmedName := trim (ParticipantProfile.name session) in
      match trimmedName with
      | [] =>
          (with_session_error (lit "Informe um nome antes de criar uma sala.") app,
           rooms)
      | _ :: _ =>
          let deckValues :=
            customDeck_of_form (form_deckType values) (customDeck values) in
          let hostProfile :=
            ParticipantProfile.mk (ParticipantProfile.id session) trimmedName
              (ParticipantProfile.avatarColor session) now_joined in
          let result :=
            createRoom draw now_id now_created
              {| opt_name :=
                   match trim (roomName values) with
                   | [] => trimmedName ++ lit " - Planning Poker"
                   | _ :: _ => trim (roomName values)
                   end;
                 opt_deckType := form_deckType values;
                 opt_customDeck := deckValues;
                 opt_host := hostProfile |} rooms in
          ({| session := Some session;
              currentRoomId := Some (fst result);
              errors := no_errors |},
           snd result)
      end
  end.

Definition join_failed : jsstring :=
  lit "N" ++ [227%N] ++ lit "o foi poss" ++ [237%N] ++ lit "vel entrar na sala.".

(** [handleJoinRoom].  [String_toUpperCase] is [String.prototype.toUpperCase]
    on any text.  When [joinRoom] throws, so does the handler, before it
    sets anything. *)
Definition handleJoinRoom (String_toUpperCase : jsstring -> jsstring) (now : Z)
    (roomIdRaw : jsstring) (app : AppState) (rooms : RoomsMap)
  : completion (AppState * RoomsMap) :=
  match session app with
  | None => Normal (app, rooms)
  | Some session =>
      let trimmedName := trim (ParticipantProfile.name session) in
      match trimmedName with
      | [] =>
          Normal
            (with_session_error (lit "Informe um nome antes de entrar em uma sala.")
               app,
             rooms)
      | _ :: _ =>
          let roomId := String_toUpperCase (trim roomIdRaw) in
          let result :=
            joinRoom roomId
              (ParticipantProfile.mk (ParticipantProfile.id session) trimmedName
                 (ParticipantProfile.avatarColor session) now)
              rooms in
          match fst result with
          | TypeError => TypeError
          | IllTyped => IllTyped
          | Normal joined =>
              if negb (success joined) then
                Normal
                  ({| session := Some session;
                      currentRoomId := currentRoomId app;
                      errors := {| err_session := err_session (errors app);
                                   err_create := err_create (errors app);
                                   err_join :=
                                     Some (match reason joined with
                                           | Some reason => reason
                                           | None => join_failed
                                           end) |} |},
                   snd result)
              else
                Normal
                  ({| session := Some session;
                      currentRoomId := Some roomId;
                      errors := no_errors |},
                   snd result)
          end
      end
  end.

(** [useRoom]: what the table has under the current room id, [Undefined]
    standing for [null]. *)
Definition useRoom (roomId : option jsstring) (allRooms : RoomsMap)
  : property RoomState.t :=
  match roomId with
  | None | Some [] => Undefined
  | Some roomId => lookup roomId allRooms
  end.

(** [handleLeaveRoom]; [room] is [useRoom(currentRoomId)].  A member of
    [Object.prototype] has no [id]: [leaveRoom] is then called with
    [undefined], which it reads as the key [undefined]. *)
Definition handleLeaveRoom (app : AppState) (rooms : RoomsMap)
  : completion (AppState * RoomsMap) :=
  let leave (session : SessionProfile) (roomId : jsstring) :=
    match Try.leaveRoom roomId (ParticipantProfile.id session) rooms with
    | Normal rooms' =>
        Normal
          ({| session := Some session; currentRoomId := None; errors := errors app |},
           rooms')
    | TypeError => TypeError
    | IllTyped => IllTyped
    end in
  match useRoom (currentRoomId app) rooms, session app with
  | Own room, Some session => leave session (RoomState.id room)
  | Inherited, Some session => leave session (lit "undefined")
  | _, _ => Normal (app, rooms)
  end.

(** The effect that sends back to the landing view somebody who is no
    longer in the room; [room] is [useRoom(currentRoomId)]. *)
Definition leftRoomEffect (room : property RoomState.t) (app : AppState)
  : completion AppState :=
  match room, session app with
  | Own room, Some session =>
      match lookup (ParticipantProfile.id session) (RoomState.participants room) with
      | Undefined =>
          Normal
            {| session := Some session; currentRoomId := None; errors := errors app |}
      | Own _ | Inherited => Normal app
      end
  | Inherited, Some _ => TypeError
  | _, _ => Normal app
  end.

(** The effect that copies the name and the colour of the session to the
    participant: the call it makes, if any.  A member of [Object.prototype]
    found under the id of the session has no [avatarColor], so that the
    comparison fails and the call is made. *)
Definition profileEffect (room : property RoomState.t)
    (session : option SessionProfile) : completion (option call) :=
  match room, session with
  | Own room, Some session =>
      let update :=
        UpdateParticipantProfile (RoomState.id room)
          (ParticipantProfile.id session)
          {| upd_name := Some (ParticipantProfile.name session);
             upd_avatarColor := Some (ParticipantProfile.avatarColor session) |} in
      match lookup (ParticipantProfile.id session) (RoomState.participants room) with
      | Undefined => Normal None
      | Inherited => Normal (Some update)
      | Own participant =>
          if JsString.eqb (ParticipantProfile.name participant)
               (ParticipantProfile.name session)
             && JsString.eqb (ParticipantProfile.avatarColor participant)
                  (ParticipantProfile.avatarColor session)
          then Normal None
          else Normal (Some update)
      end
  | Inherited, Some _ => TypeError
  | _, _ => Normal None
  end.

(** A session as it is once a name is given. *)
Definition ana_app : AppState :=
  {| session := Some (ParticipantProfile.mk (lit "U1") (lit " Ana ") (lit "#3498db")
                        1700000000100);
     currentRoomId := None;
     errors := no_errors |}.

Definition blank_form : CreateRoomFormValues :=
  {| roomName := lit "  "; form_deckType := custom; customDeck := lit "XS, S ,M" |}.

(** The characters of a room id: [0-9A-Z] and the dash. *)
Definition id_char (c : N) : bool := is_upper_alnum c || (c =? 45)%N.

(** ** The room view *)

From Stdlib Require Import Permutation Sorted.

(** [Array.prototype.sort] is stable: the elements come out in the order of
    the comparison, those that compare equal in the order they had.
    [before a b] is [compare(a, b) <= 0]. *)
Section Sort.
Variable A : Type.
Variable before : A -> A -> bool.

Fixpoint insert_sorted (x : A) (l : list A) : list A :=
  match l with
  | [] => [x]
  | y :: l' => if before x y then x :: l else y :: insert_sorted x l'
  end.

Fixpoint sort (l : list A) : list A :=
  match l with
  | [] => []
  | x :: l' => insert_sorted x (sort l')
  end.

End Sort.

Module RoomView.

Definition by_joinedAt (a b : ParticipantProfile.t) : bool :=
  (ParticipantProfile.joinedAt a <=? ParticipantProfile.joinedAt b)%Z.

(** [participants]: the values of [room.participants] sorted by
    [joinedAt]. *)
Definition participants (room : RoomState.t) : list ParticipantProfile.t :=
  sort by_joinedAt (List.map snd (RoomState.participants room)).

(** A vote as the view reads it, [votes[id]], is truthy: a string that is
    not empty, or a member of [Object.prototype]. *)
Definition truthy (vote : property (option jsstring)) : bool :=
  match vote with
  | Own (Some (_ :: _)) | Inherited => true
  | Own (Some []) | Own None | Undefined => false
  end.

Definition cast (votes : JsObject.t (option jsstring)) (id : jsstring) : bool :=
  truthy (lookup id votes).

Definition waitingParticipants (room : RoomState.t) : list ParticipantProfile.t :=
  filter (fun participant =>
            negb (cast (RoomState.votes room) (ParticipantProfile.id participant)))
    (participants room).

Definition everyoneVoted (room : RoomState.t) : bool :=
  (length (waitingParticipants room) =? 0)%nat.

(** [counts.set(vote, (counts.get(vote) ?? 0) + 1)] on a [Map], which keeps
    its keys in the order of their first insertion. *)
Fixpoint bump (vote : jsstring) (counts : list (jsstring * nat))
  : list (jsstring * nat) :=
  match counts with
  | [] => [(vote, 1)]
  | (value, count) :: rest =>
      if JsString.eqb vote value then (value, S count) :: rest
      else (value, count) :: bump vote rest
  end.

Definition count_votes (values : list (option jsstring)) : list (jsstring * nat) :=
  fold_left (fun counts vote =>
               match vote with
               | Some (c :: s) => bump (c :: s) counts
               | _ => counts
               end) values [].

Definition by_count (a b : jsstring * nat) : bool := (snd b <=? snd a)%nat.

Definition voteSummary (room : RoomState.t) : list (jsstring * nat) :=
  sort by_count (count_votes (List.map snd (RoomState.votes room))).

Definition default_status : jsstring := lit "Escolha sua carta para votar".

Definition statusMessage (room : RoomState.t) : jsstring :=
  if RoomState.revealed room then lit "Resultados revelados"
  else if everyoneVoted room
  then lit "Todos os votos recebidos. Revele quando quiser!"
  else
    match waitingParticipants room with
    | [only] => lit "Aguardando " ++ ParticipantProfile.name only ++ lit "..."
    | _ :: _ :: _ =>
        lit "Aguardando "
        ++ Z_toString 10 (Z.of_nat (length (waitingParticipants room)))
        ++ lit " pessoas..."
    | [] => default_status
    end.

Definition dash : jsstring := [8212%N].
Definition bullet : jsstring := [8226%N].

(** What the view hands to React for a vote: a text, or a member of
    [Object.prototype] that [votes[id]] has found. *)
Inductive child :=
| Text (s : jsstring)
| Member.

(** What a seat shows of a vote: [displayVote] and [voteClass] of
    [layoutSeats] (the place of the seat on the table is left out). *)
Definition displayVote (room : RoomState.t) (participant : ParticipantProfile.t)
  : child :=
  let vote := lookup (ParticipantProfile.id participant) (RoomState.votes room) in
  if RoomState.revealed room then
    match vote with
    | Own (Some value) => Text value
    | Inherited => Member
    | Own None | Undefined => Text dash
    end
  else if truthy vote then Text bullet else Text [].

Definition voteClass (room : RoomState.t) (participant : ParticipantProfile.t)
  : jsstring :=
  let vote := lookup (ParticipantProfile.id participant) (RoomState.votes room) in
  if RoomState.revealed room then lit "revealed"
  else if truthy vote then lit "hidden" else lit "empty".

(** The line of a player in the list: the [vote-status]. *)
Definition voteStatus (room : RoomState.t) (participant : ParticipantProfile.t)
  : child :=
  let vote := lookup (ParticipantProfile.id participant) (RoomState.votes room) in
  if RoomState.revealed room then
    match vote with
    | Own (Some value) => Text value
    | Inherited => Member
    | Own None | Undefined => Text (lit "Sem voto")
    end
  else if truthy vote then Text (lit "Carta selecionada")
  else Text (lit "Aguardando voto").

(** The distribution is shown when the room is revealed and a vote is
    cast. *)
Definition shownSummary (room : RoomState.t) : option (list (jsstring * nat)) :=
  if RoomState.revealed room
  then match voteSummary room with
       | [] => None
       | summary => Some summary
       end
  else None.

(** What the view shows of the votes of the others. *)
Definition shown (room : RoomState.t)
  : jsstring * list (child * jsstring * child) * option (list (jsstring * nat)) :=
  (statusMessage room,
   List.map (fun participant =>
               (displayVote room participant, voteClass room participant,
                voteStatus room participant))
     (participants room),
   shownSummary room).

(** The number of votes for a value. *)
Definition votes_for (value : jsstring) (values : list (option jsstring)) : nat :=
  length (filter (fun vote =>
                    match vote with
                    | Some cast => JsString.eqb value cast
                    | None => false
                    end) values).

(** The count that a summary gives for a value, 0 when it has none. *)
Fixpoint counted (value : jsstring) (counts : list (jsstring * nat)) : nat :=
  match counts with
  | [] => 0
  | (v, n) :: rest => if JsString.eqb value v then n else counted value rest
  end.

End RoomView.

(** Ana's room with four votes: two for [8], one for [5], one not cast. *)
Definition voted_room : RoomState.t :=
  RoomState.mk sample_id (lit "Sprint 12") fibonacci PRESET_DECKS_fibonacci (lit "U1")
    [(lit "U1", ana); (lit "U2", bia);
     (lit "U3", ParticipantProfile.mk (lit "U3") (lit "Caio") (lit "#9b59b6")
                  1700000002000);
     (lit "U4", ParticipantProfile.mk (lit "U4") (lit "Davi") (lit "#2ecc71")
                  1700000003000)]
    [(lit "U1", Some (lit "5")); (lit "U2", Some (lit "8"));
     (lit "U3", None); (lit "U4", Some (lit "8"))]
    false 1700000000001.

(** * Properties *)

(** ** Strings *)

Lemma eqb_refl (a : jsstring) : JsString.eqb a a = true.
Proof. unfold JsString.eqb. destruct (JsString.eq_dec a a); congruence. Qed.

Lemma eqb_eq (a b : jsstring) : JsString.eqb a b = true <-> a = b.
Proof.
  unfold JsString.eqb. destruct (JsString.eq_dec a b); split; congruence.
Qed.

Lemma eqb_neq (a b : jsstring) : JsString.eqb a b = false <-> a <> b.
Proof.
  unfold JsString.eqb. destruct (JsString.eq_dec a b); split; congruence.
Qed.

Ltac case_key a b :=
  let E := fresh "E" in
  destruct (JsString.eqb a b) eqn:E;
  [apply eqb_eq in E; try subst | apply eqb_neq in E].

(** ** Dictionaries *)

Section ObjFacts.
Variable V : Type.
Implicit Types (o : JsObject.t V) (k : jsstring) (v : V).

Lemma has_get k o : has k o = true <-> exists v, get k o = Some v.
Proof.
  unfold has. destruct (get k o); split; intros H; eauto; try discriminate.
  destruct H; discriminate.
Qed.

Lemma has_false_get k o : has k o = false <-> get k o = None.
Proof. unfold has. destruct (get k o); split; congruence. Qed.

Lemma get_In k v o : get k o = Some v -> In (k, v) o.
Proof.
  induction o as [|[k' v'] o IH]; simpl; [discriminate|].
  case_key k k'; intros H; [left; congruence | right; auto].
Qed.

Lemma In_has k v o : In (k, v) o -> has k o = true.
Proof.
  unfold has. induction o as [|[k' v'] o IH]; simpl; [tauto|].
  intros [H|H].
  - inversion H; subst. now rewrite eqb_refl.
  - destruct (JsString.eqb k k'); auto.
Qed.

Lemma has_keys k o : has k o = true <-> In k (keys o).
Proof.
  split.
  - intros H. apply has_get in H as [v H]. apply get_In in H.
    unfold keys. change k with (fst (k, v)). now apply in_map.
  - unfold keys. intros H. apply in_map_iff in H as [[k' v] [E H]].
    simpl in E; subst. eapply In_has; eauto.
Qed.

Lemma get_delete_eq k o : get k (delete k o) = None.
Proof.
  induction o as [|[k' v'] o IH]; simpl; auto.
  destruct (JsString.eqb k k') eqn:E; simpl; auto. now rewrite E.
Qed.

Lemma get_delete_ne k k' o : k <> k' -> get k' (delete k o) = get k' o.
Proof.
  intros Hne. induction o as [|[k2 v2] o IH]; simpl; auto.
  case_key k k2; simpl.
  - apply not_eq_sym, eqb_neq in Hne. now rewrite Hne.
  - now rewrite IH.
Qed.

Lemma In_delete k e o : In e (delete k o) -> In e o.
Proof.
  induction o as [|[k' v'] o IH]; simpl; auto.
  destruct (JsString.eqb k k'); simpl; intuition.
Qed.

Lemma delete_absent k o : get k o = None -> delete k o = o.
Proof.
  induction o as [|[k' v'] o IH]; simpl; auto.
  destruct (JsString.eqb k k'); [discriminate|].
  intros H. now rewrite IH.
Qed.

Lemma has_delete k k' o :
  has k' (delete k o) = negb (JsString.eqb k k') && has k' o.
Proof.
  unfold has. case_key k k'; simpl.
  - now rewrite get_delete_eq.
  - now rewrite get_delete_ne.
Qed.

Lemma get_replace_eq k v o : has k o = true -> get k (replace k v o) = Some v.
Proof.
  unfold has. induction o as [|[k' v'] o IH]; simpl; [discriminate|].
  destruct (JsString.eqb k k') eqn:E; simpl.
  - now rewrite eqb_refl.
  - rewrite E. auto.
Qed.

Lemma get_replace_ne k k' v o : k <> k' -> get k' (replace k v o) = get k' o.
Proof.
  intros Hne. induction o as [|[k2 v2] o IH]; simpl; auto.
  case_key k k2; simpl.
  - assert (E : JsString.eqb k' k2 = false) by (apply eqb_neq; congruence).
    now rewrite E.
  - now rewrite IH.
Qed.

Lemma In_replace k v e o : In e (replace k v o) -> e = (k, v) \/ In e o.
Proof.
  induction o as [|[k' v'] o IH]; simpl; auto.
  destruct (JsString.eqb k k'); simpl; intuition.
Qed.

Lemma keys_replace k v o : keys (replace k v o) = keys o.
Proof.
  unfold keys. induction o as [|[k' v'] o IH]; simpl; auto.
  case_key k k'; simpl; congruence.
Qed.

Lemma replace_same k v o : get k o = Some v -> replace k v o = o.
Proof.
  induction o as [|[k' v'] o IH]; simpl; auto.
  case_key k k'; intros H; [congruence | now rewrite IH].
Qed.

Lemma get_insert_index_eq i k v o :
  get k o = None -> get k (insert_index i k v o) = Some v.
Proof.
  induction o as [|[k' v'] o IH]; simpl.
  - now rewrite eqb_refl.
  - destruct (JsString.eqb k k') eqn:E; [discriminate|]. intros H.
    destruct (array_index k') as [j|]; [destruct (j <? i)%N|]; simpl;
      rewrite ?E, ?eqb_refl; auto.
Qed.

Lemma get_insert_index_ne i k k' v o :
  k <> k' -> get k' (insert_index i k v o) = get k' o.
Proof.
  intros Hne. pose proof Hne as Hne'. apply not_eq_sym, eqb_neq in Hne'.
  induction o as [|[k2 v2] o IH]; simpl.
  - now rewrite Hne'.
  - destruct (array_index k2) as [j|]; [destruct (j <? i)%N|]; simpl;
      rewrite ?Hne', ?IH; auto.
Qed.

Lemma In_insert_index i k v e o :
  In e (insert_index i k v o) -> e = (k, v) \/ In e o.
Proof.
  induction o as [|[k' v'] o IH]; simpl.
  - intuition.
  - destruct (array_index k') as [j|]; [destruct (j <? i)%N|]; simpl; intuition.
Qed.

Lemma get_app k o1 o2 :
  get k (o1 ++ o2) = match get k o1 with Some v => Some v | None => get k o2 end.
Proof.
  induction o1 as [|[k' v'] o1 IH]; simpl; auto.
  destruct (JsString.eqb k k'); auto.
Qed.

Lemma get_create_eq k v o : get k o = None -> get k (create k v o) = Some v.
Proof.
  intros H. unfold create. destruct (array_index k).
  - now apply get_insert_index_eq.
  - rewrite get_app, H. simpl. now rewrite eqb_refl.
Qed.

Lemma get_create_ne k k' v o : k <> k' -> get k' (create k v o) = get k' o.
Proof.
  intros Hne. unfold create. destruct (array_index k).
  - now apply get_insert_index_ne.
  - rewrite get_app. destruct (get k' o); auto. simpl.
    apply not_eq_sym, eqb_neq in Hne. now rewrite Hne.
Qed.

Lemma In_create k v e o : In e (create k v o) -> e = (k, v) \/ In e o.
Proof.
  unfold create. destruct (array_index k).
  - apply In_insert_index.
  - intros H. apply in_app_or in H. simpl in H. intuition.
Qed.

Lemma get_set_eq k v o : get k (set k v o) = Some v.
Proof.
  unfold set. destruct (has k o) eqn:E.
  - now apply get_replace_eq.
  - apply get_create_eq. now apply has_false_get.
Qed.

Lemma get_set_ne k k' v o : k <> k' -> get k' (set k v o) = get k' o.
Proof.
  intros Hne. unfold set. destruct (has k o).
  - now apply get_replace_ne.
  - now apply get_create_ne.
Qed.

Lemma has_set k k' v o : has k' (set k v o) = JsString.eqb k k' || has k' o.
Proof.
  unfold has at 1. case_key k k'; simpl.
  - now rewrite get_set_eq.
  - rewrite get_set_ne by assumption. reflexivity.
Qed.

Lemma In_set k v e o : In e (set k v o) -> e = (k, v) \/ In e o.
Proof.
  unfold set. destruct (has k o); [apply In_replace | apply In_create].
Qed.

Lemma set_same k v o : get k o = Some v -> set k v o = o.
Proof.
  intros H. unfold set, has. rewrite H. now apply replace_same.
Qed.

Lemma keys_set_present k v o : has k o = true -> keys (set k v o) = keys o.
Proof. intros H. unfold set. rewrite H. apply keys_replace. Qed.

Lemma set_not_nil k v o : set k v o <> [].
Proof.
  intros H. pose proof (get_set_eq k v o) as G. rewrite H in G. discriminate.
Qed.

End ObjFacts.

(** ** The prototype chain *)

Section ChainFacts.
Variable V : Type.
Implicit Types (o : JsObject.t V) (k : jsstring) (v : V).

Lemma lookup_own k v o : get k o = Some v -> lookup k o = Own v.
Proof. intros H. unfold lookup. now rewrite H. Qed.

Lemma lookup_Own k v o : lookup k o = Own v -> get k o = Some v.
Proof.
  unfold lookup. destruct (get k o); [congruence|].
  destruct (inherited k); discriminate.
Qed.

Lemma lookup_undefined k o :
  get k o = None -> inherited k = false -> lookup k o = Undefined.
Proof. intros H Hk. unfold lookup. now rewrite H, Hk. Qed.

Lemma lookup_inherited k o :
  get k o = None -> inherited k = true -> lookup k o = Inherited.
Proof. intros H Hk. unfold lookup. now rewrite H, Hk. Qed.

Lemma in_own k o : has k o = true -> in_ k o = true.
Proof. intros H. unfold in_. now rewrite H. Qed.

Lemma in_not_inherited k o : inherited k = false -> in_ k o = has k o.
Proof. intros H. unfold in_. rewrite H. apply orb_false_r. Qed.

Lemma assign_own k v o : has k o = true -> assign k v o = set k v o.
Proof. intros H. unfold assign, set. now rewrite H. Qed.

Lemma assign_not_proto k v o : k <> proto -> assign k v o = set k v o.
Proof.
  intros H. unfold assign, set. apply eqb_neq in H. now rewrite H.
Qed.

Lemma assign_proto v o : has proto o = false -> assign proto v o = o.
Proof. intros H. unfold assign. now rewrite H, eqb_refl. Qed.

Lemma assign_not_nil k v o : o <> [] -> assign k v o <> [].
Proof.
  intros Ho. unfold assign. destruct (has k o) eqn:E.
  - intros H. apply has_get in E as [w G].
    pose proof (get_replace_eq k v o) as R. unfold has in R. rewrite G in R.
    specialize (R eq_refl). rewrite H in R. discriminate.
  - destruct (JsString.eqb k proto); auto.
    intros H. apply has_false_get in E.
    pose proof (get_create_eq k v o E) as R. rewrite H in R. discriminate.
Qed.

(** Assigning to the keys of an object, one after the other, is writing its
    own properties. *)
Lemma assign_keys (f : jsstring -> V) ids o :
  (forall i, In i ids -> has i o = true) ->
  fold_left (fun acc i => assign i (f i) acc) ids o
  = fold_left (fun acc i => set i (f i) acc) ids o.
Proof.
  revert o. induction ids as [|i ids IH]; simpl; intros o H; auto.
  rewrite assign_own by auto. apply IH.
  intros j Hj. rewrite has_set. rewrite (H j) by auto. apply orb_true_r.
Qed.

End ChainFacts.

Lemma ordinary_not_inherited k : ordinary k = true -> inherited k = false.
Proof.
  unfold ordinary. intros H. apply andb_true_iff in H as [H _].
  now apply negb_true_iff in H.
Qed.

Lemma ordinary_not_proto k : ordinary k = true -> k <> proto.
Proof.
  intros H E. subst k. apply ordinary_not_inherited in H. discriminate.
Qed.

(** What [o[k]], [k in o] and [o[k] = v] are for an ordinary key. *)
Lemma lookup_ordinary (V : Type) k (o : JsObject.t V) :
  ordinary k = true ->
  lookup k o = match get k o with Some v => Own v | None => Undefined end.
Proof.
  intros H. unfold lookup. now rewrite (ordinary_not_inherited _ H).
Qed.

Lemma in_ordinary (V : Type) k (o : JsObject.t V) :
  ordinary k = true -> in_ k o = has k o.
Proof. intros H. apply in_not_inherited. now apply ordinary_not_inherited. Qed.

Lemma assign_ordinary (V : Type) k (v : V) (o : JsObject.t V) :
  ordinary k = true -> assign k v o = set k v o.
Proof. intros H. apply assign_not_proto. now apply ordinary_not_proto. Qed.

(** ** Rooms of a table *)

Lemma every_room_set (P : RoomState.t -> Prop) id r rooms :
  every_room P rooms -> P r -> every_room P (set id r rooms).
Proof.
  intros H Hr id' r' Hin. apply In_set in Hin as [E|Hin].
  - now inversion E.
  - eapply H; eauto.
Qed.

Lemma every_room_delete (P : RoomState.t -> Prop) id rooms :
  every_room P rooms -> every_room P (delete id rooms).
Proof. intros H id' r' Hin. apply In_delete in Hin. eapply H; eauto. Qed.

Lemma every_room_get (P : RoomState.t -> Prop) id r rooms :
  every_room P rooms -> get id rooms = Some r -> P r.
Proof. intros H G. apply get_In in G. eapply H; eauto. Qed.

Lemma has_reset (votes : JsObject.t (option jsstring)) ids k :
  (forall i, In i ids -> has i votes = true) ->
  has k (fold_left (fun vs i => set i None vs) ids votes) = has k votes.
Proof.
  revert votes. induction ids as [|i ids IH]; simpl; intros votes H; auto.
  rewrite IH.
  - rewrite has_set. case_key i k; simpl; auto.
    symmetry. apply H. now left.
  - intros j Hj. rewrite has_set. rewrite (H j) by auto. apply orb_true_r.
Qed.

(** ** The calls on a room of the table, and on a room that is missing *)

Ltac unfold_calls :=
  unfold removeParticipant, leaveRoom, updateParticipantProfile, submitVote,
    revealVotes, resetVotes, transferHost, Try.removeParticipant, Try.leaveRoom,
    Try.updateParticipantProfile, Try.submitVote, Try.revealVotes, Try.resetVotes,
    Try.transferHost, updateRooms.

(** The calls on a room [r] that the table has under [roomId]. *)
Ltac on_room G := unfold_calls; rewrite ?(lookup_own _ _ G); cbn [committed].

(** The table has no room under the id: the id finds nothing, or it finds a
    member of [Object.prototype]. *)
Lemma lookup_absent (V : Type) k (o : JsObject.t V) :
  get k o = None -> lookup k o = Undefined \/ lookup k o = Inherited.
Proof.
  intros H. unfold lookup. rewrite H. destruct (inherited k); auto.
Qed.

Ltac on_absent G :=
  unfold_calls;
  let E := fresh "E" in
  destruct (lookup_absent _ _ G) as [E|E]; rewrite ?E; cbn [committed].

(** A generated room id holds a dash: it is not [__proto__], and
    [createRoom] defines or replaces an own property of the table. *)
Lemma generateRoomId_not_proto draw now : generateRoomId draw now <> proto.
Proof.
  unfold generateRoomId. intros E.
  assert (H : In 45%N proto).
  { rewrite <- E. apply in_or_app. right. now left. }
  vm_compute in H. repeat (destruct H as [H|H]; [discriminate|]). exact H.
Qed.

Lemma assign_generated (r : RoomState.t) draw now rooms :
  assign (generateRoomId draw now) r rooms = set (generateRoomId draw now) r rooms.
Proof. apply assign_not_proto, generateRoomId_not_proto. Qed.

(** The room that [joinRoom] makes of a room. *)
Lemma joinRoom_own roomId profile rooms r :
  get roomId rooms = Some r ->
  let P := ParticipantProfile.id profile in
  let r' :=
    RoomState.with_votes
      (if negb (in_ P (RoomState.votes r)) then assign P None (RoomState.votes r)
       else RoomState.votes r)
      (RoomState.with_participants
         (assign P
            (ParticipantProfile.mk P (ParticipantProfile.name profile)
               (ParticipantProfile.avatarColor profile)
               (match lookup P (RoomState.participants r) with
                | Own previous => ParticipantProfile.joinedAt previous
                | Inherited | Undefined => ParticipantProfile.joinedAt profile
                end))
            (RoomState.participants r)) r) in
  joinRoom roomId profile rooms
  = (Normal {| success := true; reason := None; room := Some r' |},
     set roomId r' rooms).
Proof.
  intros G P r'. unfold joinRoom, updateRooms. rewrite (lookup_own _ _ G).
  cbn zeta. now rewrite get_set_eq.
Qed.

Lemma joinRoom_absent roomId profile rooms :
  get roomId rooms = None -> snd (joinRoom roomId profile rooms) = rooms.
Proof.
  intros G. unfold joinRoom, updateRooms.
  destruct (lookup_absent _ _ G) as [E|E]; now rewrite ?E.
Qed.

Lemma leaveRoom_absent roomId participantId rooms :
  get roomId rooms = None -> leaveRoom roomId participantId rooms = rooms.
Proof. intros G. on_absent G; reflexivity. Qed.

Lemma updateParticipantProfile_absent roomId participantId updates rooms :
  get roomId rooms = None ->
  updateParticipantProfile roomId participantId updates rooms = rooms.
Proof. intros G. on_absent G; reflexivity. Qed.

Lemma submitVote_absent roomId participantId value rooms :
  get roomId rooms = None -> submitVote roomId participantId value rooms = rooms.
Proof. intros G. on_absent G; reflexivity. Qed.

Lemma revealVotes_absent roomId rooms :
  get roomId rooms = None -> revealVotes roomId rooms = rooms.
Proof. intros G. on_absent G; reflexivity. Qed.

Lemma resetVotes_absent roomId rooms :
  get roomId rooms = None -> resetVotes roomId rooms = rooms.
Proof. intros G. on_absent G; reflexivity. Qed.

Lemma transferHost_absent roomId newHostId rooms :
  get roomId rooms = None -> transferHost roomId newHostId rooms = rooms.
Proof. intros G. on_absent G; reflexivity. Qed.

(** The table that a call leaves is the one it commits. *)
Lemma perform_attempt c rooms : perform c rooms = committed rooms (attempt c rooms).
Proof.
  destruct c; simpl; try reflexivity.
  unfold joinRoom, updateRooms.
  destruct (lookup roomId rooms) as [r| |]; simpl; try reflexivity.
Qed.

(** [resetVotes] writes own keys. *)
Lemma resetVotes_own roomId rooms r :
  get roomId rooms = Some r ->
  resetVotes roomId rooms
  = set roomId
      (RoomState.with_revealed false
         (RoomState.with_votes
            (fold_left (fun votes participantId => set participantId None votes)
               (keys (RoomState.votes r)) (RoomState.votes r)) r))
      rooms.
Proof.
  intros G. on_room G.
  rewrite (assign_keys (fun _ => None)); auto.
  intros i Hi. now apply has_keys.
Qed.

(** ** Every call keeps somebody in every room *)

Lemma perform_occupied c rooms :
  every_room occupied rooms -> every_room occupied (perform c rooms).
Proof.
  intros H. destruct c; simpl.
  - unfold createRoom, updateRooms, committed, assign.
    cbn [snd]. destruct (has _ rooms) eqn:E.
    + intros id r Hin. apply In_replace in Hin as [Hin|Hin]; [|eapply H; eauto].
      inversion Hin. unfold occupied. simpl. discriminate.
    + destruct (JsString.eqb _ proto); auto.
      intros id r Hin. apply In_create in Hin as [Hin|Hin]; [|eapply H; eauto].
      inversion Hin. unfold occupied. simpl. discriminate.
  - destruct (get roomId rooms) as [r|] eqn:G.
    + rewrite (@joinRoom_own roomId profile rooms r G). cbn [snd].
      apply every_room_set; auto. unfold occupied. simpl.
      apply assign_not_nil. exact (every_room_get _ H G).
    + now rewrite joinRoom_absent.
  - destruct (get roomId rooms) as [r|] eqn:G; [|now rewrite leaveRoom_absent].
    on_room G.
    destruct (keys (delete participantId (RoomState.participants r)))
      as [|first rest] eqn:K; cbn [committed].
    + now apply every_room_delete.
    + apply every_room_set; auto. unfold occupied. simpl.
      intros E. rewrite E in K. discriminate.
  - destruct (get roomId rooms) as [r|] eqn:G;
      [|now rewrite updateParticipantProfile_absent].
    on_room G.
    destruct (lookup participantId (RoomState.participants r)) as [p| |] eqn:L;
      cbn [committed]; auto.
    + apply every_room_set; auto. unfold occupied. simpl.
      apply assign_not_nil. exact (every_room_get _ H G).
    + destruct (JsString.eqb participantId proto); auto.
  - destruct (get roomId rooms) as [r|] eqn:G; [|now rewrite submitVote_absent].
    on_room G.
    destruct (in_ participantId (RoomState.participants r)); cbn [negb committed]; auto.
    apply every_room_set; auto.
    pose proof (every_room_get _ H G) as Hr. unfold occupied in *.
    now destruct r, value.
  - destruct (get roomId rooms) as [r|] eqn:G; [|now rewrite revealVotes_absent].
    on_room G. apply every_room_set; auto.
    pose proof (every_room_get _ H G) as Hr. unfold occupied in *. now destruct r.
  - destruct (get roomId rooms) as [r|] eqn:G; [|now rewrite resetVotes_absent].
    rewrite (@resetVotes_own roomId rooms r G). apply every_room_set; auto.
    pose proof (every_room_get _ H G) as Hr. unfold occupied in *. now destruct r.
  - destruct (get roomId rooms) as [r|] eqn:G;
      [|unfold removeParticipant; now rewrite leaveRoom_absent].
    on_room G.
    destruct (keys (delete participantId (RoomState.participants r)))
      as [|first rest] eqn:K; cbn [committed].
    + now apply every_room_delete.
    + apply every_room_set; auto. unfold occupied. simpl.
      intros E. rewrite E in K. discriminate.
  - destruct (get roomId rooms) as [r|] eqn:G; [|now rewrite transferHost_absent].
    on_room G.
    destruct (in_ newHostId (RoomState.participants r)); cbn [negb committed]; auto.
    apply every_room_set; auto.
    pose proof (every_room_get _ H G) as Hr. unfold occupied in *. now destruct r.
Qed.

Lemma reachable_occupied rooms : reachable rooms -> every_room occupied rooms.
Proof.
  induction 1 as [|c rooms _ IH].
  - intros id r [].
  - now apply perform_occupied.
Qed.

(** ** Calls with ordinary participant ids keep the rooms sound *)

Lemma In_assign (V : Type) k (v : V) e (o : JsObject.t V) :
  In e (assign k v o) -> e = (k, v) \/ In e o.
Proof.
  unfold assign. destruct (has k o); [apply In_replace|].
  destruct (JsString.eqb k proto); [auto | apply In_create].
Qed.

Lemma every_room_assign (P : RoomState.t -> Prop) id r rooms :
  every_room P rooms -> P r -> every_room P (assign id r rooms).
Proof.
  intros H Hr id' r' Hin. apply In_assign in Hin as [E|Hin].
  - now inversion E.
  - eapply H; eauto.
Qed.

Lemma createRoom_sound draw now_id now_created options rooms :
  every_room room_sound rooms ->
  every_room room_sound (snd (createRoom draw now_id now_created options rooms)).
Proof.
  intros H. unfold createRoom, updateRooms. simpl.
  apply every_room_assign; auto.
  unfold room_sound, has. simpl. rewrite eqb_refl.
  repeat split; [discriminate|]. intros k.
  destruct (JsString.eqb k _); reflexivity.
Qed.

Lemma joinRoom_sound roomId profile rooms :
  ordinary (ParticipantProfile.id profile) = true ->
  every_room room_sound rooms ->
  every_room room_sound (snd (joinRoom roomId profile rooms)).
Proof.
  intros Hid H.
  destruct (get roomId rooms) as [r|] eqn:G; [|now rewrite joinRoom_absent].
  rewrite (@joinRoom_own roomId profile rooms r G). cbn [snd].
  rewrite in_ordinary, !assign_ordinary by assumption.
  apply every_room_set; auto.
  destruct (every_room_get _ H G) as (Hne & Hhost & Hkeys).
  destruct r; simpl in *. repeat split; simpl.
  - apply set_not_nil.
  - rewrite has_set, Hhost. apply orb_true_r.
  - intros k. rewrite has_set.
    destruct (has (ParticipantProfile.id profile) votes) eqn:Hv; simpl.
    + rewrite Hkeys.
      case_key (ParticipantProfile.id profile) k; simpl; auto.
      now rewrite <- Hkeys.
    + rewrite has_set, Hkeys. reflexivity.
Qed.

Lemma leaveRoom_sound roomId participantId rooms :
  every_room room_sound rooms ->
  every_room room_sound (leaveRoom roomId participantId rooms).
Proof.
  intros H.
  destruct (get roomId rooms) as [r|] eqn:G; [|now rewrite leaveRoom_absent].
  on_room G.
  destruct (every_room_get _ H G) as (Hne & Hhost & Hkeys).
  destruct (keys (delete participantId (RoomState.participants r)))
    as [|first rest] eqn:K; cbn [committed].
  - now apply every_room_delete.
  - apply every_room_set; auto.
    destruct r; simpl in *. repeat split; simpl.
    + intros E. rewrite E in K. discriminate.
    + case_key hostId participantId.
      * apply has_keys. rewrite K. now left.
      * rewrite has_delete, Hhost.
        assert (E' : JsString.eqb participantId hostId = false)
          by (apply eqb_neq; congruence).
        now rewrite E'.
    + intros k. now rewrite !has_delete, Hkeys.
Qed.

Lemma updateParticipantProfile_sound roomId participantId updates rooms :
  ordinary participantId = true ->
  every_room room_sound rooms ->
  every_room room_sound (updateParticipantProfile roomId participantId updates rooms).
Proof.
  intros Hid H.
  destruct (get roomId rooms) as [r|] eqn:G;
    [|now rewrite updateParticipantProfile_absent].
  on_room G. rewrite lookup_ordinary by assumption.
  destruct (get participantId (RoomState.participants r)) as [p|] eqn:Gp;
    cbn [committed]; auto.
  rewrite assign_ordinary by assumption.
  apply every_room_set; auto.
  destruct (every_room_get _ H G) as (Hne & Hhost & Hkeys).
  assert (Hp : has participantId (RoomState.participants r) = true)
    by (apply has_get; eauto).
  destruct r; simpl in *. repeat split; simpl.
  - apply set_not_nil.
  - rewrite has_set, Hhost. apply orb_true_r.
  - intros k. rewrite has_set, Hkeys.
    case_key participantId k; simpl; auto.
Qed.

Lemma submitVote_sound roomId participantId value rooms :
  ordinary participantId = true ->
  every_room room_sound rooms ->
  every_room room_sound (submitVote roomId participantId value rooms).
Proof.
  intros Hid H.
  destruct (get roomId rooms) as [r|] eqn:G; [|now rewrite submitVote_absent].
  on_room G. rewrite in_ordinary, assign_ordinary by assumption.
  destruct (has participantId (RoomState.participants r)) eqn:Hp;
    cbn [negb committed]; auto.
  apply every_room_set; auto.
  destruct (every_room_get _ H G) as (Hne & Hhost & Hkeys).
  destruct r; simpl in *.
  assert (forall k, has k (set participantId value votes) = has k participants).
  { intros k. rewrite has_set, Hkeys.
    case_key participantId k; simpl; auto. }
  destruct value; repeat split; simpl; auto.
Qed.

Lemma revealVotes_sound roomId rooms :
  every_room room_sound rooms ->
  every_room room_sound (revealVotes roomId rooms).
Proof.
  intros H.
  destruct (get roomId rooms) as [r|] eqn:G; [|now rewrite revealVotes_absent].
  on_room G. apply every_room_set; auto.
  destruct (every_room_get _ H G) as (Hne & Hhost & Hkeys).
  destruct r; repeat split; simpl in *; auto.
Qed.

Lemma resetVotes_sound roomId rooms :
  every_room room_sound rooms ->
  every_room room_sound (resetVotes roomId rooms).
Proof.
  intros H.
  destruct (get roomId rooms) as [r|] eqn:G; [|now rewrite resetVotes_absent].
  rewrite (@resetVotes_own roomId rooms r G).
  apply every_room_set; auto.
  destruct (every_room_get _ H G) as (Hne & Hhost & Hkeys).
  destruct r; repeat split; simpl in *; auto.
  intros k. rewrite has_reset; auto.
  intros i Hi. now apply has_keys.
Qed.

Lemma transferHost_sound roomId newHostId rooms :
  ordinary newHostId = true ->
  every_room room_sound rooms ->
  every_room room_sound (transferHost roomId newHostId rooms).
Proof.
  intros Hid H.
  destruct (get roomId rooms) as [r|] eqn:G; [|now rewrite transferHost_absent].
  on_room G. rewrite in_ordinary by assumption.
  destruct (has newHostId (RoomState.participants r)) eqn:Hp;
    cbn [negb committed]; auto.
  apply every_room_set; auto.
  destruct (every_room_get _ H G) as (Hne & Hhost & Hkeys).
  destruct r; repeat split; simpl in *; auto.
Qed.

Lemma perform_sound c rooms :
  ordinary_call c = true ->
  every_room room_sound rooms -> every_room room_sound (perform c rooms).
Proof.
  destruct c; simpl; intros Hc.
  - apply createRoom_sound.
  - now apply joinRoom_sound.
  - apply leaveRoom_sound.
  - now apply updateParticipantProfile_sound.
  - now apply submitVote_sound.
  - apply revealVotes_sound.
  - apply resetVotes_sound.
  - apply leaveRoom_sound.
  - now apply transferHost_sound.
Qed.

Lemma run_snoc calls c : run (calls ++ [c]) = perform c (run calls).
Proof. unfold run. now rewrite fold_left_app. Qed.

Lemma run_sound calls :
  Forall (fun c => ordinary_call c = true) calls -> every_room room_sound (run calls).
Proof.
  induction calls as [|c calls IH] using rev_ind; intros H.
  - intros id r [].
  - apply Forall_app in H as [H Hc]. inversion Hc; subst.
    rewrite run_snoc. apply perform_sound; auto.
Qed.

Lemma reachable_iff_run rooms : reachable rooms <-> exists calls, run calls = rooms.
Proof.
  split.
  - induction 1 as [|c rooms _ [calls IH]].
    + now exists [].
    + exists (calls ++ [c]). now rewrite run_snoc, IH.
  - intros [calls E]. subst rooms.
    induction calls as [|c calls IH] using rev_ind.
    + constructor.
    + rewrite run_snoc. now constructor.
Qed.

(** The scenario of the specification: Ana creates a room with the
    Fibonacci deck. *)
Example sample_room_created :
  get sample_id sample_rooms
  = Some (RoomState.mk sample_id (lit "Sprint 12") fibonacci
            (List.map lit ["0"; "1"; "2"; "3"; "5"; "8"; "13"; "21"; "34"; "55";
                           "89"; "?"]%string ++ [coffee])
            (lit "U1") [(lit "U1", ana)] [(lit "U1", None)] false 1700000000001).
Proof. reflexivity. Qed.

(** ** The claims on the mutation API *)

(** C1 at the ids [constructor] and [toString].  [joinRoom] tests the vote
    entry with [in], which also finds the members of [Object.prototype]:
    somebody who joins Ana's room under the id [constructor] becomes a
    participant and gets no vote entry.  [transferHost] tests the new host
    with [in] as well: handing the room to [toString] gives it a host that
    is no participant.  Both tables are reached through the API, and both
    break the invariants of the rooms. *)
Theorem inherited_id_breaks_invariants :
  let joined := run [sample_call; JoinRoom sample_id eva] in
  let handed := run [sample_call; TransferHost sample_id (lit "toString")] in
  reachable joined /\ reachable handed
  /\ (exists r,
        get sample_id joined = Some r
        /\ has (lit "constructor") (RoomState.participants r) = true
        /\ has (lit "constructor") (RoomState.votes r) = false
        /\ ~ votes_cover_participants r)
  /\ (exists r,
        get sample_id handed = Some r
        /\ RoomState.participants r <> []
        /\ RoomState.hostId r = lit "toString"
        /\ has (lit "toString") (RoomState.participants r) = false
        /\ ~ host_is_participant r)
  /\ ~ every_room (fun r => votes_cover_participants r /\ host_is_participant r)
         joined
  /\ ~ every_room (fun r => votes_cover_participants r /\ host_is_participant r)
         handed.
Proof.
  intros joined handed.
  assert (Hjoined : exists r,
             get sample_id joined = Some r
             /\ has (lit "constructor") (RoomState.participants r) = true
             /\ has (lit "constructor") (RoomState.votes r) = false
             /\ ~ votes_cover_participants r).
  { eexists. split; [vm_compute; reflexivity|].
    split; [vm_compute; reflexivity|]. split; [vm_compute; reflexivity|].
    intros Hcover. specialize (Hcover (lit "constructor")).
    vm_compute in Hcover. specialize (Hcover eq_refl). discriminate. }
  assert (Hhanded : exists r,
             get sample_id handed = Some r
             /\ RoomState.participants r <> []
             /\ RoomState.hostId r = lit "toString"
             /\ has (lit "toString") (RoomState.participants r) = false
             /\ ~ host_is_participant r).
  { eexists. split; [vm_compute; reflexivity|].
    split; [vm_compute; discriminate|]. split; [vm_compute; reflexivity|].
    split; [vm_compute; reflexivity|].
    intros Hhost. unfold host_is_participant in Hhost. vm_compute in Hhost.
    assert (E : true = false); [|discriminate].
    symmetry. apply Hhost. discriminate. }
  split; [apply reachable_iff_run; now eexists|].
  split; [apply reachable_iff_run; now eexists|].
  split; [exact Hjoined|]. split; [exact Hhanded|]. split.
  - intros Hall. destruct Hjoined as (r & G & _ & _ & Hnot).
    apply Hnot. exact (proj1 (every_room_get _ Hall G)).
  - intros Hall. destruct Hhanded as (r & G & _ & _ & _ & Hnot).
    apply Hnot. exact (proj2 (every_room_get _ Hall G)).
Qed.

(** C2.  No table reached by calls of the mutation API holds a room without
    participants: when [leaveRoom] or [removeParticipant] takes the last
    participant out of a room, the room is deleted from the table. *)
Theorem no_empty_room :
  (forall rooms, reachable rooms ->
     every_room (fun r => RoomState.participants r <> []) rooms)
  /\ (forall rooms roomId participantId r,
        get roomId rooms = Some r ->
        delete participantId (RoomState.participants r) = [] ->
        get roomId (leaveRoom roomId participantId rooms) = None
        /\ get roomId (removeParticipant roomId participantId rooms) = None
        /\ forall other, other <> roomId ->
             get other (leaveRoom roomId participantId rooms) = get other rooms).
Proof.
  split.
  - intros rooms Hreach. exact (reachable_occupied Hreach).
  - intros rooms roomId participantId r G Hlast.
    on_room G. rewrite Hlast. simpl.
    rewrite get_delete_eq. repeat split.
    intros other Hne. apply get_delete_ne. congruence.
Qed.

Lemma no_empty_room_witness :
  reachable two_rooms
  /\ every_room (fun r => RoomState.participants r <> []) two_rooms
  /\ get sample_id sample_rooms <> None
  /\ get sample_id (leaveRoom sample_id (lit "U1") sample_rooms) = None.
Proof.
  destruct no_empty_room as [Hreach Hlast].
  assert (R : reachable two_rooms)
    by (apply reachable_call, reachable_call, reachable_empty).
  split; [exact R|]. split; [exact (Hreach two_rooms R)|]. split.
  - vm_compute. discriminate.
  - refine (proj1 (Hlast sample_rooms sample_id (lit "U1") _ _ _)).
    + vm_compute. reflexivity.
    + vm_compute. reflexivity.
Defined.

(** C3 at the id [constructor].  [submitVote] tests the participant with
    [in], which also finds the members of [Object.prototype]: a vote under
    the id [constructor], which is no participant of Ana's room, is stored
    in the room. *)
Theorem submitVote_inherited_id :
  let voted := submitVote sample_id (lit "constructor") (Some (lit "5")) sample_rooms in
  (exists r,
     get sample_id sample_rooms = Some r
     /\ has (lit "constructor") (RoomState.participants r) = false
     /\ has (lit "constructor") (RoomState.votes r) = false)
  /\ voted <> sample_rooms
  /\ exists r',
      get sample_id voted = Some r'
      /\ has (lit "constructor") (RoomState.participants r') = false
      /\ get (lit "constructor") (RoomState.votes r') = Some (Some (lit "5")).
Proof.
  intros voted. split; [|split].
  - eexists. repeat split; vm_compute; reflexivity.
  - vm_compute. discriminate.
  - eexists. repeat split; vm_compute; reflexivity.
Qed.

(** C5.  When the host leaves a room in which somebody else remains, the
    room stays in the table without the host, and the new host is a
    remaining participant, not the one who left: the first key of the
    remaining participants, so a function of the participants alone. *)
Theorem leaveRoom_host_reassigned rooms roomId r H other :
  get roomId rooms = Some r ->
  RoomState.hostId r = H ->
  has H (RoomState.participants r) = true ->
  other <> H ->
  has other (RoomState.participants r) = true ->
  exists r',
    get roomId (leaveRoom roomId H rooms) = Some r'
    /\ RoomState.participants r' = delete H (RoomState.participants r)
    /\ has H (RoomState.participants r') = false
    /\ has (RoomState.hostId r') (RoomState.participants r') = true
    /\ has (RoomState.hostId r') (RoomState.participants r) = true
    /\ RoomState.hostId r' <> H
    /\ hd_error (keys (delete H (RoomState.participants r)))
        = Some (RoomState.hostId r').
Proof.
  intros G Hhost HH Hne Hother.
  on_room G.
  assert (Hrem : has other (delete H (RoomState.participants r)) = true).
  { rewrite has_delete, Hother.
    assert (E : JsString.eqb H other = false) by (apply eqb_neq; congruence).
    now rewrite E. }
  destruct (keys (delete H (RoomState.participants r))) as [|first rest] eqn:K.
  { apply has_keys in Hrem. rewrite K in Hrem. destruct Hrem. }
  cbn [committed].
  rewrite get_set_eq. eexists. split; [reflexivity|].
  assert (Hfirst : has first (delete H (RoomState.participants r)) = true).
  { apply has_keys. rewrite K. now left. }
  destruct r; simpl in *. subst hostId. rewrite eqb_refl.
  repeat split; auto.
  - rewrite has_delete, eqb_refl. reflexivity.
  - rewrite has_delete in Hfirst. now apply andb_true_iff in Hfirst as [_ ?].
  - intros E. subst first. rewrite has_delete, eqb_refl in Hfirst. discriminate.
Qed.

Lemma leaveRoom_host_reassigned_witness :
  exists r',
    get sample_id (leaveRoom sample_id (lit "U1") two_rooms) = Some r'
    /\ RoomState.hostId r' = lit "U2".
Proof.
  destruct (@leaveRoom_host_reassigned two_rooms sample_id two_room
              (lit "U1") (lit "U2"))
    as (r' & G & _ & _ & _ & _ & _ & Hfirst).
  - vm_compute. reflexivity.
  - reflexivity.
  - vm_compute. reflexivity.
  - vm_compute. discriminate.
  - vm_compute. reflexivity.
  - exists r'. split; [exact G|].
    vm_compute in Hfirst. now inversion Hfirst.
Defined.

(** C6.  Joining again with the id of a participant of the room succeeds,
    keeps the participant's [joinedAt], takes the name and the colour of the
    new profile, adds no key to the participants and leaves the vote of the
    participant as it is.  The votes change only when they have no entry
    under the id, and then by a [null] entry under it; an ordinary id that
    has no vote entry gets one. *)
Theorem joinRoom_again rooms roomId r profile previous :
  get roomId rooms = Some r ->
  get (ParticipantProfile.id profile) (RoomState.participants r) = Some previous ->
  let P := ParticipantProfile.id profile in
  let result := joinRoom roomId profile rooms in
  exists r',
    fst result = Normal {| success := true; reason := None; room := Some r' |}
    /\ get roomId (snd result) = Some r'
    /\ get P (RoomState.participants r')
        = Some (ParticipantProfile.mk P (ParticipantProfile.name profile)
                  (ParticipantProfile.avatarColor profile)
                  (ParticipantProfile.joinedAt previous))
    /\ keys (RoomState.participants r') = keys (RoomState.participants r)
    /\ (forall k, k <> P ->
          get k (RoomState.participants r') = get k (RoomState.participants r))
    /\ (forall vote, get P (RoomState.votes r) = Some vote ->
          RoomState.votes r' = RoomState.votes r)
    /\ (RoomState.votes r' = RoomState.votes r
        \/ get P (RoomState.votes r) = None
           /\ RoomState.votes r' = set P None (RoomState.votes r))
    /\ (ordinary P = true -> get P (RoomState.votes r) = None ->
          get P (RoomState.votes r') = Some None
          /\ forall k, k <> P ->
               get k (RoomState.votes r') = get k (RoomState.votes r))
    /\ RoomState.hostId r' = RoomState.hostId r
    /\ RoomState.revealed r' = RoomState.revealed r
    /\ RoomState.deckValues r' = RoomState.deckValues r.
Proof.
  intros G Gp P result. subst result.
  rewrite (@joinRoom_own roomId profile rooms r G). cbn [fst snd]. cbn zeta.
  rewrite (lookup_own _ _ Gp). fold P.
  assert (Hp : has P (RoomState.participants r) = true) by (apply has_get; eauto).
  rewrite (assign_own _ _ _ Hp), get_set_eq.
  eexists. split; [reflexivity|]. split; [reflexivity|].
  destruct r; simpl in *. repeat split.
  - apply get_set_eq.
  - now apply keys_set_present.
  - intros k Hk. apply get_set_ne. congruence.
  - intros vote Hv. unfold in_, has. now rewrite Hv.
  - unfold in_, has. destruct (get P votes) eqn:Hv; simpl; auto.
    destruct (inherited P) eqn:Hi; simpl; auto.
    right. split; auto. apply assign_not_proto. intros E. rewrite E in Hi.
    discriminate.
  - rewrite in_ordinary, assign_ordinary by assumption.
    unfold has. rewrite H0. simpl. apply get_set_eq.
  - rewrite in_ordinary, assign_ordinary by assumption.
    unfold has. rewrite H0. simpl. intros k Hk. apply get_set_ne. congruence.
Qed.

Lemma joinRoom_again_witness :
  let later :=
    ParticipantProfile.mk (lit "U2") (lit "Beatriz") (lit "#2ecc71")
      1700000099999 in
  let voted := submitVote sample_id (lit "U2") (Some (lit "8")) two_rooms in
  exists r',
    get sample_id (snd (joinRoom sample_id later voted)) = Some r'
    /\ get (lit "U2") (RoomState.participants r')
        = Some (ParticipantProfile.mk (lit "U2") (lit "Beatriz") (lit "#2ecc71")
                  1700000001000)
    /\ get (lit "U2") (RoomState.votes r') = Some (Some (lit "8")).
Proof.
  intros later voted.
  destruct (@joinRoom_again voted sample_id
              (RoomState.with_votes [(lit "U1", None); (lit "U2", Some (lit "8"))]
                 two_room)
              later bia)
    as (r' & _ & G & Gp & _ & _ & Hvote & _).
  - vm_compute. reflexivity.
  - vm_compute. reflexivity.
  - exists r'. split; [exact G|]. split; [exact Gp|].
    rewrite (Hvote (Some (lit "8"))); vm_compute; reflexivity.
Defined.

(** ** Missing rooms and missing participants *)

Lemma room_rebuilt (r : RoomState.t) :
  RoomState.with_revealed (RoomState.revealed r)
    (RoomState.with_hostId (RoomState.hostId r)
       (RoomState.with_votes (RoomState.votes r)
          (RoomState.with_participants (RoomState.participants r) r))) = r.
Proof. now destruct r. Qed.

Lemma leaveRoom_missing_participant rooms roomId participantId r :
  get roomId rooms = Some r ->
  has participantId (RoomState.participants r) = false ->
  RoomState.participants r <> [] ->
  RoomState.hostId r <> participantId ->
  has participantId (RoomState.votes r) = false ->
  Try.leaveRoom roomId participantId rooms = Normal rooms.
Proof.
  intros G Hp Hne Hhost Hv. on_room G.
  apply has_false_get in Hp. apply has_false_get in Hv.
  rewrite (delete_absent _ _ Hp), (delete_absent _ _ Hv).
  destruct (keys (RoomState.participants r)) as [|first rest] eqn:K.
  { destruct (RoomState.participants r); [congruence | discriminate]. }
  apply eqb_neq in Hhost. rewrite Hhost. simpl. rewrite andb_false_r.
  rewrite room_rebuilt. f_equal. now apply set_same.
Qed.

(** The calls on a room id that finds nothing in the table. *)
Lemma calls_on_undefined roomId rooms :
  lookup roomId rooms = Undefined ->
  (forall profile,
     joinRoom roomId profile rooms
     = (Normal {| success := false; reason := Some not_found; room := None |}, rooms))
  /\ (forall participantId updates value,
        Try.leaveRoom roomId participantId rooms = Normal rooms
        /\ Try.updateParticipantProfile roomId participantId updates rooms
           = Normal rooms
        /\ Try.submitVote roomId participantId value rooms = Normal rooms
        /\ Try.revealVotes roomId rooms = Normal rooms
        /\ Try.resetVotes roomId rooms = Normal rooms
        /\ Try.removeParticipant roomId participantId rooms = Normal rooms
        /\ Try.transferHost roomId participantId rooms = Normal rooms).
Proof.
  intros E. split.
  - intros profile. unfold joinRoom. now rewrite E.
  - intros participantId updates value. unfold_calls. rewrite E. repeat split.
Qed.

(** C4, as the code has it, for ids that are ordinary.  [joinRoom] on a room
    id that is not in the table returns the failure result, without
    throwing, and the table as it was.  Every other call on such a room id
    returns and leaves the table as it was, and so do
    [updateParticipantProfile], [submitVote] and [transferHost] on a
    participant that is not in the room.  [leaveRoom] and
    [removeParticipant] have no test on the participant: for a participant
    that is not in the room they return and leave the table as it was when
    the room has a participant, its host is not the given id and its votes
    have no entry under that id, which holds in every table reached through
    calls that name their participants by ordinary ids. *)
Theorem missing_room_or_participant rooms roomId :
  (ordinary roomId = true -> get roomId rooms = None ->
     (forall profile,
        joinRoom roomId profile rooms
        = (Normal {| success := false; reason := Some not_found; room := None |},
           rooms))
     /\ (forall participantId updates value,
          Try.leaveRoom roomId participantId rooms = Normal rooms
          /\ Try.updateParticipantProfile roomId participantId updates rooms
             = Normal rooms
          /\ Try.submitVote roomId participantId value rooms = Normal rooms
          /\ Try.revealVotes roomId rooms = Normal rooms
          /\ Try.resetVotes roomId rooms = Normal rooms
          /\ Try.removeParticipant roomId participantId rooms = Normal rooms
          /\ Try.transferHost roomId participantId rooms = Normal rooms))
  /\ (forall r participantId,
        get roomId rooms = Some r ->
        has participantId (RoomState.participants r) = false ->
        (ordinary participantId = true ->
         forall updates value,
           Try.updateParticipantProfile roomId participantId updates rooms
           = Normal rooms
           /\ Try.submitVote roomId participantId value rooms = Normal rooms
           /\ Try.transferHost roomId participantId rooms = Normal rooms)
        /\ (RoomState.participants r <> [] ->
            RoomState.hostId r <> participantId ->
            has participantId (RoomState.votes r) = false ->
            Try.leaveRoom roomId participantId rooms = Normal rooms
            /\ Try.removeParticipant roomId participantId rooms = Normal rooms)
        /\ (forall calls,
              Forall (fun c => ordinary_call c = true) calls ->
              rooms = run calls ->
              Try.leaveRoom roomId participantId rooms = Normal rooms
              /\ Try.removeParticipant roomId participantId rooms = Normal rooms)).
Proof.
  split.
  - intros Hid G. apply calls_on_undefined.
    rewrite lookup_ordinary by assumption. now rewrite G.
  - intros r participantId G Hp. split; [|split].
    + intros Hid updates value. on_room G.
      rewrite lookup_ordinary, in_ordinary by assumption.
      rewrite Hp. apply has_false_get in Hp. rewrite Hp. repeat split.
    + intros Hne Hhost Hv. unfold Try.removeParticipant.
      split; eapply leaveRoom_missing_participant; eauto.
    + intros calls Hcalls Erun.
      assert (Hsound : every_room room_sound rooms)
        by (rewrite Erun; now apply run_sound).
      destruct (every_room_get _ Hsound G) as (Hne & Hhost & Hkeys).
      assert (Hnot : RoomState.hostId r <> participantId)
        by (intros E; rewrite E, Hp in Hhost; discriminate).
      assert (Hv : has participantId (RoomState.votes r) = false)
        by now rewrite Hkeys.
      unfold Try.removeParticipant.
      split; eapply leaveRoom_missing_participant; eauto.
Qed.

Lemma missing_room_or_participant_witness :
  joinRoom (lit "ZZZZ-0000") bia sample_rooms
  = (Normal {| success := false; reason := Some not_found; room := None |},
     sample_rooms)
  /\ Try.transferHost sample_id (lit "U2") sample_rooms = Normal sample_rooms
  /\ Try.leaveRoom sample_id (lit "U2") sample_rooms = Normal sample_rooms
  /\ Try.removeParticipant sample_id (lit "U2") sample_rooms = Normal sample_rooms.
Proof.
  destruct (missing_room_or_participant sample_rooms (lit "ZZZZ-0000"))
    as [Habsent _].
  destruct (missing_room_or_participant sample_rooms sample_id)
    as [_ Hpresent].
  assert (Hid : ordinary (lit "ZZZZ-0000") = true) by (vm_compute; reflexivity).
  assert (Hnone : get (lit "ZZZZ-0000") sample_rooms = None)
    by (vm_compute; reflexivity).
  destruct (Habsent Hid Hnone) as [Hjoin _].
  destruct (Hpresent
              (RoomState.mk sample_id (lit "Sprint 12") fibonacci
                 PRESET_DECKS_fibonacci (lit "U1") [(lit "U1", ana)]
                 [(lit "U1", None)] false 1700000000001)
              (lit "U2"))
    as (Hguarded & Hleave & Hrun).
  - vm_compute. reflexivity.
  - vm_compute. reflexivity.
  - split; [exact (Hjoin bia)|]. split; [|split].
    + apply (Hguarded eq_refl {| upd_name := None; upd_avatarColor := None |} None).
    + apply Hleave.
      * vm_compute. discriminate.
      * vm_compute. discriminate.
      * vm_compute. reflexivity.
    + apply (Hrun [sample_call]).
      * repeat constructor.
      * reflexivity.
Defined.

(** C4 as it is written fails on a stored table whose room names a host
    that is not in the room: [leaveRoom] with that id, which is no
    participant, gives the room a new host. *)
Lemma leaveRoom_changes_stray_host :
  get sample_id stray_host_rooms <> None
  /\ (forall r, get sample_id stray_host_rooms = Some r ->
                has (lit "U9") (RoomState.participants r) = false)
  /\ leaveRoom sample_id (lit "U9") stray_host_rooms <> stray_host_rooms.
Proof.
  repeat split.
  - vm_compute. discriminate.
  - intros r G. vm_compute in G. inversion G. subst r. vm_compute. reflexivity.
  - vm_compute. discriminate.
Qed.

(** ** Trimming *)

Lemma trimStart_nil s : trimStart s = [] <-> forallb is_ws s = true.
Proof.
  induction s as [|c s IH]; simpl; [tauto|].
  destruct (is_ws c); simpl; [exact IH|]. split; discriminate.
Qed.

Lemma trimStart_head s c rest : trimStart s = c :: rest -> is_ws c = false.
Proof.
  induction s as [|c' s IH]; simpl; [discriminate|].
  destruct (is_ws c') eqn:E; auto. intros H. inversion H; subst. exact E.
Qed.

Lemma forallb_rev_ws s : forallb is_ws (rev s) = forallb is_ws s.
Proof.
  induction s as [|c s IH]; simpl; auto.
  rewrite forallb_app, IH. simpl. rewrite andb_true_r. apply andb_comm.
Qed.

Lemma trim_nil s : trim s = [] <-> forallb is_ws s = true.
Proof.
  unfold trim, trimEnd. split.
  - intros H. apply (f_equal (@rev N)) in H. rewrite rev_involutive in H.
    simpl in H. apply trimStart_nil in H. rewrite forallb_rev_ws in H.
    apply trimStart_nil.
    destruct (trimStart s) as [|c rest] eqn:E; auto.
    apply trimStart_head in E. simpl in H. rewrite E in H. discriminate.
  - intros H. apply trimStart_nil in H. now rewrite H.
Qed.

Lemma filter_trim_blank (entries : list jsstring) :
  Forall (fun entry => trim entry = []) entries ->
  filter nonempty (List.map trim entries) = [].
Proof.
  induction 1 as [|e l He _ IH]; simpl; auto. now rewrite He.
Qed.

Lemma resolveDeck_not_nil deckType customDeck : resolveDeck deckType customDeck <> [].
Proof.
  destruct deckType; simpl; try discriminate.
  destruct (filter nonempty _); discriminate.
Qed.

Lemma created_room_eq draw now_id now_created options rooms :
  created_room draw now_id now_created options rooms
  = Some (RoomState.mk (generateRoomId draw now_id)
            (match trim (opt_name options) with
             | [] => lit "Sala sem nome"
             | _ :: _ => trim (opt_name options)
             end)
            (opt_deckType options)
            (resolveDeck (opt_deckType options) (opt_customDeck options))
            (ParticipantProfile.id (opt_host options))
            [(ParticipantProfile.id (opt_host options), opt_host options)]
            [(ParticipantProfile.id (opt_host options), None)]
            false now_created).
Proof.
  unfold created_room, createRoom, updateRooms. simpl.
  rewrite assign_generated, get_set_eq.
  now destruct (opt_host options).
Qed.

(** ** Creating a room *)

(** C7.  A custom deck typed as [ 1, 2,,  3 \n5] gives the room the deck
    [1], [2], [3], [5]; a custom deck whose entries are all empty once
    trimmed, the empty text among them, gives the deck of the single card
    [?], whether it comes from the form or is handed to [createRoom] as a
    list (or not at all). *)
Theorem custom_deck_resolution draw now_id now_created name host rooms :
  option_map RoomState.deckValues
    (created_room draw now_id now_created (custom_options name host typed_deck) rooms)
  = Some (List.map lit ["1"; "2"; "3"; "5"]%string)
  /\ (forall input,
        Forall (fun entry => trim entry = []) (split input) ->
        option_map RoomState.deckValues
          (created_room draw now_id now_created (custom_options name host input) rooms)
        = Some [lit "?"])
  /\ (forall customDeck,
        (forall given, customDeck = Some given ->
                       Forall (fun entry => trim entry = []) given) ->
        option_map RoomState.deckValues
          (created_room draw now_id now_created
             {| opt_name := name; opt_deckType := custom;
                opt_customDeck := customDeck; opt_host := host |} rooms)
        = Some [lit "?"]).
Proof.
  split; [|split].
  - rewrite created_room_eq. reflexivity.
  - intros input Hblank. rewrite created_room_eq. simpl.
    unfold parseCustomDeck. now rewrite (filter_trim_blank Hblank).
  - intros customDeck Hblank. rewrite created_room_eq. simpl.
    destruct customDeck as [given|]; auto.
    now rewrite (filter_trim_blank (Hblank given eq_refl)).
Qed.

Lemma custom_deck_resolution_witness :
  Forall (fun entry => trim entry = []) (split [])
  /\ option_map RoomState.deckValues
       (created_room sample_draw 1700000000000 1700000000001
          (custom_options (lit "Sprint 12") ana []) [])
     = Some [lit "?"].
Proof.
  assert (Hblank : Forall (fun entry => trim entry = []) (split []))
    by (repeat constructor).
  split; [exact Hblank|].
  exact (proj1 (proj2 (custom_deck_resolution sample_draw 1700000000000
                         1700000000001 (lit "Sprint 12") ana [])) [] Hblank).
Defined.

(** C10.  The name of a created room is [Sala sem nome] when the given name
    is empty or made of white space only, and the given name without its
    leading and trailing white space otherwise. *)
Theorem created_room_name draw now_id now_created options rooms :
  (forallb is_ws (opt_name options) = true ->
     option_map RoomState.name
       (created_room draw now_id now_created options rooms)
     = Some (lit "Sala sem nome"))
  /\ (forallb is_ws (opt_name options) = false ->
      option_map RoomState.name
        (created_room draw now_id now_created options rooms)
      = Some (trim (opt_name options))).
Proof.
  rewrite created_room_eq. simpl. split; intros H.
  - apply trim_nil in H. now rewrite H.
  - destruct (trim (opt_name options)) eqn:E; auto.
    apply trim_nil in E. congruence.
Qed.

Lemma created_room_name_witness :
  option_map RoomState.name
    (created_room sample_draw 1700000000000 1700000000001
       {| opt_name := lit "   "; opt_deckType := numeric;
          opt_customDeck := None; opt_host := ana |} [])
  = Some (lit "Sala sem nome")
  /\ option_map RoomState.name
       (created_room sample_draw 1700000000000 1700000000001 sample_options [])
     = Some (lit "Sprint 12").
Proof.
  split.
  - apply created_room_name. reflexivity.
  - apply (proj2 (created_room_name sample_draw 1700000000000 1700000000001
                    sample_options [])).
    reflexivity.
Defined.

(** ** Room ids *)

Lemma digit36_upper d :
  (d < 36)%N -> is_upper_alnum (upper (digit36 d)) = true.
Proof.
  intros H. rewrite <- (N2Nat.id d).
  assert (Hn : N.to_nat d < 36) by lia. revert Hn.
  generalize (N.to_nat d). intros n Hn.
  do 36 (destruct n as [|n]; [reflexivity|]). lia.
Qed.

Lemma digit_value_digit36 d : (d < 36)%N -> digit_value (digit36 d) = d.
Proof.
  intros H. unfold digit_value, digit36.
  destruct (d <? 10)%N eqn:E.
  - apply N.ltb_lt in E.
    assert (E' : (48 + d <? 58)%N = true) by (apply N.ltb_lt; lia).
    rewrite E'. lia.
  - apply N.ltb_ge in E.
    assert (E' : (87 + d <? 58)%N = false) by (apply N.ltb_ge; lia).
    rewrite E'. lia.
Qed.

Lemma digits_value_app radix s c :
  digits_value radix (s ++ [c])
  = (radix * digits_value radix s + digit_value c)%N.
Proof. unfold digits_value. now rewrite fold_left_app. Qed.

(** The fuel of [Z_toString] is enough: the digits denote the number. *)
Lemma digits_denote radix fuel n acc :
  (2 <= radix <= 36)%N -> (n < 2 ^ N.of_nat fuel)%N ->
  exists ds, digits radix fuel n acc = ds ++ acc /\ digits_value radix ds = n.
Proof.
  intros Hr. revert n acc. induction fuel as [|fuel IH]; intros n acc Hn.
  - exists []. simpl in *. split; auto. unfold digits_value. simpl. lia.
  - cbn [digits].
    assert (Hmod : (n mod radix < radix)%N) by (apply N.mod_lt; lia).
    destruct (n / radix =? 0)%N eqn:E.
    + apply N.eqb_eq in E. exists [digit36 (n mod radix)]. split; auto.
      unfold digits_value. simpl. rewrite digit_value_digit36 by lia.
      pose proof (N.div_mod n radix). lia.
    + destruct (IH (n / radix)%N (digit36 (n mod radix) :: acc))
        as (ds & Hds & Hval).
      { apply N.Div0.div_lt_upper_bound.
        rewrite Nat2N.inj_succ, N.pow_succ_r' in Hn. nia. }
      exists (ds ++ [digit36 (n mod radix)]). split.
      * rewrite Hds, <- app_assoc. reflexivity.
      * rewrite digits_value_app, Hval, digit_value_digit36 by lia.
        pose proof (N.div_mod n radix). lia.
Qed.

Lemma Z_toString_denotes radix n :
  (2 <= radix <= 36)%N -> (0 <= n)%Z ->
  digits_value radix (Z_toString radix n) = Z.to_N n.
Proof.
  intros Hr Hn. unfold Z_toString.
  assert (E : (n <? 0)%Z = false) by (apply Z.ltb_ge; lia). rewrite E.
  destruct (@digits_denote radix (S (N.to_nat (N.log2 (Z.abs_N n))))
              (Z.abs_N n) [] Hr) as (ds & Hds & Hval).
  - rewrite Nat2N.inj_succ, N2Nat.id.
    destruct (N.eq_dec (Z.abs_N n) 0) as [Z0|NZ].
    + rewrite Z0. reflexivity.
    + apply N.log2_spec. lia.
  - rewrite Hds, app_nil_r, Hval. lia.
Qed.

Lemma digits_upper radix fuel n acc :
  (0 < radix <= 36)%N ->
  Forall (fun c => is_upper_alnum (upper c) = true) acc ->
  Forall (fun c => is_upper_alnum (upper c) = true) (digits radix fuel n acc).
Proof.
  intros Hr. revert n acc. induction fuel as [|fuel IH]; intros n acc Hacc; auto.
  cbn [digits].
  assert (Hd : is_upper_alnum (upper (digit36 (n mod radix))) = true).
  { apply digit36_upper. pose proof (N.mod_lt n radix). lia. }
  destruct (n / radix =? 0)%N; [|apply IH]; now constructor.
Qed.

Lemma digits_length_ge radix fuel n acc :
  length acc <= length (digits radix fuel n acc).
Proof.
  revert n acc. induction fuel as [|fuel IH]; intros n acc; simpl; auto.
  destruct (n / radix =? 0)%N; simpl; [lia|].
  specialize (IH (n / radix)%N (digit36 (n mod radix) :: acc)). simpl in IH. lia.
Qed.

Lemma digits_length radix k fuel n acc :
  (0 < radix)%N -> (radix ^ N.of_nat k <= n)%N -> k < fuel ->
  k + 1 + length acc <= length (digits radix fuel n acc).
Proof.
  intros Hr. revert fuel n acc.
  induction k as [|k IH]; intros fuel n acc Hn Hfuel;
    (destruct fuel as [|fuel]; [lia|]); cbn [digits].
  - destruct (n / radix =? 0)%N; simpl; [lia|].
    pose proof (digits_length_ge radix fuel (n / radix)
                  (digit36 (n mod radix) :: acc)) as H.
    simpl in H. lia.
  - rewrite Nat2N.inj_succ, N.pow_succ_r' in Hn.
    assert (Hq : (radix ^ N.of_nat k <= n / radix)%N).
    { apply N.div_le_lower_bound; lia. }
    assert (Hpos : (0 < radix ^ N.of_nat k)%N).
    { apply N.neq_0_lt_0, N.pow_nonzero. lia. }
    destruct (n / radix =? 0)%N eqn:E; [apply N.eqb_eq in E; lia|].
    specialize (IH fuel (n / radix)%N (digit36 (n mod radix) :: acc) Hq).
    simpl in IH. lia.
Qed.

(** For a draw that renders with four digits or more and a clock of at least
    [36^3] milliseconds the id has the format [XXXX-YYYY]. *)
Lemma generateRoomId_format draw now :
  Forall (fun d => (d < 36)%N) draw -> 4 <= length draw -> (46656 <= now)%Z ->
  room_id_format (generateRoomId draw now) = true.
Proof.
  intros Hdraw Hlen Hnow. unfold generateRoomId.
  destruct draw as [|d1 [|d2 [|d3 [|d4 rest]]]]; simpl in Hlen; try lia.
  inversion Hdraw as [|? ? H1 Hd]; subst. inversion Hd as [|? ? H2 Hd']; subst.
  inversion Hd' as [|? ? H3 Hd'']; subst. inversion Hd'' as [|? ? H4 _]; subst.
  change (slice 2 6 (random_toString36 (d1 :: d2 :: d3 :: d4 :: rest)))
    with [digit36 d1; digit36 d2; digit36 d3; digit36 d4].
  set (clock := Z_toString 36 now).
  assert (Hup : Forall (fun c => is_upper_alnum (upper c) = true) clock).
  { unfold clock, Z_toString.
    assert (E : (now <? 0)%Z = false) by (apply Z.ltb_ge; lia). rewrite E.
    apply digits_upper; [lia | constructor]. }
  assert (Hfour : 4 <= length clock).
  { unfold clock, Z_toString.
    assert (E : (now <? 0)%Z = false) by (apply Z.ltb_ge; lia). rewrite E.
    pose proof (@digits_length 36 3 (S (N.to_nat (N.log2 (Z.abs_N now))))
                  (Z.abs_N now) []) as H.
    simpl length in H. apply H; [lia | simpl; lia |].
    assert (N.log2 46656 <= N.log2 (Z.abs_N now))%N
      by (apply N.log2_le_mono; lia).
    change (N.log2 46656) with 15%N in *. lia. }
  unfold slice_last.
  assert (Hlast : length (skipn (length clock - 4) clock) = 4)
    by (rewrite length_skipn; lia).
  assert (Hall : Forall (fun c => is_upper_alnum (upper c) = true)
                   (skipn (length clock - 4) clock)).
  { apply Forall_forall. intros c Hc.
    rewrite <- (firstn_skipn (length clock - 4) clock) in Hup.
    apply Forall_app in Hup as [_ Hup].
    eapply Forall_forall in Hup; eauto. }
  destruct (skipn (length clock - 4) clock) as [|y1 [|y2 [|y3 [|y4 [|]]]]];
    simpl in Hlast; try lia.
  inversion Hall as [|? ? G1 Ha]; subst. inversion Ha as [|? ? G2 Ha']; subst.
  inversion Ha' as [|? ? G3 Ha'']; subst. inversion Ha'' as [|? ? G4 _]; subst.
  cbn [toUpperCase List.map app lit list_ascii_of_string].
  unfold room_id_format. cbn [forallb].
  rewrite !digit36_upper, G1, G2, G3, G4 by assumption. reflexivity.
Qed.

(** C9 at one half.  The draw one half, rendered [0.i], gives a first group of
    one character: the id is [I-3V28] at the clock 1700000000000, not of
    the format [XXXX-YYYY]. *)
Theorem room_id_short_group now_created options rooms :
  fst (createRoom [18%N] 1700000000000 now_created options rooms) = lit "I-3V28"
  /\ room_id_format
       (fst (createRoom [18%N] 1700000000000 now_created options rooms)) = false.
Proof. split; reflexivity. Qed.

(** ** Decks *)

Lemma filter_nonempty_all (entries : list jsstring) :
  Forall (fun v => v <> []) (filter nonempty entries).
Proof.
  apply Forall_forall. intros v Hv. apply filter_In in Hv as [_ Hv].
  intros E. subst v. discriminate.
Qed.

Lemma resolveDeck_entries deckType customDeck :
  Forall (fun v => v <> []) (resolveDeck deckType customDeck).
Proof.
  destruct deckType; simpl.
  - repeat constructor; discriminate.
  - repeat constructor; discriminate.
  - destruct (filter nonempty _) eqn:E.
    + repeat constructor; discriminate.
    + rewrite <- E. apply filter_nonempty_all.
Qed.

Lemma distinct_NoDup (l : list jsstring) : distinct l = true -> NoDup l.
Proof.
  induction l as [|x rest IH]; simpl; intros H; constructor.
  - apply andb_true_iff in H as [H _]. intros Hin.
    apply negb_true_iff in H.
    assert (existsb (JsString.eqb x) rest = true)
      by (apply existsb_exists; exists x; split; [auto | apply eqb_refl]).
    congruence.
  - apply IH. now apply andb_true_iff in H as [_ H].
Qed.

Lemma all_of_Some (A : Type) (l : list (option A)) xs :
  all_of l = Some xs -> l = List.map Some xs.
Proof.
  revert xs. induction l as [|[x|] l IH]; simpl; intros xs H.
  - now inversion H.
  - destruct (all_of l) as [ys|]; [|discriminate]. inversion H. simpl.
    now rewrite (IH ys).
  - discriminate.
Qed.

Lemma map_Some_inj (A : Type) (l l' : list A) :
  List.map Some l = List.map Some l' -> l = l'.
Proof.
  revert l'. induction l as [|x l IH]; intros [|y l'] H; try discriminate; auto.
  inversion H. f_equal. now apply IH.
Qed.

Lemma all_of_map_Some (A : Type) (xs : list A) : all_of (List.map Some xs) = Some xs.
Proof. induction xs as [|x xs IH]; simpl; auto. now rewrite IH. Qed.

(** A room of the loaded table is a stored room whose sanitizing went
    through. *)
Lemma loadRooms_In (number : Type) (toString : number -> jsstring)
    (toBoolean : number -> bool) isBrowser parsed id r :
  In (id, r) (loadRooms toString toBoolean isBrowser parsed) ->
  exists table stored,
    parsed = Some table /\ In (id, stored) table
    /\ sanitize toString toBoolean stored = Some r.
Proof.
  unfold loadRooms. destruct isBrowser; simpl; [|tauto].
  destruct parsed as [table|]; [|intros []].
  destruct (all_of _) as [rooms|] eqn:A; [|intros []].
  intros Hin. apply all_of_Some in A.
  assert (Hsome : In (Some (id, r)) (List.map Some rooms))
    by (apply in_map_iff; eauto).
  rewrite <- A in Hsome. apply in_map_iff in Hsome as [[id' stored] [E Hs]].
  simpl in E. destruct (sanitize toString toBoolean stored) as [r'|] eqn:S;
    [|discriminate].
  inversion E; subst. exists table, stored. auto.
Qed.

(** C8, as the code has it.  The deck of a created room is never empty and
    holds no empty string; for the deck types [fibonacci] and [numeric] it
    is the catalog of the type, thirteen distinct cards; for a custom deck
    it is the given entries trimmed, the blank ones dropped, in the given
    order, or the single card [?] when none is left.  The deck of a room
    loaded at start-up is the stored array with each element converted by
    [String], and the empty sequence when the stored field is not an
    array. *)
Theorem deckValues_shape :
  (forall draw now_id now_created options rooms,
     exists r,
       created_room draw now_id now_created options rooms = Some r
       /\ RoomState.deckValues r <> []
       /\ Forall (fun v => v <> []) (RoomState.deckValues r)
       /\ (opt_deckType options = fibonacci ->
           RoomState.deckValues r = PRESET_DECKS_fibonacci)
       /\ (opt_deckType options = numeric ->
           RoomState.deckValues r = PRESET_DECKS_numeric)
       /\ (opt_deckType options = custom ->
           forall given, opt_customDeck options = Some given ->
           filter nonempty (List.map trim given) <> [] ->
           RoomState.deckValues r = filter nonempty (List.map trim given))
       /\ (opt_deckType options = custom ->
           (forall given, opt_customDeck options = Some given ->
                          filter nonempty (List.map trim given) = []) ->
           RoomState.deckValues r = [lit "?"]))
  /\ (NoDup PRESET_DECKS_fibonacci /\ length PRESET_DECKS_fibonacci = 13)
  /\ (NoDup PRESET_DECKS_numeric /\ length PRESET_DECKS_numeric = 13)
  /\ (forall (number : Type) (toString : number -> jsstring)
             (toBoolean : number -> bool) isBrowser parsed id r,
        In (id, r) (loadRooms toString toBoolean isBrowser parsed) ->
        exists table stored,
          parsed = Some table /\ In (id, stored) table
          /\ match st_deckValues stored with
             | JArr items =>
                 List.map (String_ toString) items
                 = List.map Some (RoomState.deckValues r)
             | _ => RoomState.deckValues r = []
             end).
Proof.
  split; [|split; [|split]].
  - intros draw now_id now_created options rooms. rewrite created_room_eq.
    eexists. split; [reflexivity|]. simpl.
    split; [apply resolveDeck_not_nil|]. split; [apply resolveDeck_entries|].
    repeat split.
    + intros E. now rewrite E.
    + intros E. now rewrite E.
    + intros E given Eg Hkept. rewrite E, Eg. simpl.
      destruct (filter nonempty (List.map trim given)); congruence.
    + intros E Hnone. rewrite E. simpl.
      destruct (opt_customDeck options) as [given|]; auto.
      now rewrite (Hnone given eq_refl).
  - split; [apply distinct_NoDup|]; reflexivity.
  - split; [apply distinct_NoDup|]; reflexivity.
  - intros number toString toBoolean isBrowser parsed id r Hin.
    destruct (loadRooms_In _ _ _ _ _ _ Hin) as (table & stored & Ep & Hs & Hr).
    exists table, stored. split; [exact Ep|]. split; [exact Hs|].
    unfold sanitize in Hr.
    destruct (st_deckValues stored) as [| | | | |items|]; simpl in Hr;
      try (inversion Hr; reflexivity).
    destruct (all_of (List.map (String_ toString) items)) as [deck|] eqn:A;
      [|discriminate].
    inversion Hr. simpl. now apply all_of_Some.
Qed.

Lemma deckValues_shape_witness :
  (exists r,
     created_room sample_draw 1700000000000 1700000000001
       (custom_options (lit "Sprint 12") ana (lit "XS, S ,M")) [] = Some r
     /\ RoomState.deckValues r = List.map lit ["XS"; "S"; "M"]%string)
  /\ (exists r,
       In (lit "AAAA-0002", r) loaded_rooms
       /\ RoomState.deckValues r = List.map lit ["13"; "XL"]%string).
Proof.
  destruct deckValues_shape as (Hcreated & _ & _ & Hloaded).
  split.
  - destruct (Hcreated sample_draw 1700000000000%Z 1700000000001%Z
                (custom_options (lit "Sprint 12") ana (lit "XS, S ,M")) [])
      as (r & G & _ & _ & _ & _ & Hcustom & _).
    exists r. split; [exact G|].
    apply (Hcustom eq_refl (List.map lit ["XS"; "S"; "M"]%string)).
    + reflexivity.
    + vm_compute. discriminate.
  - set (r := RoomState.mk sample_id (lit "Sprint 12") custom
                [lit "13"; lit "XL"] (lit "U1") [(lit "U1", ana)]
                [(lit "U1", None)] false 1700000000001).
    assert (Hin : In (lit "AAAA-0002", r) loaded_rooms)
      by (right; left; reflexivity).
    exists r. split; [exact Hin|].
    destruct (Hloaded Z Number_toString Number_toBoolean true (Some stored_table)
                (lit "AAAA-0002") r Hin)
      as (table & stored & Ep & Hstored & Hdeck).
    inversion Ep; subst table.
    destruct Hstored as [E|[E|[]]]; inversion E; subst stored.
    apply map_Some_inj. etransitivity; [symmetry; exact Hdeck | reflexivity].
Defined.

(** C8 as it is written fails twice: a custom deck keeps the repeats of
    the text that was typed, and the deck of a loaded room is empty when the
    stored field is not an array. *)
Lemma deckValues_repeated_or_empty :
  (exists r,
     created_room sample_draw 1700000000000 1700000000001
       (custom_options (lit "Sprint 12") ana (lit "1, 1")) [] = Some r
     /\ RoomState.deckValues r = [lit "1"; lit "1"]
     /\ ~ NoDup (RoomState.deckValues r))
  /\ (exists r,
       In (lit "AAAA-0001", r) loaded_rooms /\ RoomState.deckValues r = []).
Proof.
  split.
  - eexists. split; [apply created_room_eq|]. split; [reflexivity|].
    intros H. inversion H as [|x l Hx _]; subst. apply Hx. now left.
  - eexists. split; [left; reflexivity | reflexivity].
Qed.

(** * Further properties of the store *)

(** ** More on dictionaries *)

Section ObjMore.
Variable V : Type.
Implicit Types (o : JsObject.t V) (k : jsstring) (v : V).

Lemma replace_replace k v v' o : replace k v (replace k v' o) = replace k v o.
Proof.
  induction o as [|[k' w] o IH]; simpl; auto.
  destruct (JsString.eqb k k') eqn:E; simpl.
  - now rewrite eqb_refl.
  - now rewrite E, IH.
Qed.

Lemma replace_insert_index i k v v' o :
  get k o = None -> replace k v (insert_index i k v' o) = insert_index i k v o.
Proof.
  induction o as [|[k' w] o IH]; simpl.
  - now rewrite eqb_refl.
  - destruct (JsString.eqb k k') eqn:E; [discriminate|]. intros H.
    destruct (array_index k') as [j|]; [destruct (j <? i)%N|]; simpl;
      rewrite ?E, ?eqb_refl, ?IH; auto.
Qed.

Lemma replace_absent k v o : get k o = None -> replace k v o = o.
Proof.
  induction o as [|[k' w] o IH]; simpl; auto.
  destruct (JsString.eqb k k'); [discriminate|]. intros H. now rewrite IH.
Qed.

Lemma replace_app k v o1 o2 :
  get k o1 = None -> replace k v (o1 ++ o2) = o1 ++ replace k v o2.
Proof.
  induction o1 as [|[k' w] o1 IH]; simpl; auto.
  destruct (JsString.eqb k k'); [discriminate|]. intros H. now rewrite IH.
Qed.

Lemma replace_create k v v' o :
  get k o = None -> replace k v (create k v' o) = create k v o.
Proof.
  intros H. unfold create. destruct (array_index k).
  - now apply replace_insert_index.
  - rewrite replace_app by assumption. simpl. now rewrite eqb_refl.
Qed.

(** Writing a key twice is writing the last value. *)
Lemma set_set k v v' o : set k v (set k v' o) = set k v o.
Proof.
  unfold set at 1. rewrite has_set, eqb_refl. simpl.
  unfold set. destruct (has k o) eqn:E.
  - apply replace_replace.
  - apply replace_create. now apply has_false_get.
Qed.

Lemma delete_app k o1 o2 : delete k (o1 ++ o2) = delete k o1 ++ delete k o2.
Proof.
  induction o1 as [|[k' w] o1 IH]; simpl; auto.
  destruct (JsString.eqb k k'); simpl; now rewrite IH.
Qed.

Lemma delete_insert_index i k v o :
  get k o = None -> delete k (insert_index i k v o) = o.
Proof.
  induction o as [|[k' w] o IH]; simpl.
  - now rewrite eqb_refl.
  - destruct (JsString.eqb k k') eqn:E; [discriminate|]. intros H.
    destruct (array_index k') as [j|]; [destruct (j <? i)%N|]; simpl;
      rewrite ?E, ?eqb_refl, ?IH, ?delete_absent; auto.
Qed.

(** A key that is created and then deleted leaves the object as it was. *)
Lemma delete_create k v o : get k o = None -> delete k (create k v o) = o.
Proof.
  intros H. unfold create. destruct (array_index k).
  - now apply delete_insert_index.
  - rewrite delete_app, (delete_absent _ _ H). simpl.
    rewrite eqb_refl. apply app_nil_r.
Qed.

Lemma delete_set_absent k v o : get k o = None -> delete k (set k v o) = o.
Proof.
  intros H. unfold set, has. rewrite H. now apply delete_create.
Qed.

Lemma keys_not_nil o : o <> [] -> keys o <> [].
Proof. destruct o; [congruence | discriminate]. Qed.

End ObjMore.

(** ** The calls one by one *)

Lemma keys_delete (V : Type) k (o : JsObject.t V) :
  keys (delete k o) = filter (fun k' => negb (JsString.eqb k k')) (keys o).
Proof.
  unfold keys. induction o as [|[k' v] o IH]; simpl; auto.
  destruct (JsString.eqb k k'); simpl; now rewrite IH.
Qed.

Lemma keys_create_last (V : Type) k (v : V) (o : JsObject.t V) :
  array_index k = None -> keys (create k v o) = keys o ++ [k].
Proof.
  intros H. unfold create, keys. rewrite H. now rewrite map_app.
Qed.

Lemma length_replace (V : Type) k (v : V) (o : JsObject.t V) :
  length (replace k v o) = length o.
Proof.
  induction o as [|[k' w] o IH]; simpl; auto.
  destruct (JsString.eqb k k'); simpl; auto.
Qed.

Lemma length_create (V : Type) k (v : V) (o : JsObject.t V) :
  length (create k v o) = S (length o).
Proof.
  unfold create. destruct (array_index k) as [i|].
  - induction o as [|[k' w] o IH]; simpl; auto.
    destruct (array_index k') as [j|]; [destruct (j <? i)%N|]; simpl; auto.
  - rewrite length_app. simpl. lia.
Qed.

Lemma reset_get (votes : JsObject.t (option jsstring)) ids k :
  (forall i, In i ids -> has i votes = true) ->
  get k (fold_left (fun vs i => set i None vs) ids votes)
  = if existsb (JsString.eqb k) ids then Some None else get k votes.
Proof.
  revert votes. induction ids as [|i ids IH]; simpl; intros votes H; auto.
  rewrite IH.
  - destruct (existsb (JsString.eqb k) ids); [now rewrite orb_true_r|].
    rewrite orb_false_r. case_key k i.
    + apply get_set_eq.
    + apply get_set_ne. congruence.
  - intros j Hj. rewrite has_set. rewrite (H j) by auto. apply orb_true_r.
Qed.

Lemma reset_keys (votes : JsObject.t (option jsstring)) ids :
  (forall i, In i ids -> has i votes = true) ->
  keys (fold_left (fun vs i => set i None vs) ids votes) = keys votes.
Proof.
  revert votes. induction ids as [|i ids IH]; simpl; intros votes H; auto.
  rewrite IH.
  - apply keys_set_present. auto.
  - intros j Hj. rewrite has_set. rewrite (H j) by auto. apply orb_true_r.
Qed.

Lemma reset_fixed (votes : JsObject.t (option jsstring)) ids :
  (forall i, In i ids -> get i votes = Some None) ->
  fold_left (fun vs i => set i None vs) ids votes = votes.
Proof.
  induction ids as [|i ids IH]; simpl; intros H; auto.
  rewrite set_same by auto. auto.
Qed.

Lemma existsb_keys (V : Type) k (o : JsObject.t V) :
  existsb (JsString.eqb k) (keys o) = has k o.
Proof.
  destruct (has k o) eqn:E.
  - apply existsb_exists. exists k. split; [now apply has_keys | apply eqb_refl].
  - destruct (existsb (JsString.eqb k) (keys o)) eqn:X; auto.
    apply existsb_exists in X as [k' [Hin Ek]]. apply eqb_eq in Ek. subst k'.
    apply has_keys in Hin. congruence.
Qed.

(** X1.  A call about one room leaves the rooms stored under every other id
    as they are; for [createRoom] the one room is that of the id it makes. *)
Theorem other_rooms_untouched c rooms other :
  other <> target c -> get other (perform c rooms) = get other rooms.
Proof.
  intros Hne. apply not_eq_sym in Hne.
  destruct c; simpl in *.
  - unfold createRoom, updateRooms. simpl. rewrite assign_generated.
    now apply get_set_ne.
  - destruct (get roomId rooms) as [r|] eqn:G; [|now rewrite joinRoom_absent].
    rewrite (@joinRoom_own roomId profile rooms r G). cbn [snd].
    now apply get_set_ne.
  - destruct (get roomId rooms) as [r|] eqn:G; [|now rewrite leaveRoom_absent].
    on_room G.
    destruct (keys _); cbn [committed];
      [now apply get_delete_ne | now apply get_set_ne].
  - destruct (get roomId rooms) as [r|] eqn:G;
      [|now rewrite updateParticipantProfile_absent].
    on_room G.
    destruct (lookup participantId _); cbn [committed]; auto.
    + now apply get_set_ne.
    + now destruct (JsString.eqb participantId proto).
  - destruct (get roomId rooms) as [r|] eqn:G; [|now rewrite submitVote_absent].
    on_room G.
    destruct (in_ participantId _); cbn [negb committed]; auto.
    now apply get_set_ne.
  - destruct (get roomId rooms) as [r|] eqn:G; [|now rewrite revealVotes_absent].
    on_room G. now apply get_set_ne.
  - destruct (get roomId rooms) as [r|] eqn:G; [|now rewrite resetVotes_absent].
    on_room G. now apply get_set_ne.
  - destruct (get roomId rooms) as [r|] eqn:G;
      [|unfold removeParticipant; now rewrite leaveRoom_absent].
    on_room G.
    destruct (keys _); cbn [committed];
      [now apply get_delete_ne | now apply get_set_ne].
  - destruct (get roomId rooms) as [r|] eqn:G; [|now rewrite transferHost_absent].
    on_room G.
    destruct (in_ newHostId _); cbn [negb committed]; auto.
    now apply get_set_ne.
Qed.

Lemma other_rooms_untouched_witness :
  get other_id (perform (LeaveRoom sample_id (lit "U1")) pair_rooms)
  = get other_id pair_rooms
  /\ get other_id pair_rooms <> None.
Proof.
  split.
  - apply other_rooms_untouched. vm_compute. discriminate.
  - vm_compute. discriminate.
Defined.

(** X2.  [resetVotes] on a room of the table sets every vote of the room to
    [null] and [revealed] to [false]; the votes keep their keys and their
    order, the participants and the host stay. *)
Theorem resetVotes_clears rooms roomId r :
  get roomId rooms = Some r ->
  exists r',
    get roomId (resetVotes roomId rooms) = Some r'
    /\ keys (RoomState.votes r') = keys (RoomState.votes r)
    /\ (forall k, get k (RoomState.votes r')
                  = if has k (RoomState.votes r) then Some None else None)
    /\ RoomState.revealed r' = false
    /\ RoomState.participants r' = RoomState.participants r
    /\ RoomState.hostId r' = RoomState.hostId r.
Proof.
  intros G. rewrite (@resetVotes_own roomId rooms r G), get_set_eq.
  eexists. split; [reflexivity|].
  assert (Hall : forall i, In i (keys (RoomState.votes r)) ->
                           has i (RoomState.votes r) = true)
    by (intros i Hi; now apply has_keys).
  destruct r; simpl in *. repeat split.
  - now apply reset_keys.
  - intros k. rewrite reset_get by assumption. rewrite existsb_keys.
    destruct (has k votes) eqn:E; auto. now apply has_false_get.
Qed.

Lemma resetVotes_clears_witness :
  let voted := submitVote sample_id (lit "U2") (Some (lit "8")) two_rooms in
  get (lit "U2")
    (match get sample_id voted with
     | Some r => RoomState.votes r
     | None => []
     end) = Some (Some (lit "8"))
  /\ exists r',
      get sample_id (resetVotes sample_id (revealVotes sample_id voted)) = Some r'
      /\ get (lit "U2") (RoomState.votes r') = Some None
      /\ RoomState.revealed r' = false.
Proof.
  intros voted. split; [vm_compute; reflexivity|].
  destruct (@resetVotes_clears (revealVotes sample_id voted) sample_id
              (RoomState.with_revealed true
                 (RoomState.with_votes
                    [(lit "U1", None); (lit "U2", Some (lit "8"))] two_room)))
    as (r' & G & _ & Hvotes & Hrev & _).
  - vm_compute. reflexivity.
  - exists r'. split; [exact G|]. split; [|exact Hrev].
    rewrite Hvotes. vm_compute. reflexivity.
Defined.

(** X3.  [revealVotes] and [resetVotes] are idempotent: calling either a
    second time leaves the table as the first call left it. *)
Theorem reveal_and_reset_idempotent rooms roomId :
  revealVotes roomId (revealVotes roomId rooms) = revealVotes roomId rooms
  /\ resetVotes roomId (resetVotes roomId rooms) = resetVotes roomId rooms.
Proof.
  destruct (get roomId rooms) as [r|] eqn:G;
    [|now rewrite !(@revealVotes_absent roomId rooms G),
        !(@resetVotes_absent roomId rooms G)].
  split.
  - assert (G' : get roomId (revealVotes roomId rooms)
                 = Some (RoomState.with_revealed true r))
      by (on_room G; apply get_set_eq).
    revert G'. on_room G. intros G'. rewrite (lookup_own _ _ G'). cbn [committed].
    rewrite set_set. now destruct r.
  - rewrite (@resetVotes_own roomId rooms r G).
    erewrite resetVotes_own by apply get_set_eq.
    rewrite set_set. f_equal.
  destruct r; simpl.
  assert (Hall : forall i, In i (keys votes) -> has i votes = true)
    by (intros i Hi; now apply has_keys).
  set (cleared := fold_left (fun vs i => set i None vs) (keys votes) votes).
  assert (E : fold_left (fun vs i => set i None vs) (keys cleared) cleared
              = cleared).
  { unfold cleared. rewrite reset_keys by assumption. apply reset_fixed.
    intros i Hi. rewrite reset_get by assumption.
    rewrite existsb_keys. now rewrite (Hall i Hi). }
  unfold RoomState.with_revealed, RoomState.with_votes. simpl.
  fold cleared. now rewrite E.
Qed.

(** X4.  [transferHost] to a participant of the room changes the host and
    nothing else in the room, and handing the room back to the former host
    restores the table. *)
Theorem transferHost_there_and_back rooms roomId r newHostId :
  get roomId rooms = Some r ->
  has (RoomState.hostId r) (RoomState.participants r) = true ->
  has newHostId (RoomState.participants r) = true ->
  get roomId (transferHost roomId newHostId rooms)
    = Some (RoomState.with_hostId newHostId r)
  /\ transferHost roomId (RoomState.hostId r) (transferHost roomId newHostId rooms)
     = rooms.
Proof.
  intros G Hhost Hnew.
  assert (There : transferHost roomId newHostId rooms
                  = set roomId (RoomState.with_hostId newHostId r) rooms).
  { on_room G. now rewrite (in_own _ _ Hnew). }
  rewrite There, get_set_eq. split; [reflexivity|].
  on_room (get_set_eq roomId (RoomState.with_hostId newHostId r) rooms).
  replace (RoomState.participants (RoomState.with_hostId newHostId r))
    with (RoomState.participants r) by now destruct r.
  rewrite (in_own _ _ Hhost). cbn [negb committed]. rewrite set_set.
  apply set_same. rewrite G. now destruct r.
Qed.

Lemma transferHost_there_and_back_witness :
  option_map RoomState.hostId
    (get sample_id (transferHost sample_id (lit "U2") two_rooms)) = Some (lit "U2")
  /\ transferHost sample_id (lit "U1") (transferHost sample_id (lit "U2") two_rooms)
     = two_rooms.
Proof.
  destruct (@transferHost_there_and_back two_rooms sample_id two_room (lit "U2"))
    as [Hthere Hback].
  - vm_compute. reflexivity.
  - vm_compute. reflexivity.
  - vm_compute. reflexivity.
  - split; [now rewrite Hthere | exact Hback].
Defined.

(** X5.  [updateParticipantProfile] on a participant of the room replaces the
    name and the colour that are supplied and keeps the [id] and the
    [joinedAt] of the participant; the keys of the participants and their
    order, the other participants, the votes, the host and [revealed] stay.
    With no field supplied the table is left as it is. *)
Theorem updateParticipantProfile_merges rooms roomId participantId updates r p :
  get roomId rooms = Some r ->
  get participantId (RoomState.participants r) = Some p ->
  (exists r',
     get roomId (updateParticipantProfile roomId participantId updates rooms)
       = Some r'
     /\ (exists p',
          get participantId (RoomState.participants r') = Some p'
          /\ ParticipantProfile.id p' = ParticipantProfile.id p
          /\ ParticipantProfile.joinedAt p' = ParticipantProfile.joinedAt p
          /\ (forall n, upd_name updates = Some n -> ParticipantProfile.name p' = n)
          /\ (upd_name updates = None ->
              ParticipantProfile.name p' = ParticipantProfile.name p)
          /\ (forall c, upd_avatarColor updates = Some c ->
                        ParticipantProfile.avatarColor p' = c)
          /\ (upd_avatarColor updates = None ->
              ParticipantProfile.avatarColor p' = ParticipantProfile.avatarColor p))
     /\ keys (RoomState.participants r') = keys (RoomState.participants r)
     /\ (forall k, k <> participantId ->
           get k (RoomState.participants r') = get k (RoomState.participants r))
     /\ RoomState.votes r' = RoomState.votes r
     /\ RoomState.hostId r' = RoomState.hostId r
     /\ RoomState.revealed r' = RoomState.revealed r)
  /\ (upd_name updates = None -> upd_avatarColor updates = None ->
      updateParticipantProfile roomId participantId updates rooms = rooms).
Proof.
  intros G Gp. on_room G. rewrite (lookup_own _ _ Gp). cbn [committed].
  rewrite assign_own by (apply has_get; eauto).
  split.
  - rewrite get_set_eq. eexists. split; [reflexivity|].
    destruct r; simpl in *. split; [|repeat split].
    + rewrite get_set_eq. eexists. split; [reflexivity|]. simpl.
      destruct updates as [[n|] [c|]]; simpl; repeat split; congruence.
    + apply keys_set_present. apply has_get. eauto.
    + intros k Hk. apply get_set_ne. congruence.
  - intros En Ec. rewrite En, Ec. apply set_same. rewrite G. f_equal.
    destruct r; simpl in *. unfold RoomState.with_participants. simpl. f_equal.
    symmetry. apply set_same. rewrite Gp. now destruct p.
Qed.

Lemma updateParticipantProfile_merges_witness :
  let renamed :=
    updateParticipantProfile sample_id (lit "U2")
      {| upd_name := Some (lit "Beatriz"); upd_avatarColor := None |} two_rooms in
  (exists r' p',
     get sample_id renamed = Some r'
     /\ get (lit "U2") (RoomState.participants r') = Some p'
     /\ ParticipantProfile.name p' = lit "Beatriz"
     /\ ParticipantProfile.joinedAt p' = 1700000001000%Z)
  /\ updateParticipantProfile sample_id (lit "U2")
       {| upd_name := None; upd_avatarColor := None |} two_rooms = two_rooms.
Proof.
  intros renamed. split.
  - destruct (@updateParticipantProfile_merges two_rooms sample_id (lit "U2")
                {| upd_name := Some (lit "Beatriz"); upd_avatarColor := None |}
                two_room bia)
      as [(r' & G & (p' & Gp & _ & Hjoined & Hname & _) & _) _].
    + vm_compute. reflexivity.
    + vm_compute. reflexivity.
    + exists r', p'. split; [exact G|]. split; [exact Gp|].
      split; [now apply Hname | exact Hjoined].
  - destruct (@updateParticipantProfile_merges two_rooms sample_id (lit "U2")
                {| upd_name := None; upd_avatarColor := None |} two_room bia)
      as [_ Hsame].
    + vm_compute. reflexivity.
    + vm_compute. reflexivity.
    + now apply Hsame.
Defined.

(** X6.  [joinRoom] with an ordinary id that is new to the room returns
    with success and adds the profile as it is given, with a [null] vote
    when the votes have no entry under the id; the participants already
    there and their votes stay, and the newcomer comes last among the
    participants unless the id is an array index. *)
Theorem joinRoom_newcomer rooms roomId r profile :
  get roomId rooms = Some r ->
  ordinary (ParticipantProfile.id profile) = true ->
  get (ParticipantProfile.id profile) (RoomState.participants r) = None ->
  let P := ParticipantProfile.id profile in
  let result := joinRoom roomId profile rooms in
  exists r',
    fst result = Normal {| success := true; reason := None; room := Some r' |}
    /\ get roomId (snd result) = Some r'
    /\ get P (RoomState.participants r') = Some profile
    /\ (forall k, k <> P ->
          get k (RoomState.participants r') = get k (RoomState.participants r)
          /\ get k (RoomState.votes r') = get k (RoomState.votes r))
    /\ (get P (RoomState.votes r) = None ->
        get P (RoomState.votes r') = Some None)
    /\ (array_index P = None ->
        keys (RoomState.participants r') = keys (RoomState.participants r) ++ [P])
    /\ RoomState.hostId r' = RoomState.hostId r
    /\ RoomState.revealed r' = RoomState.revealed r.
Proof.
  intros G Hid Gp P result. subst P result.
  rewrite (@joinRoom_own roomId profile rooms r G). cbn [fst snd]. cbn zeta.
  rewrite lookup_ordinary, in_ordinary, !assign_ordinary by assumption.
  rewrite Gp, get_set_eq.
  eexists. split; [reflexivity|]. split; [reflexivity|].
  destruct r; simpl in *. repeat split.
  - rewrite get_set_eq. now destruct profile.
  - apply get_set_ne. congruence.
  - destruct (has (ParticipantProfile.id profile) votes); simpl; auto.
    apply get_set_ne. congruence.
  - intros Hv. unfold has. rewrite Hv. simpl. apply get_set_eq.
  - intros Hidx. unfold set, has. rewrite Gp. now apply keys_create_last.
Qed.

Lemma joinRoom_newcomer_witness :
  exists r',
    get sample_id (snd (joinRoom sample_id bia sample_rooms)) = Some r'
    /\ get (lit "U2") (RoomState.participants r') = Some bia
    /\ get (lit "U2") (RoomState.votes r') = Some None
    /\ keys (RoomState.participants r') = [lit "U1"; lit "U2"].
Proof.
  destruct (@joinRoom_newcomer sample_rooms sample_id
              (RoomState.mk sample_id (lit "Sprint 12") fibonacci
                 PRESET_DECKS_fibonacci (lit "U1") [(lit "U1", ana)]
                 [(lit "U1", None)] false 1700000000001) bia)
    as (r' & _ & G & Gp & _ & Hvote & Hkeys & _).
  - vm_compute. reflexivity.
  - vm_compute. reflexivity.
  - vm_compute. reflexivity.
  - exists r'. split; [exact G|]. split; [exact Gp|]. split.
    + apply Hvote. vm_compute. reflexivity.
    + rewrite Hkeys by (vm_compute; reflexivity). reflexivity.
Defined.

(** X7.  Joining and leaving undo each other for a newcomer with an
    ordinary id: when somebody who is neither a participant of the room nor
    its host, and has no vote there, joins a room that has a participant and
    leaves it again, the table is as it was before; this is so for every
    such newcomer of a room of a table reached through calls that name
    their participants by ordinary ids. *)
Theorem join_then_leave rooms roomId r profile :
  get roomId rooms = Some r ->
  ordinary (ParticipantProfile.id profile) = true ->
  get (ParticipantProfile.id profile) (RoomState.participants r) = None ->
  (RoomState.participants r <> [] ->
   RoomState.hostId r <> ParticipantProfile.id profile ->
   get (ParticipantProfile.id profile) (RoomState.votes r) = None ->
   leaveRoom roomId (ParticipantProfile.id profile)
     (snd (joinRoom roomId profile rooms)) = rooms)
  /\ (forall calls,
        Forall (fun c => ordinary_call c = true) calls -> rooms = run calls ->
        leaveRoom roomId (ParticipantProfile.id profile)
          (snd (joinRoom roomId profile rooms)) = rooms).
Proof.
  intros G Hid Gp.
  assert (Hgen : RoomState.participants r <> [] ->
                 RoomState.hostId r <> ParticipantProfile.id profile ->
                 get (ParticipantProfile.id profile) (RoomState.votes r) = None ->
                 leaveRoom roomId (ParticipantProfile.id profile)
                   (snd (joinRoom roomId profile rooms)) = rooms).
  { intros Hne Hhost Hv.
    rewrite (@joinRoom_own roomId profile rooms r G). cbn [snd]. cbn zeta.
    rewrite lookup_ordinary, in_ordinary, !assign_ordinary by assumption.
    rewrite Gp. unfold has at 1. rewrite Hv. cbn [negb].
    match goal with
    | |- leaveRoom _ _ (set _ ?r' _) = _ =>
        on_room (get_set_eq roomId r' rooms)
    end.
    destruct r; simpl in *.
    rewrite (@delete_set_absent _ _ _ _ Gp).
    destruct (keys participants) as [|first rest] eqn:K.
    { now apply keys_not_nil in Hne. }
    apply eqb_neq in Hhost. rewrite Hhost, andb_false_r. cbn [committed].
    rewrite set_set.
    unfold RoomState.with_revealed, RoomState.with_hostId, RoomState.with_votes,
      RoomState.with_participants. simpl.
    rewrite (@delete_set_absent _ _ _ _ Hv). now apply set_same. }
  split; [exact Hgen|].
  intros calls Hcalls Erun.
  assert (Hsound : every_room room_sound rooms)
    by (rewrite Erun; now apply run_sound).
  destruct (every_room_get _ Hsound G) as (Hne & Hhost & Hkeys).
  apply Hgen; auto.
  - intros E. rewrite E in Hhost. apply has_get in Hhost as [p Hp]. congruence.
  - apply has_false_get. rewrite Hkeys. now apply has_false_get.
Qed.

Lemma join_then_leave_witness :
  leaveRoom sample_id (lit "U2") (snd (joinRoom sample_id bia sample_rooms))
  = sample_rooms.
Proof.
  refine (proj2 (@join_then_leave sample_rooms sample_id
                   (RoomState.mk sample_id (lit "Sprint 12") fibonacci
                      PRESET_DECKS_fibonacci (lit "U1") [(lit "U1", ana)]
                      [(lit "U1", None)] false 1700000000001) bia _ _ _)
            [sample_call] _ _).
  - vm_compute. reflexivity.
  - vm_compute. reflexivity.
  - vm_compute. reflexivity.
  - repeat constructor.
  - reflexivity.
Defined.

(** X8.  When [leaveRoom] keeps the room it never changes [revealed], and it
    changes the host only when the host is the one who leaves; the others
    keep their entries and their votes, in the same order. *)
Theorem leaveRoom_keeps_the_rest rooms roomId participantId r :
  get roomId rooms = Some r ->
  delete participantId (RoomState.participants r) <> [] ->
  exists r',
    get roomId (leaveRoom roomId participantId rooms) = Some r'
    /\ RoomState.revealed r' = RoomState.revealed r
    /\ (RoomState.hostId r <> participantId ->
        RoomState.hostId r' = RoomState.hostId r)
    /\ keys (RoomState.participants r')
       = filter (fun k => negb (JsString.eqb participantId k))
           (keys (RoomState.participants r))
    /\ keys (RoomState.votes r')
       = filter (fun k => negb (JsString.eqb participantId k))
           (keys (RoomState.votes r))
    /\ (forall k, k <> participantId ->
          get k (RoomState.participants r') = get k (RoomState.participants r)
          /\ get k (RoomState.votes r') = get k (RoomState.votes r))
    /\ get participantId (RoomState.participants r') = None
    /\ get participantId (RoomState.votes r') = None.
Proof.
  intros G Hrest. on_room G.
  destruct (keys (delete participantId (RoomState.participants r)))
    as [|first rest] eqn:K.
  { now apply keys_not_nil in Hrest. }
  cbn [committed]. rewrite get_set_eq. eexists. split; [reflexivity|].
  destruct r; simpl in *. repeat split.
  - now rewrite andb_false_r.
  - intros Hhost. apply eqb_neq in Hhost. now rewrite Hhost.
  - apply keys_delete.
  - apply keys_delete.
  - apply get_delete_ne. congruence.
  - apply get_delete_ne. congruence.
  - apply get_delete_eq.
  - apply get_delete_eq.
Qed.

Lemma leaveRoom_keeps_the_rest_witness :
  let revealed := revealVotes sample_id two_rooms in
  exists r',
    get sample_id (leaveRoom sample_id (lit "U2") revealed) = Some r'
    /\ RoomState.revealed r' = true
    /\ RoomState.hostId r' = lit "U1"
    /\ keys (RoomState.participants r') = [lit "U1"].
Proof.
  intros revealed.
  destruct (@leaveRoom_keeps_the_rest revealed sample_id (lit "U2")
              (RoomState.with_revealed true two_room))
    as (r' & G & Hrev & Hhost & Hkeys & _).
  - vm_compute. reflexivity.
  - vm_compute. discriminate.
  - exists r'. split; [exact G|]. split; [exact Hrev|]. split.
    + rewrite Hhost; [reflexivity | vm_compute; discriminate].
    + rewrite Hkeys. reflexivity.
Defined.

(** X9.  [createRoom] does not look whether the id it makes is taken: the new
    room, with the host as its only participant, a [null] vote for the host
    and [revealed] false, is stored under the id that is returned; a room
    that was stored under this id is replaced, the table keeping its keys,
    and otherwise the table has one room more. *)
Theorem createRoom_replaces_or_adds draw now_id now_created options rooms :
  let result := createRoom draw now_id now_created options rooms in
  let host := opt_host options in
  (exists r,
     get (fst result) (snd result) = Some r
     /\ RoomState.id r = fst result
     /\ RoomState.hostId r = ParticipantProfile.id host
     /\ RoomState.participants r = [(ParticipantProfile.id host, host)]
     /\ RoomState.votes r = [(ParticipantProfile.id host, None)]
     /\ RoomState.revealed r = false
     /\ RoomState.createdAt r = now_created)
  /\ (has (fst result) rooms = true -> keys (snd result) = keys rooms)
  /\ (has (fst result) rooms = false -> length (snd result) = S (length rooms)).
Proof.
  unfold createRoom, updateRooms. simpl. rewrite assign_generated. repeat split.
  - rewrite get_set_eq. eexists. split; [reflexivity|]. simpl.
    destruct (opt_host options). repeat split.
  - intros H. now apply keys_set_present.
  - intros H. unfold set. rewrite H. apply length_create.
Qed.

Lemma createRoom_replaces_or_adds_witness :
  let again :=
    createRoom sample_draw 1700000000000 1700000005000 other_options sample_rooms in
  fst again = sample_id
  /\ keys (snd again) = [sample_id]
  /\ length (snd (createRoom [35; 34; 33; 32]%N 1700000000000 1700000002001
                    other_options sample_rooms)) = 2.
Proof.
  intros again. split; [reflexivity|].
  destruct (createRoom_replaces_or_adds sample_draw 1700000000000 1700000005000
              other_options sample_rooms) as (_ & Hkeys & _).
  destruct (createRoom_replaces_or_adds [35; 34; 33; 32]%N 1700000000000
              1700000002001 other_options sample_rooms) as (_ & _ & Hlen).
  split.
  - unfold again. rewrite Hkeys; [reflexivity | vm_compute; reflexivity].
  - rewrite Hlen; [reflexivity | vm_compute; reflexivity].
Defined.

Lemma digits_not_nil radix fuel n acc :
  1 + length acc <= length (digits radix (S fuel) n acc).
Proof.
  cbn [digits]. destruct (n / radix =? 0)%N; simpl; [lia|].
  pose proof (digits_length_ge radix fuel (n / radix)
                (digit36 (n mod radix) :: acc)) as H.
  simpl in H. lia.
Qed.

Lemma Forall_firstn (A : Type) (P : A -> Prop) n (l : list A) :
  Forall P l -> Forall P (firstn n l).
Proof.
  intros H. apply Forall_forall. intros x Hx.
  rewrite <- (firstn_skipn n l) in H. apply Forall_app in H as [H _].
  eapply Forall_forall in H; eauto.
Qed.

Lemma Forall_skipn (A : Type) (P : A -> Prop) n (l : list A) :
  Forall P l -> Forall P (skipn n l).
Proof.
  intros H. apply Forall_forall. intros x Hx.
  rewrite <- (firstn_skipn n l) in H. apply Forall_app in H as [_ H].
  eapply Forall_forall in H; eauto.
Qed.

(** X10.  The id of a created room is a group of at most four characters, a
    dash and a group of at most four characters.  For a draw of digits below
    36 the first group is made of [0-9A-Z]; for a clock that is not negative
    so is the second one, which is then not empty.  When the draw renders
    with four digits or more and the clock is at least [36^3] the id has the
    format [XXXX-YYYY]. *)
Theorem createRoom_id_shape draw now_id now_created options rooms :
  let id := fst (createRoom draw now_id now_created options rooms) in
  (exists g1 g2,
     id = g1 ++ lit "-" ++ g2
     /\ length g1 <= 4 /\ length g2 <= 4
     /\ (Forall (fun d => (d < 36)%N) draw ->
         forallb is_upper_alnum g1 = true)
     /\ ((0 <= now_id)%Z -> forallb is_upper_alnum g2 = true /\ g2 <> []))
  /\ (Forall (fun d => (d < 36)%N) draw -> 4 <= length draw ->
      (46656 <= now_id)%Z -> room_id_format id = true).
Proof.
  simpl. split; [|apply generateRoomId_format].
  unfold generateRoomId.
  exists (toUpperCase (slice 2 6 (random_toString36 draw))),
         (toUpperCase (slice_last 4 (Z_toString 36 now_id))).
  split; [reflexivity|]. unfold toUpperCase, slice, slice_last.
  rewrite !length_map.
  split; [rewrite length_firstn; lia|].
  split; [rewrite length_skipn; lia|]. split.
  - intros Hdraw. apply forallb_forall. intros c Hc.
    apply in_map_iff in Hc as [c' [E Hc]]. subst c.
    assert (Hall : Forall (fun c => is_upper_alnum (upper c) = true)
                     (firstn (6 - 2) (skipn 2 (random_toString36 draw)))).
    { apply Forall_firstn. destruct draw as [|d draw]; [constructor|].
      change (skipn 2 (random_toString36 (d :: draw)))
        with (List.map digit36 (d :: draw)).
      apply Forall_forall. intros x Hx.
      apply in_map_iff in Hx as [y [E Hy]]. subst x.
      apply digit36_upper. eapply Forall_forall in Hdraw; eauto. }
    eapply Forall_forall in Hall; eauto.
  - intros Hnow. unfold Z_toString.
    assert (E : (now_id <? 0)%Z = false) by (apply Z.ltb_ge; lia). rewrite E.
    set (fuel := N.to_nat (N.log2 (Z.abs_N now_id))).
    set (ds := digits 36 (S fuel) (Z.abs_N now_id) []).
    assert (Hlen : 1 <= length ds)
      by (pose proof (digits_not_nil 36 fuel (Z.abs_N now_id) []) as H;
          simpl in H; exact H).
    split.
    + apply forallb_forall. intros c Hc.
      apply in_map_iff in Hc as [c' [Ec Hc]]. subst c.
      assert (Hall : Forall (fun c => is_upper_alnum (upper c) = true)
                       (skipn (length ds - 4) ds)).
      { apply Forall_skipn. apply digits_upper; [lia | constructor]. }
      eapply Forall_forall in Hall; eauto.
    + intros Hnil. apply (f_equal (@length N)) in Hnil.
      rewrite length_map, length_skipn in Hnil. simpl in Hnil. lia.
Qed.

Lemma createRoom_id_shape_witness :
  room_id_format (fst (createRoom sample_draw 1700000000000 1700000000001
                         sample_options [])) = true.
Proof.
  apply (proj2 (createRoom_id_shape sample_draw 1700000000000 1700000000001
                  sample_options [])).
  - repeat constructor.
  - simpl. lia.
  - lia.
Defined.

(** ** What the calls keep in every table *)

Lemma In_set_key (V : Type) k (v : V) k' v' (o : JsObject.t V) :
  In (k', v') (set k v o) -> (k' = k /\ v' = v) \/ In (k', v') o.
Proof.
  intros H. apply In_set in H as [E|H]; [left; now inversion E | now right].
Qed.

Lemma generateRoomId_not_nil draw now : generateRoomId draw now <> [].
Proof.
  unfold generateRoomId.
  destruct (toUpperCase (slice 2 6 (random_toString36 draw))); discriminate.
Qed.

(** The room [r] is written back with the fields it was created with. *)
Ltac written r G :=
  right; right; eexists; split; [reflexivity|];
  exists r; split; [first [exact G | reflexivity]|]; destruct r; split; reflexivity.

(** What a call does to the table: nothing, or it deletes the room it is
    about, or it writes this room, which for [createRoom] is a room with the
    new id and for another call a room with the fields that the stored room
    was created with. *)
Lemma perform_shape c rooms :
  perform c rooms = rooms
  \/ perform c rooms = delete (target c) rooms
  \/ exists r1,
      perform c rooms = set (target c) r1 rooms
      /\ (if is_createRoom c then RoomState.id r1 = target c
          else exists r0,
                 get (target c) rooms = Some r0
                 /\ RoomState.id r1 = RoomState.id r0
                 /\ created_fields r1 = created_fields r0).
Proof.
  destruct c; simpl.
  - right. right. unfold createRoom, updateRooms. simpl.
    rewrite assign_generated. eexists. split; reflexivity.
  - destruct (get roomId rooms) as [r|] eqn:G;
      [|left; now apply joinRoom_absent].
    rewrite (@joinRoom_own roomId profile rooms r G). cbn [snd]. cbn zeta.
    written r G.
  - destruct (get roomId rooms) as [r|] eqn:G;
      [|left; now apply leaveRoom_absent].
    on_room G. destruct (keys _); cbn [committed]; [now auto|].
    written r G.
  - destruct (get roomId rooms) as [r|] eqn:G;
      [|left; now apply updateParticipantProfile_absent].
    on_room G. destruct (lookup participantId _); cbn [committed]; auto.
    + written r G.
    + left. now destruct (JsString.eqb participantId proto).
  - destruct (get roomId rooms) as [r|] eqn:G;
      [|left; now apply submitVote_absent].
    on_room G. destruct (in_ participantId _); cbn [negb committed]; auto.
    destruct value; written r G.
  - destruct (get roomId rooms) as [r|] eqn:G;
      [|left; now apply revealVotes_absent].
    on_room G. written r G.
  - destruct (get roomId rooms) as [r|] eqn:G;
      [|left; now apply resetVotes_absent].
    on_room G. written r G.
  - destruct (get roomId rooms) as [r|] eqn:G;
      [|left; unfold removeParticipant; now apply leaveRoom_absent].
    on_room G. destruct (keys _); cbn [committed]; [now auto|].
    written r G.
  - destruct (get roomId rooms) as [r|] eqn:G;
      [|left; now apply transferHost_absent].
    on_room G. destruct (in_ newHostId _); cbn [negb committed]; auto.
    written r G.
Qed.

(** Every room of a table reached through the API is stored under its own
    id, which is not the empty string. *)
Lemma reachable_keyed rooms :
  reachable rooms ->
  forall k r, In (k, r) rooms -> RoomState.id r = k /\ k <> [].
Proof.
  induction 1 as [|c rooms Hreach IH]; [intros k r []|].
  intros k r Hin.
  destruct (perform_shape c rooms) as [E|[E|(r1 & E & Hr1)]]; rewrite E in Hin.
  - auto.
  - apply In_delete in Hin. auto.
  - apply In_set_key in Hin as [[-> ->]|Hin]; auto.
    destruct c; simpl in Hr1;
      try (destruct Hr1 as (r0 & G0 & Eid & _); apply get_In, IH in G0;
           simpl; rewrite Eid; exact G0).
    split; [exact Hr1 | apply generateRoomId_not_nil].
Qed.

(** X11.  In every table reached through the API each room is stored under
    its own id, and a room that is stored has the id, the name, the deck
    and the creation time it got from [createRoom]: no other call changes
    them. *)
Theorem rooms_keep_what_they_were_created_with :
  (forall rooms, reachable rooms ->
     forall k r, In (k, r) rooms -> RoomState.id r = k)
  /\ (forall c rooms k r r',
        is_createRoom c = false ->
        get k rooms = Some r -> get k (perform c rooms) = Some r' ->
        created_fields r' = created_fields r).
Proof.
  split.
  - intros rooms Hreach k r Hin. now apply (reachable_keyed Hreach).
  - intros c rooms k r r' Hc G G'.
    destruct (perform_shape c rooms) as [E|[E|(r1 & E & Hr1)]]; rewrite E in G'.
    + congruence.
    + case_key (target c) k; [now rewrite get_delete_eq in G'|].
      rewrite get_delete_ne in G' by assumption. congruence.
    + rewrite Hc in Hr1. destruct Hr1 as (r0 & G0 & _ & E1).
      case_key (target c) k.
      * rewrite get_set_eq in G'. congruence.
      * rewrite get_set_ne in G' by assumption. congruence.
Qed.

Lemma rooms_keep_what_they_were_created_with_witness :
  reachable pair_rooms
  /\ (forall k r, In (k, r) pair_rooms -> RoomState.id r = k)
  /\ option_map created_fields
       (get sample_id (perform (ResetVotes sample_id) pair_rooms))
     = option_map created_fields (get sample_id pair_rooms).
Proof.
  destruct rooms_keep_what_they_were_created_with as [Hkeyed Hfields].
  assert (R : reachable pair_rooms)
    by (repeat apply reachable_call; apply reachable_empty).
  split; [exact R|]. split; [exact (Hkeyed pair_rooms R)|].
  destruct (get sample_id pair_rooms) as [r|] eqn:G; [|vm_compute in G; discriminate].
  destruct (get sample_id (perform (ResetVotes sample_id) pair_rooms))
    as [r'|] eqn:G'; [|vm_compute in G'; discriminate].
  simpl. f_equal.
  exact (Hfields (ResetVotes sample_id) pair_rooms sample_id r r' eq_refl G G').
Defined.

(** ** Storage, channel and listeners *)

(** A call that reaches [updateRooms] and whose mutator returns commits its
    draft, posts it when there is a channel, and calls the listeners. *)
Lemma invoke_commits_aux env c s table :
  Store.reaches_updateRooms c (Store.rooms s) = true ->
  attempt c (Store.rooms s) = Normal table ->
  Store.rooms (Store.invoke env c s) = table
  /\ (channel env = true ->
      Store.posted (Store.invoke env c s)
      = Store.posted s ++ [Data (Some rooms_sync) (Table table)])
  /\ Store.notified (Store.invoke env c s)
     = Store.notified s ++ Store.listeners s
  /\ (isBrowser env = true -> Store.storage (Store.invoke env c s) = Some table).
Proof.
  intros R A. unfold Store.invoke. rewrite R.
  unfold Store.updateRooms. rewrite A.
  unfold Store.emit, Store.broadcast, Store.persist.
  destruct (channel env), (isBrowser env); simpl; repeat split;
    intros; congruence.
Qed.

(** X12.  On an ordinary room id that the table does not hold, [joinRoom],
    [leaveRoom] and [removeParticipant] leave the whole store as it is,
    silent.  The other calls leave the table as it is but still run
    [updateRooms]: the listeners are called and, with a channel, the
    unchanged table is posted. *)
Theorem missing_room_is_silent_or_not env s roomId :
  ordinary roomId = true ->
  get roomId (Store.rooms s) = None ->
  (forall profile participantId,
     Store.invoke env (JoinRoom roomId profile) s = s
     /\ Store.invoke env (LeaveRoom roomId participantId) s = s
     /\ Store.invoke env (RemoveParticipant roomId participantId) s = s)
  /\ (forall c,
        In c [RevealVotes roomId; ResetVotes roomId] \/
        (exists participantId updates,
           c = UpdateParticipantProfile roomId participantId updates) \/
        (exists participantId value, c = SubmitVote roomId participantId value) \/
        (exists newHostId, c = TransferHost roomId newHostId) ->
        let s' := Store.invoke env c s in
        Store.rooms s' = Store.rooms s
        /\ Store.notified s' = Store.notified s ++ Store.listeners s
        /\ (channel env = true ->
            Store.posted s'
            = Store.posted s ++ [Data (Some rooms_sync) (Table (Store.rooms s))])).
Proof.
  intros Hid G.
  assert (U : lookup roomId (Store.rooms s) = Undefined)
    by (rewrite lookup_ordinary by assumption; now rewrite G).
  split.
  - intros profile participantId. unfold Store.invoke. simpl. now rewrite U.
  - intros c Hc s'. subst s'.
    assert (Hreach : Store.reaches_updateRooms c (Store.rooms s) = true).
    { destruct Hc as [[<-|[<-|[]]]|[(p & u & ->)|[(p & v & ->)|(h & ->)]]];
        reflexivity. }
    assert (Hsame : attempt c (Store.rooms s) = Normal (Store.rooms s)).
    { destruct (calls_on_undefined _ _ U) as [_ Hall].
      destruct Hc as [[<-|[<-|[]]]|[(p & u & ->)|[(p & v & ->)|(h & ->)]]];
        simpl.
      - apply (Hall [] {| upd_name := None; upd_avatarColor := None |} None).
      - apply (Hall [] {| upd_name := None; upd_avatarColor := None |} None).
      - apply (Hall p u None).
      - apply (Hall p {| upd_name := None; upd_avatarColor := None |} v).
      - apply (Hall h {| upd_name := None; upd_avatarColor := None |} None). }
    destruct (invoke_commits_aux env c s Hreach Hsame)
      as (Hrooms & Hposted & Hnotified & _).
    split; [exact Hrooms|]. split; [exact Hnotified|]. exact Hposted.
Qed.

Lemma missing_room_is_silent_or_not_witness :
  let s := Store.invoke browser sample_call (Store.subscribeRooms 3 fresh_store) in
  Store.invoke browser (JoinRoom (lit "ZZZZ-0000") bia) s = s
  /\ Store.notified (Store.invoke browser (RevealVotes (lit "ZZZZ-0000")) s)
     = Store.notified s ++ [3]
  /\ Store.rooms (Store.invoke browser (RevealVotes (lit "ZZZZ-0000")) s)
     = Store.rooms s.
Proof.
  intros s.
  destruct (@missing_room_is_silent_or_not browser s (lit "ZZZZ-0000"))
    as [Hsilent Hloud].
  - vm_compute. reflexivity.
  - vm_compute. reflexivity.
  - split; [apply (Hsilent bia (lit "U1"))|].
    destruct (Hloud (RevealVotes (lit "ZZZZ-0000"))) as (Hrooms & Hnotified & _).
    + left. now left.
    + split; [exact Hnotified | exact Hrooms].
Defined.

(** X13.  The handler of the channel never posts, so that a table that
    arrives is not sent back.  A message of type [rooms-sync] whose payload
    is an object replaces the table whole, is written to the storage and
    makes every listener be called; every other message leaves the store
    as it is. *)
Theorem onmessage_replaces_and_never_posts env data s :
  let s' := Store.onmessage env data s in
  Store.posted s' = Store.posted s
  /\ Store.listeners s' = Store.listeners s
  /\ (channel env = true ->
      forall table, data = Data (Some rooms_sync) (Table table) ->
      Store.rooms s' = table
      /\ Store.storage s' = Some table
      /\ Store.notified s' = Store.notified s ++ Store.listeners s)
  /\ ((forall table, data <> Data (Some rooms_sync) (Table table)) -> s' = s).
Proof.
  unfold Store.onmessage.
  assert (Hbrowser : channel env = true -> isBrowser env = true)
    by (unfold channel; intros H; now apply andb_true_iff in H as [? _]).
  destruct (channel env) eqn:Hch; simpl.
  - destruct data as [|[type|] [|table]]; simpl;
      try (repeat split; intros; congruence).
    case_key type rooms_sync.
    + unfold Store.emit, Store.persist. rewrite (Hbrowser eq_refl). simpl.
      split; [reflexivity|]. split; [reflexivity|]. split.
      * intros _ table' E. inversion E. repeat split.
      * intros H. now destruct (H table).
    + repeat split; intros; congruence.
  - split; [reflexivity|]. split; [reflexivity|]. split; [discriminate | reflexivity].
Qed.

Lemma onmessage_replaces_and_never_posts_witness :
  let s' := Store.onmessage browser (Data (Some rooms_sync) (Table two_rooms))
              (Store.subscribeRooms 3 fresh_store) in
  Store.rooms s' = two_rooms /\ Store.storage s' = Some two_rooms
  /\ Store.notified s' = [3] /\ Store.posted s' = []
  /\ Store.onmessage browser (Data (Some (lit "ping")) (Table two_rooms)) fresh_store
     = fresh_store.
Proof.
  intros s'.
  destruct (onmessage_replaces_and_never_posts browser
              (Data (Some rooms_sync) (Table two_rooms))
              (Store.subscribeRooms 3 fresh_store))
    as (Hposted & _ & Hsync & _).
  destruct (Hsync eq_refl two_rooms eq_refl) as (Hrooms & Hstorage & Hnotified).
  fold s' in Hposted, Hrooms, Hstorage, Hnotified.
  split; [exact Hrooms|]. split; [exact Hstorage|].
  split; [exact Hnotified|]. split; [exact Hposted|].
  apply (onmessage_replaces_and_never_posts browser
           (Data (Some (lit "ping")) (Table two_rooms)) fresh_store).
  intros table E. inversion E.
Defined.

(** X14.  Two tabs converge: when a call reaches [updateRooms] in a tab with
    a channel and its mutator returns, the message it posts, delivered to
    another tab with a channel, gives that tab the table of the first one,
    in its storage as well; the listeners of the second tab are called and
    the second tab posts nothing. *)
Theorem tabs_converge envA envB c a b table :
  channel envA = true -> channel envB = true ->
  Store.reaches_updateRooms c (Store.rooms a) = true ->
  attempt c (Store.rooms a) = Normal table ->
  let a' := Store.invoke envA c a in
  exists message,
    Store.posted a' = Store.posted a ++ [message]
    /\ Store.getRoomsSnapshot a' = table
    /\ let b' := Store.onmessage envB message b in
       Store.getRoomsSnapshot b' = Store.getRoomsSnapshot a'
       /\ Store.storage b' = Some (Store.getRoomsSnapshot a')
       /\ Store.notified b' = Store.notified b ++ Store.listeners b
       /\ Store.posted b' = Store.posted b.
Proof.
  intros HA HB R A a'.
  destruct (invoke_commits_aux envA c a R A) as (Hrooms & Hposted & _).
  eexists. split; [exact (Hposted HA)|]. split; [exact Hrooms|].
  assert (Hbrowser : isBrowser envB = true)
    by (unfold channel in HB; now apply andb_true_iff in HB as [? _]).
  unfold Store.onmessage, Store.getRoomsSnapshot. rewrite HB. simpl.
  unfold Store.persist. rewrite Hbrowser. simpl. unfold a'. rewrite Hrooms.
  repeat split.
Qed.

Lemma tabs_converge_witness :
  let a := Store.invoke browser sample_call fresh_store in
  let b := Store.subscribeRooms 5 fresh_store in
  exists message,
    Store.posted a = [message]
    /\ Store.getRoomsSnapshot (Store.onmessage browser message b) = sample_rooms
    /\ Store.notified (Store.onmessage browser message b) = [5].
Proof.
  intros a b.
  destruct (@tabs_converge browser browser sample_call fresh_store b sample_rooms
              eq_refl eq_refl eq_refl eq_refl)
    as (message & Hposted & _ & Hrooms & _ & Hnotified & _).
  exists message. split; [exact Hposted|]. split.
  - rewrite Hrooms. reflexivity.
  - rewrite Hnotified. reflexivity.
Defined.

Lemma existsb_eqb_In listener (l : list nat) :
  existsb (Nat.eqb listener) l = true <-> In listener l.
Proof.
  rewrite existsb_exists. split.
  - intros [x [Hx E]]. apply Nat.eqb_eq in E. now subst.
  - intros H. exists listener. split; auto. apply Nat.eqb_refl.
Qed.

Lemma filter_absent listener (l : list nat) :
  ~ In listener l -> filter (fun x => negb (Nat.eqb listener x)) l = l.
Proof.
  induction l as [|x l IH]; simpl; auto. intros H.
  destruct (Nat.eqb listener x) eqn:E.
  - apply Nat.eqb_eq in E. subst. exfalso. apply H. now left.
  - simpl. rewrite IH; auto.
Qed.

Lemma act_keeps_set env a s :
  NoDup (Store.listeners s) -> NoDup (Store.listeners (act env a s)).
Proof.
  intros H. destruct a; simpl.
  - unfold Store.invoke. destruct (Store.reaches_updateRooms _ _); auto.
    unfold Store.updateRooms. destruct (attempt c (Store.rooms s)); auto.
    unfold Store.emit, Store.broadcast, Store.persist.
    destruct (negb (channel env)), (negb (isBrowser env)); auto.
  - unfold Store.onmessage. destruct (negb (channel env)); auto.
    destruct data as [|[type|] [|table]]; auto.
    destruct (JsString.eqb type rooms_sync); auto.
    unfold Store.emit, Store.persist. destruct (negb (isBrowser env)); auto.
  - destruct (existsb (Nat.eqb listener) (Store.listeners s)) eqn:E; auto.
    apply NoDup_app; auto.
    + repeat constructor. intros [].
    + intros x Hx [Ex|[]]. subst x.
      assert (X : existsb (Nat.eqb listener) (Store.listeners s) = true)
        by now apply existsb_eqb_In.
      congruence.
  - now apply NoDup_filter.
Qed.

(** X15.  The listeners are a set.  In every tab no listener is subscribed
    twice, so that a call that reaches [updateRooms] and whose mutator
    returns calls each subscribed listener exactly once, and a call whose
    mutator throws calls none; subscribing again changes nothing, and the
    function returned by [subscribeRooms] removes the listener, giving back
    the store as it was when the listener was new. *)
Theorem listeners_are_called_once env loaded actions :
  let s := tab env loaded actions in
  NoDup (Store.listeners s)
  /\ (forall c listener table,
        Store.reaches_updateRooms c (Store.rooms s) = true ->
        attempt c (Store.rooms s) = Normal table ->
        count_occ Nat.eq_dec (Store.notified (Store.invoke env c s)) listener
        = count_occ Nat.eq_dec (Store.notified s) listener
          + (if in_dec Nat.eq_dec listener (Store.listeners s) then 1 else 0))
  /\ (forall c,
        attempt c (Store.rooms s) = TypeError -> Store.invoke env c s = s)
  /\ (forall listener,
        Store.subscribeRooms listener (Store.subscribeRooms listener s)
        = Store.subscribeRooms listener s
        /\ ~ In listener (Store.listeners (Store.unsubscribe listener s))
        /\ (~ In listener (Store.listeners s) ->
            Store.unsubscribe listener (Store.subscribeRooms listener s) = s)).
Proof.
  intros s.
  assert (Hset : NoDup (Store.listeners s)).
  { unfold s, tab. induction actions as [|a actions IH] using rev_ind.
    - constructor.
    - rewrite fold_left_app. simpl. now apply act_keeps_set. }
  split; [exact Hset|]. split; [|split].
  - intros c listener table R A.
    destruct (invoke_commits_aux env c s R A) as (_ & _ & Hnotified & _).
    rewrite Hnotified, count_occ_app. f_equal.
    destruct (in_dec Nat.eq_dec listener (Store.listeners s)) as [Hin|Hout].
    + now apply NoDup_count_occ'.
    + now apply count_occ_not_In.
  - intros c A. unfold Store.invoke, Store.updateRooms. rewrite A.
    now destruct (Store.reaches_updateRooms c (Store.rooms s)).
  - intros listener. repeat split.
    + unfold Store.subscribeRooms. simpl.
      destruct (existsb (Nat.eqb listener) (Store.listeners s)) eqn:E.
      * now rewrite E.
      * rewrite existsb_app. simpl. rewrite Nat.eqb_refl.
        now rewrite orb_true_r.
    + simpl. intros Hin. apply filter_In in Hin as [_ Hin].
      now rewrite Nat.eqb_refl in Hin.
    + intros Hnew. unfold Store.unsubscribe, Store.subscribeRooms. simpl.
      assert (E : existsb (Nat.eqb listener) (Store.listeners s) = false).
      { destruct (existsb _ _) eqn:X; auto. now apply existsb_eqb_In in X. }
      rewrite E, filter_app, (@filter_absent _ _ Hnew). simpl.
      rewrite Nat.eqb_refl. simpl. rewrite app_nil_r. now destruct s.
Qed.

Lemma listeners_are_called_once_witness :
  let s := tab browser [] [Subscribe 3; Subscribe 3; Subscribe 7] in
  Store.listeners s = [3; 7]
  /\ count_occ Nat.eq_dec (Store.notified (Store.invoke browser sample_call s)) 3 = 1
  /\ Store.unsubscribe 9 (Store.subscribeRooms 9 s) = s.
Proof.
  intros s.
  destruct (listeners_are_called_once browser []
              [Subscribe 3; Subscribe 3; Subscribe 7]) as (_ & Honce & _ & Hset).
  fold s in Honce, Hset. split; [reflexivity|]. split.
  - rewrite (Honce sample_call 3 sample_rooms eq_refl eq_refl). reflexivity.
  - apply (Hset 9). vm_compute. intros [E|[E|[]]]; discriminate.
Defined.

Lemma sanitize_stored_of (number : Type) (toString : number -> jsstring)
    (toBoolean : number -> bool) (r : RoomState.t) :
  sanitize toString toBoolean (stored_of number r) = Some r.
Proof.
  destruct r. unfold sanitize, stored_of. simpl.
  rewrite map_map. simpl. now rewrite all_of_map_Some.
Qed.

Lemma startup_of_persisted (number : Type) (toString : number -> jsstring)
    (toBoolean : number -> bool) env table :
  isBrowser env = true -> startup toString toBoolean env (Some table) = table.
Proof.
  intros Hb. unfold startup, loadRooms. rewrite Hb. simpl. rewrite map_map.
  erewrite map_ext
    by (intros [k r]; simpl; rewrite sanitize_stored_of; reflexivity).
  now rewrite all_of_map_Some.
Qed.

(** X16.  Storing and loading give the table back: a tab that starts in a
    browser on the storage written by a call that reached [updateRooms] and
    whose mutator returned begins with the table of that call (sanitizing
    changes nothing in a table that [persist] wrote).
    With nothing stored, or outside a browser, a tab begins with the empty
    table. *)
Theorem storage_round_trip (number : Type) (toString : number -> jsstring)
    (toBoolean : number -> bool) env :
  (forall c s table,
     isBrowser env = true ->
     Store.reaches_updateRooms c (Store.rooms s) = true ->
     attempt c (Store.rooms s) = Normal table ->
     startup toString toBoolean env (Store.storage (Store.invoke env c s))
     = Store.rooms (Store.invoke env c s))
  /\ startup toString toBoolean env None = []
  /\ (isBrowser env = false ->
      forall storage, startup toString toBoolean env storage = []).
Proof.
  split; [|split].
  - intros c s table Hb R A.
    destruct (invoke_commits_aux env c s R A) as (Hrooms & _ & _ & Hstorage).
    rewrite (Hstorage Hb), Hrooms. now apply startup_of_persisted.
  - unfold startup, loadRooms. now destruct (isBrowser env).
  - intros Hb storage. unfold startup, loadRooms. now rewrite Hb.
Qed.

Lemma storage_round_trip_witness :
  startup Number_toString Number_toBoolean browser
    (Store.storage (Store.invoke browser (JoinRoom sample_id bia)
                      (Store.invoke browser sample_call fresh_store)))
  = two_rooms.
Proof.
  rewrite (proj1 (storage_round_trip Number_toString Number_toBoolean browser)
             (JoinRoom sample_id bia)
             (Store.invoke browser sample_call fresh_store) two_rooms
             eq_refl eq_refl eq_refl).
  reflexivity.
Defined.

(** * Properties of the application *)

(** ** Trimming and splitting *)

Lemma trimStart_idem s : trimStart (trimStart s) = trimStart s.
Proof.
  induction s as [|c s IH]; simpl; auto.
  destruct (is_ws c) eqn:E; auto. simpl. now rewrite E.
Qed.

Lemma trimStart_snoc s c :
  is_ws c = false -> trimStart (s ++ [c]) = trimStart s ++ [c].
Proof.
  intros E. induction s as [|x s IH]; simpl.
  - now rewrite E.
  - destruct (is_ws x); auto.
Qed.

Lemma trim_trimmed s : trimmed (trim s).
Proof.
  unfold trimmed, trim, trimEnd. rewrite rev_involutive, trimStart_idem.
  split; auto.
  destruct (trimStart s) as [|c rest] eqn:E; [reflexivity|].
  pose proof (trimStart_head _ E) as Hc. simpl rev.
  rewrite trimStart_snoc by assumption. rewrite rev_app_distr. simpl.
  now rewrite Hc.
Qed.

Lemma trimmed_trim s : trimmed s -> trim s = s.
Proof.
  intros [H1 H2]. unfold trim, trimEnd. rewrite H1, H2. apply rev_involutive.
Qed.

Lemma trim_idem s : trim (trim s) = trim s.
Proof. apply trimmed_trim, trim_trimmed. Qed.

Lemma trimStart_incl s c : In c (trimStart s) -> In c s.
Proof.
  induction s as [|x s IH]; simpl; auto.
  destruct (is_ws x); simpl; auto.
Qed.

Lemma trim_incl s c : In c (trim s) -> In c s.
Proof.
  unfold trim, trimEnd. intros H. apply in_rev in H.
  apply trimStart_incl in H. apply in_rev in H. now apply trimStart_incl.
Qed.

Lemma ws_star_tail_total s : exists n, ws_star (fun _ => Some O) s = Some n.
Proof.
  induction s as [|c s [n IH]]; simpl; eauto.
  destruct (is_ws c); eauto. rewrite IH. eauto.
Qed.

(** A comma and a line feed always begin a separator. *)
Lemma separator_at_mark c s :
  c = 44%N \/ c = 10%N -> exists len, separator (c :: s) = Some (S len).
Proof.
  intros Hc. destruct (ws_star_tail_total s) as [n Hn].
  unfold separator.
  set (rest := fun s1 : jsstring =>
                 match s1 with
                 | c0 :: s2 =>
                     if ((c0 =? 44) || (c0 =? 10))%N
                     then option_map S (ws_star (fun _ => Some O) s2)
                     else None
                 | [] => None
                 end).
  assert (Hrest : rest (c :: s) = Some (S n))
    by (destruct Hc; subst c; unfold rest; simpl; now rewrite Hn).
  cbn [ws_star]. destruct Hc; subst c.
  - change (is_ws 44) with false. cbv iota. eauto.
  - change (is_ws 10) with true. cbv iota.
    destruct (ws_star rest s) as [m|]; eauto.
Qed.

Lemma split_from_marks s skip piece :
  (forall c, In c piece -> c <> 44%N /\ c <> 10%N) ->
  Forall (fun p => forall c, In c p -> c <> 44%N /\ c <> 10%N)
    (split_from s skip piece).
Proof.
  revert skip piece. induction s as [|c s IH]; intros skip piece Hp; simpl.
  - constructor; auto. intros x Hx. apply Hp. now apply in_rev.
  - destruct skip as [|k]; [|now apply IH].
    assert (Hkeep : forall x, In x (c :: piece) ->
                              separator (c :: s) = None \/
                              separator (c :: s) = Some O ->
                              x <> 44%N /\ x <> 10%N).
    { intros x [<-|Hx] Hsep; [|now apply Hp].
      split; intros E;
        (destruct (@separator_at_mark c s) as [len Hl]; [auto|]);
        destruct Hsep; congruence. }
    destruct (separator (c :: s)) as [[|len]|] eqn:E.
    + apply IH. intros x Hx. apply Hkeep; auto.
    + constructor.
      * intros x Hx. apply Hp. now apply in_rev.
      * apply IH. intros x [].
    + apply IH. intros x Hx. apply Hkeep; auto.
Qed.

(** X17.  Every card of a deck parsed from the form is a non-empty string
    without white space at either end and without comma or line feed; and
    what [resolveDeck] makes of the parsed deck is the deck itself, that is
    the preview of the landing view, unless the preview is empty, when it is
    the single card [?]. *)
Theorem parsed_deck_is_clean input :
  Forall (fun card =>
            card <> [] /\ trimmed card
            /\ ~ In 44%N card /\ ~ In 10%N card)
    (parseCustomDeck input)
  /\ parseCustomDeck input = customDeckPreview input
  /\ (customDeckPreview input <> [] ->
      resolveDeck custom (customDeck_of_form custom input) = customDeckPreview input)
  /\ (customDeckPreview input = [] ->
      resolveDeck custom (customDeck_of_form custom input) = [lit "?"]).
Proof.
  assert (Hclean : Forall (fun card =>
                             card <> [] /\ trimmed card
                             /\ ~ In 44%N card /\ ~ In 10%N card)
                     (parseCustomDeck input)).
  { unfold parseCustomDeck. apply Forall_forall. intros card Hin.
    apply filter_In in Hin as [Hin Hne].
    apply in_map_iff in Hin as [piece [E Hpiece]]. subst card.
    pose proof (@split_from_marks input O [] (fun c (H : In c []) =>
                                                match H with end)) as Hmarks.
    eapply Forall_forall in Hmarks; [|exact Hpiece].
    split; [intros E; rewrite E in Hne; discriminate|].
    split; [apply trim_trimmed|].
    split; intros Hc; apply trim_incl in Hc; now destruct (Hmarks _ Hc). }
  split; [exact Hclean|]. split; [reflexivity|].
  assert (Hfix : filter nonempty (List.map trim (parseCustomDeck input))
                 = parseCustomDeck input).
  { induction Hclean as [|card deck (Hne & Htrim & _) _ IH]; simpl; auto.
    rewrite (trimmed_trim Htrim), IH.
    destruct card; [congruence | reflexivity]. }
  simpl. rewrite Hfix. clear Hfix Hclean.
  unfold customDeckPreview, parseCustomDeck.
  destruct (filter nonempty (List.map trim (split input))); split;
    try reflexivity; try discriminate.
  intros H. now destruct H.
Qed.

Lemma parsed_deck_is_clean_witness :
  resolveDeck custom (customDeck_of_form custom typed_deck)
  = List.map lit ["1"; "2"; "3"; "5"]%string
  /\ resolveDeck custom (customDeck_of_form custom (lit " , ,")) = [lit "?"].
Proof.
  split.
  - rewrite (proj1 (proj2 (proj2 (parsed_deck_is_clean typed_deck)))).
    + reflexivity.
    + vm_compute. discriminate.
  - apply (proj2 (proj2 (proj2 (parsed_deck_is_clean (lit " , ,"))))).
    reflexivity.
Defined.

(** ** Creating a room from the form *)

Lemma trimmed_head s c rest : trimmed s -> s = c :: rest -> is_ws c = false.
Proof. intros [H _] E. rewrite E in H. now apply trimStart_head in H. Qed.

Lemma trimmed_with_suffix t :
  t <> [] -> trimmed t -> trimmed (t ++ lit " - Planning Poker").
Proof.
  intros Hne Ht. destruct t as [|c rest]; [congruence|].
  pose proof (trimmed_head Ht eq_refl) as Hc. split.
  - simpl. now rewrite Hc.
  - rewrite rev_app_distr. reflexivity.
Qed.

(** X18.  [handleCreateRoom] creates nothing for a session whose name is
    blank, and reports it.  Otherwise the room is created and becomes the
    current room, with the errors cleared; its host is the session, under
    the trimmed name and the time of the call; its name is the typed name
    trimmed, or the name of the host followed by [ - Planning Poker] when
    nothing is typed, so that the placeholder [Sala sem nome] of
    [createRoom] is never used. *)
Theorem handleCreateRoom_creates draw now_joined now_id now_created values app rooms
    who :
  session app = Some who ->
  let result :=
    handleCreateRoom draw now_joined now_id now_created values app rooms in
  (trim (ParticipantProfile.name who) = [] ->
   snd result = rooms
   /\ currentRoomId (fst result) = currentRoomId app
   /\ err_session (errors (fst result))
      = Some (lit "Informe um nome antes de criar uma sala."))
  /\ (trim (ParticipantProfile.name who) <> [] ->
      errors (fst result) = no_errors
      /\ exists id r,
          currentRoomId (fst result) = Some id
          /\ get id (snd result) = Some r
          /\ RoomState.hostId r = ParticipantProfile.id who
          /\ get (ParticipantProfile.id who) (RoomState.participants r)
             = Some (ParticipantProfile.mk (ParticipantProfile.id who)
                       (trim (ParticipantProfile.name who))
                       (ParticipantProfile.avatarColor who) now_joined)
          /\ (trim (roomName values) <> [] ->
              RoomState.name r = trim (roomName values))
          /\ (trim (roomName values) = [] ->
              RoomState.name r
              = trim (ParticipantProfile.name who) ++ lit " - Planning Poker")
          /\ (trim (roomName values) <> lit "Sala sem nome" ->
              RoomState.name r <> lit "Sala sem nome")).
Proof.
  intros Hs result. subst result. unfold handleCreateRoom. rewrite Hs.
  destruct (trim (ParticipantProfile.name who)) as [|c t] eqn:Et.
  - split; [|congruence]. intros _. repeat split.
  - split; [congruence|]. intros _. split; [reflexivity|].
    assert (Htrimmed : trimmed (c :: t)) by (rewrite <- Et; apply trim_trimmed).
    unfold createRoom, updateRooms. cbn [fst snd currentRoomId opt_name opt_host
      opt_deckType opt_customDeck committed].
    rewrite assign_generated.
    eexists. eexists. split; [reflexivity|]. rewrite get_set_eq.
    split; [reflexivity|]. cbn [RoomState.hostId RoomState.participants
      RoomState.name ParticipantProfile.id ParticipantProfile.name
      ParticipantProfile.avatarColor ParticipantProfile.joinedAt].
    split; [reflexivity|]. split; [unfold get; now rewrite eqb_refl|].
    destruct (trim (roomName values)) as [|x typed] eqn:Er.
    + assert (Hfix : trim ((c :: t) ++ lit " - Planning Poker")
                     = (c :: t) ++ lit " - Planning Poker")
        by (apply trimmed_trim, trimmed_with_suffix; [discriminate | assumption]).
      rewrite Hfix. cbn [List.app]. repeat split; try congruence.
      intros _ E. apply (f_equal (@length N)) in E.
      simpl in E. rewrite length_app in E. simpl in E. lia.
    + assert (Hfix : trim (x :: typed) = x :: typed)
        by (rewrite <- Er; apply trim_idem).
      rewrite Hfix. repeat split; congruence.
Qed.

Lemma handleCreateRoom_creates_witness :
  let result :=
    handleCreateRoom sample_draw 1700000000500 1700000000000 1700000000001
      blank_form ana_app [] in
  currentRoomId (fst result) = Some sample_id
  /\ exists r,
      get sample_id (snd result) = Some r
      /\ RoomState.name r = lit "Ana - Planning Poker"
      /\ RoomState.deckValues r = List.map lit ["XS"; "S"; "M"]%string.
Proof.
  intros result.
  destruct (@handleCreateRoom_creates sample_draw 1700000000500 1700000000000
              1700000000001 blank_form ana_app []
              (ParticipantProfile.mk (lit "U1") (lit " Ana ") (lit "#3498db")
                 1700000000100) eq_refl)
    as [_ Hcreated].
  destruct Hcreated as (_ & id & r & Hid & G & _ & _ & _ & Hname & _).
  - vm_compute. discriminate.
  - fold result in Hid, G. split; [reflexivity|].
    assert (E : id = sample_id) by (vm_compute in Hid; now inversion Hid).
    subst id. exists r. split; [exact G|]. split.
    + rewrite Hname; reflexivity.
    + vm_compute in G. inversion G. reflexivity.
Defined.

(** ** The effects of [App] *)

(** X19.  The effect that copies the profile makes at most one call for a
    session that is a participant of the room: after the call it asks for,
    on a room that is stored under its id, the participant has the name and
    the colour of the session, keeps its [joinedAt], and the effect asks for
    nothing more. *)
Theorem profileEffect_settles rooms roomId r who before c :
  get roomId rooms = Some r ->
  RoomState.id r = roomId ->
  get (ParticipantProfile.id who) (RoomState.participants r) = Some before ->
  profileEffect (Own r) (Some who) = Normal (Some c) ->
  exists r' after,
    attempt c rooms = Normal (perform c rooms)
    /\ get roomId (perform c rooms) = Some r'
    /\ get (ParticipantProfile.id who) (RoomState.participants r') = Some after
    /\ ParticipantProfile.name after = ParticipantProfile.name who
    /\ ParticipantProfile.avatarColor after = ParticipantProfile.avatarColor who
    /\ ParticipantProfile.joinedAt after = ParticipantProfile.joinedAt before
    /\ profileEffect (Own r') (Some who) = Normal None.
Proof.
  intros G Hid Gp Hc. unfold profileEffect in Hc.
  rewrite (lookup_own _ _ Gp) in Hc.
  destruct (_ && _); [discriminate|]. inversion Hc; subst c. clear Hc.
  rewrite Hid. simpl. on_room G. rewrite (lookup_own _ _ Gp). cbn [committed].
  rewrite assign_own by (apply has_get; eauto). rewrite get_set_eq.
  eexists. eexists. split; [reflexivity|]. split; [reflexivity|].
  destruct r; simpl in *. rewrite get_set_eq.
  split; [reflexivity|]. simpl. repeat split.
  unfold profileEffect. simpl. rewrite (lookup_own _ _ (get_set_eq _ _ _)).
  simpl. now rewrite !eqb_refl.
Qed.

Lemma profileEffect_settles_witness :
  let renamed := ParticipantProfile.mk (lit "U2") (lit "Beatriz") (lit "#e67e22") 0 in
  exists c r',
    profileEffect (useRoom (Some sample_id) two_rooms) (Some renamed)
    = Normal (Some c)
    /\ get sample_id (perform c two_rooms) = Some r'
    /\ profileEffect (Own r') (Some renamed) = Normal None.
Proof.
  intros renamed.
  set (c := UpdateParticipantProfile sample_id (lit "U2")
              {| upd_name := Some (lit "Beatriz");
                 upd_avatarColor := Some (lit "#e67e22") |}).
  destruct (@profileEffect_settles two_rooms sample_id two_room renamed bia c)
    as (r' & after & _ & G & _ & _ & _ & _ & Hdone).
  - vm_compute. reflexivity.
  - reflexivity.
  - vm_compute. reflexivity.
  - vm_compute. reflexivity.
  - exists c, r'. split; [vm_compute; reflexivity|]. split; assumption.
Defined.

(** X20.  Leaving and being removed both end on the landing view.
    [handleLeaveRoom] takes the session out of the current room, which is
    deleted when nobody is left, and sets the current room to [null]; it does
    nothing when the current room id is ordinary and the table has no room
    under it.  Somebody with an ordinary id whom the host removes from a
    room that stays has the current room set to [null] by the effect on the
    room, which leaves the state as it is while the session is in the room,
    and also when there is no room. *)
Theorem leaving_goes_back_to_landing rooms roomId r app who :
  reachable rooms ->
  get roomId rooms = Some r ->
  session app = Some who ->
  (currentRoomId app = Some roomId ->
   handleLeaveRoom app rooms
   = Normal ({| session := Some who; currentRoomId := None; errors := errors app |},
             leaveRoom roomId (ParticipantProfile.id who) rooms)
   /\ forall r',
        get roomId (leaveRoom roomId (ParticipantProfile.id who) rooms) = Some r' ->
        get (ParticipantProfile.id who) (RoomState.participants r') = None)
  /\ (forall missing,
        ordinary missing = true -> get missing rooms = None ->
        currentRoomId app = Some missing ->
        handleLeaveRoom app rooms = Normal (app, rooms))
  /\ (ordinary (ParticipantProfile.id who) = true ->
      delete (ParticipantProfile.id who) (RoomState.participants r) <> [] ->
      leftRoomEffect
        (useRoom (Some roomId)
           (removeParticipant roomId (ParticipantProfile.id who) rooms))
        app
      = Normal {| session := Some who; currentRoomId := None; errors := errors app |})
  /\ (has (ParticipantProfile.id who) (RoomState.participants r) = true ->
      leftRoomEffect (Own r) app = Normal app)
  /\ leftRoomEffect Undefined app = Normal app.
Proof.
  intros Hreach G Hs.
  destruct (reachable_keyed Hreach _ _ (get_In _ _ G)) as [Hid Hroom].
  assert (Huse : forall table, useRoom (Some roomId) table = lookup roomId table).
  { intros table. unfold useRoom. destruct roomId; [congruence | reflexivity]. }
  split; [|split; [|split; [|split]]].
  - intros Hcur. unfold handleLeaveRoom. rewrite Hcur, Huse, (lookup_own _ _ G), Hs.
    rewrite Hid. unfold leaveRoom. on_room G.
    destruct (keys (delete _ (RoomState.participants r))) eqn:K; cbn [committed].
    + split; [reflexivity|]. intros r' G'. now rewrite get_delete_eq in G'.
    + split; [reflexivity|]. intros r' G'.
      rewrite get_set_eq in G'. inversion G'; subst r'.
      destruct r; simpl. apply get_delete_eq.
  - intros missing Hm Gm Hcur. unfold handleLeaveRoom, useRoom. rewrite Hcur.
    destruct missing; auto.
    rewrite lookup_ordinary by assumption. now rewrite Gm.
  - intros Hwho Hrest. rewrite Huse. on_room G.
    destruct (keys (delete _ (RoomState.participants r))) as [|first rest] eqn:K.
    { now apply keys_not_nil in Hrest. }
    cbn [committed]. rewrite (lookup_own _ _ (get_set_eq _ _ _)).
    unfold leftRoomEffect. rewrite Hs.
    destruct r; simpl. rewrite lookup_ordinary by assumption.
    now rewrite get_delete_eq.
  - intros Hin. unfold leftRoomEffect. rewrite Hs.
    apply has_get in Hin as [p Hp]. now rewrite (lookup_own _ _ Hp).
  - unfold leftRoomEffect. now destruct (session app).
Qed.

Lemma leaving_goes_back_to_landing_witness :
  let bia_app :=
    {| session := Some bia; currentRoomId := Some sample_id; errors := no_errors |} in
  let landed :=
    {| session := Some bia; currentRoomId := None; errors := no_errors |} in
  handleLeaveRoom bia_app two_rooms = Normal (landed, sample_rooms)
  /\ leftRoomEffect
       (useRoom (Some sample_id) (removeParticipant sample_id (lit "U2") two_rooms))
       bia_app = Normal landed
  /\ leftRoomEffect (Own two_room) bia_app = Normal bia_app.
Proof.
  intros bia_app landed.
  assert (R : reachable two_rooms)
    by (apply reachable_call, reachable_call, reachable_empty).
  destruct (@leaving_goes_back_to_landing two_rooms sample_id two_room bia_app bia R)
    as (Hleave & _ & Hgone & Hstays & _).
  - vm_compute. reflexivity.
  - reflexivity.
  - destruct (Hleave eq_refl) as (Hleft & _).
    split; [rewrite Hleft; reflexivity|]. split.
    + apply Hgone; [reflexivity | vm_compute; discriminate].
    + apply Hstays. vm_compute. reflexivity.
Defined.

(** ** The session and joining from the form *)

Lemma first_digits_upper draw n :
  Forall (fun d => (d < 36)%N) draw ->
  forallb is_upper_alnum
    (toUpperCase (firstn n (skipn 2 (random_toString36 draw)))) = true.
Proof.
  intros Hdraw. apply forallb_forall. intros c Hc.
  apply in_map_iff in Hc as [c' [E Hc]]. subst c.
  assert (Hall : Forall (fun c => is_upper_alnum (upper c) = true)
                   (firstn n (skipn 2 (random_toString36 draw)))).
  { apply Forall_firstn. destruct draw as [|d draw]; [constructor|].
    change (skipn 2 (random_toString36 (d :: draw)))
      with (List.map digit36 (d :: draw)).
    apply Forall_forall. intros x Hx.
    apply in_map_iff in Hx as [y [E Hy]]. subst x.
    apply digit36_upper. eapply Forall_forall in Hdraw; eauto. }
  eapply Forall_forall in Hall; eauto.
Qed.

(** X21.  The session of the application always has an id: a stored session
    with an id is taken as it is, and the id that is generated otherwise is
    [USR-] followed by at most six characters, which are of [0-9A-Z] for a
    draw of digits below 36 and six when the draw renders with six digits
    or more.  A stored session without an id is not used. *)
Theorem session_has_an_id stored draw now :
  ParticipantProfile.id (ensureSession (loadStoredSession stored) draw now) <> []
  /\ (forall parsed, stored = Some parsed -> ParticipantProfile.id parsed <> [] ->
        ensureSession (loadStoredSession stored) draw now = parsed)
  /\ (forall parsed, stored = Some parsed -> ParticipantProfile.id parsed = [] ->
        loadStoredSession stored = None)
  /\ exists random,
      generateSessionId draw = lit "USR-" ++ random
      /\ length random <= 6
      /\ (Forall (fun d => (d < 36)%N) draw ->
          forallb is_upper_alnum random = true
          /\ (6 <= length draw -> length random = 6)).
Proof.
  split; [|split; [|split]].
  - unfold loadStoredSession. destruct stored as [parsed|]; [|discriminate].
    destruct (ParticipantProfile.id parsed) eqn:E; simpl; [discriminate|].
    rewrite E. discriminate.
  - intros parsed -> Hid. simpl.
    destruct (ParticipantProfile.id parsed); [congruence | reflexivity].
  - intros parsed -> Hid. simpl. now rewrite Hid.
  - eexists. split; [reflexivity|]. unfold toUpperCase, slice.
    rewrite length_map, length_firstn. split; [lia|].
    intros Hdraw. split; [now apply first_digits_upper|].
    intros Hlen. destruct draw as [|d draw]; [simpl in Hlen; lia|].
    change (skipn 2 (random_toString36 (d :: draw)))
      with (List.map digit36 (d :: draw)).
    rewrite length_map. cbn [length] in *. lia.
Qed.

Lemma session_has_an_id_witness :
  ensureSession
    (loadStoredSession (Some (ParticipantProfile.mk [] (lit "Ana") DEFAULT_COLOR 5)))
    sample_draw 1700000000000
  = ParticipantProfile.mk (lit "USR-AB127U") [] DEFAULT_COLOR 1700000000000.
Proof.
  destruct (session_has_an_id
              (Some (ParticipantProfile.mk [] (lit "Ana") DEFAULT_COLOR 5))
              sample_draw 1700000000000) as (_ & _ & Hnone & _).
  rewrite (Hnone _ eq_refl eq_refl). reflexivity.
Defined.

(** [handleJoinRoom] on a room of the table, for a session with a name. *)
Lemma handleJoinRoom_own (up : jsstring -> jsstring) now typed app rooms who r :
  session app = Some who ->
  trim (ParticipantProfile.name who) <> [] ->
  get (up (trim typed)) rooms = Some r ->
  handleJoinRoom up now typed app rooms
  = Normal
      ({| session := Some who;
          currentRoomId := Some (up (trim typed));
          errors := no_errors |},
       snd (joinRoom (up (trim typed))
              (ParticipantProfile.mk (ParticipantProfile.id who)
                 (trim (ParticipantProfile.name who))
                 (ParticipantProfile.avatarColor who) now)
              rooms)).
Proof.
  intros Hs Hname G. unfold handleJoinRoom. rewrite Hs.
  destruct (trim (ParticipantProfile.name who)) as [|c t] eqn:Et; [congruence|].
  now rewrite (@joinRoom_own (up (trim typed)) _ rooms r G).
Qed.

(** X22.  [handleJoinRoom] looks for the room under the typed text trimmed
    and in upper case.  When this id is ordinary and the table has no such
    room, the table and the current room stay and the join error is the
    reason given by [joinRoom]; when the table has the room, the room
    becomes the current room, the errors are cleared and a session whose id
    is not [__proto__] is a participant of the room under its trimmed
    name. *)
Theorem handleJoinRoom_by_id (up : jsstring -> jsstring) now typed app rooms who :
  session app = Some who ->
  trim (ParticipantProfile.name who) <> [] ->
  let roomId := up (trim typed) in
  let result := handleJoinRoom up now typed app rooms in
  (ordinary roomId = true -> get roomId rooms = None ->
   exists app',
     result = Normal (app', rooms)
     /\ currentRoomId app' = currentRoomId app
     /\ err_join (errors app') = Some not_found)
  /\ (forall r, get roomId rooms = Some r ->
        exists app' rooms',
          result = Normal (app', rooms')
          /\ currentRoomId app' = Some roomId
          /\ errors app' = no_errors
          /\ (ParticipantProfile.id who <> proto ->
              exists r' p,
                get roomId rooms' = Some r'
                /\ get (ParticipantProfile.id who) (RoomState.participants r')
                   = Some p
                /\ ParticipantProfile.name p = trim (ParticipantProfile.name who)
                /\ ParticipantProfile.avatarColor p
                   = ParticipantProfile.avatarColor who)).
Proof.
  intros Hs Hname roomId result. subst roomId result. split.
  - intros Hid G. unfold handleJoinRoom. rewrite Hs.
    destruct (trim (ParticipantProfile.name who)) as [|c t] eqn:Et; [congruence|].
    unfold joinRoom. rewrite lookup_ordinary by assumption. rewrite G.
    cbn [fst snd success negb reason]. eexists. repeat split.
  - intros r G. rewrite (@handleJoinRoom_own up now typed app rooms who r Hs Hname G).
    eexists. eexists. split; [reflexivity|]. split; [reflexivity|].
    split; [reflexivity|]. intros Hproto.
    rewrite (@joinRoom_own (up (trim typed)) _ rooms r G).
    cbn [snd ParticipantProfile.id ParticipantProfile.name
      ParticipantProfile.avatarColor ParticipantProfile.joinedAt]. cbn zeta.
    rewrite get_set_eq.
    eexists. eexists. split; [reflexivity|].
    cbn [RoomState.participants RoomState.with_votes RoomState.with_participants].
    split; [rewrite assign_not_proto by assumption; apply get_set_eq|].
    split; reflexivity.
Qed.

Lemma handleJoinRoom_by_id_witness :
  let bia_app :=
    {| session := Some bia; currentRoomId := None; errors := no_errors |} in
  (exists app' rooms',
     handleJoinRoom toUpperCase 1700000001000 (lit " ab12-3v28 ") bia_app
       sample_rooms = Normal (app', rooms')
     /\ currentRoomId app' = Some sample_id)
  /\ exists app',
      handleJoinRoom toUpperCase 1700000001000 (lit "zzzz-0000") bia_app sample_rooms
      = Normal (app', sample_rooms)
      /\ err_join (errors app') = Some not_found.
Proof.
  intros bia_app.
  destruct (@handleJoinRoom_by_id toUpperCase 1700000001000 (lit " ab12-3v28 ")
              bia_app sample_rooms bia eq_refl) as [_ Hfound].
  { vm_compute. discriminate. }
  destruct (@handleJoinRoom_by_id toUpperCase 1700000001000 (lit "zzzz-0000")
              bia_app sample_rooms bia eq_refl) as [Hmissing _].
  { vm_compute. discriminate. }
  split.
  - destruct (Hfound (RoomState.mk sample_id (lit "Sprint 12") fibonacci
                        PRESET_DECKS_fibonacci (lit "U1") [(lit "U1", ana)]
                        [(lit "U1", None)] false 1700000000001))
      as (app' & rooms' & E & Hcur & _).
    + vm_compute. reflexivity.
    + exists app', rooms'. split; [exact E | exact Hcur].
  - destruct Hmissing as (app' & E & _ & Herr).
    + vm_compute. reflexivity.
    + vm_compute. reflexivity.
    + exists app'. split; [exact E | exact Herr].
Defined.

Ltac decide_tests :=
  repeat (match goal with
          | H : context [(?a <=? ?b)%N] |- _ => destruct (N.leb_spec a b)
          | H : context [(?a =? ?b)%N] |- _ => destruct (N.eqb_spec a b)
          end; try lia; simpl in *; try discriminate).

Lemma id_char_not_ws c : id_char c = true -> is_ws c = false.
Proof.
  unfold id_char, is_upper_alnum. intros H. apply not_true_is_false. intros W.
  unfold is_ws in W. decide_tests.
Qed.

Lemma id_char_upper c : id_char c = true -> upper c = c.
Proof.
  unfold id_char, is_upper_alnum, upper. intros H.
  destruct ((97 <=? c) && (c <=? 122))%N eqn:E; auto. decide_tests.
Qed.

Lemma toUpperCase_id_chars s : forallb id_char s = true -> toUpperCase s = s.
Proof.
  unfold toUpperCase. induction s as [|c s IH]; simpl; auto.
  intros H. apply andb_true_iff in H as [Hc Hs].
  now rewrite (id_char_upper _ Hc), IH.
Qed.

Lemma forallb_id_char_of_alnum s :
  forallb is_upper_alnum s = true -> forallb id_char s = true.
Proof.
  intros H. apply forallb_forall. intros c Hc.
  unfold id_char. rewrite (proj1 (forallb_forall _ _) H c Hc). reflexivity.
Qed.

Lemma generateRoomId_chars draw now :
  Forall (fun d => (d < 36)%N) draw -> (0 <= now)%Z ->
  forallb id_char (generateRoomId draw now) = true.
Proof.
  intros Hdraw Hnow. unfold generateRoomId, slice. change (6 - 2) with 4.
  rewrite !forallb_app.
  rewrite (forallb_id_char_of_alnum _ (first_digits_upper 4 Hdraw)). simpl.
  apply forallb_id_char_of_alnum. apply forallb_forall. intros c Hc.
  apply in_map_iff in Hc as [c' [E Hc]]. subst c.
  unfold slice_last, Z_toString in Hc.
  assert (E : (now <? 0)%Z = false) by (apply Z.ltb_ge; lia). rewrite E in Hc.
  set (ds := digits 36 (S (N.to_nat (N.log2 (Z.abs_N now)))) (Z.abs_N now) []) in *.
  assert (Hall : Forall (fun c => is_upper_alnum (upper c) = true)
                   (skipn (length ds - 4) ds)).
  { apply Forall_skipn. apply digits_upper; [lia | constructor]. }
  eapply Forall_forall in Hall; eauto.
Qed.

Lemma trimStart_padding pad s :
  forallb is_ws pad = true -> trimStart (pad ++ s) = trimStart s.
Proof.
  induction pad as [|c pad IH]; simpl; auto.
  intros H. apply andb_true_iff in H as [Hc Hp]. rewrite Hc. auto.
Qed.

Lemma trim_padding pad1 pad2 s :
  forallb is_ws pad1 = true -> forallb is_ws pad2 = true ->
  trimmed s -> trim (pad1 ++ s ++ pad2) = s.
Proof.
  intros H1 H2 [Hs Hr]. unfold trim, trimEnd.
  rewrite trimStart_padding by assumption.
  destruct s as [|c rest].
  - simpl. assert (E : trimStart pad2 = []) by now apply trimStart_nil.
    now rewrite E.
  - assert (Hc : is_ws c = false) by (now apply trimStart_head in Hs).
    cbn [List.app trimStart]. rewrite Hc.
    change (c :: rest ++ pad2) with ((c :: rest) ++ pad2).
    rewrite rev_app_distr, trimStart_padding, Hr.
    + apply rev_involutive.
    + now rewrite forallb_rev_ws.
Qed.

Lemma no_ws_trimmed s : forallb id_char s = true -> trimmed s.
Proof.
  intros H. split.
  - destruct s as [|c rest]; auto. simpl in *.
    apply andb_true_iff in H as [Hc _]. now rewrite (id_char_not_ws _ Hc).
  - assert (Hrev : forallb id_char (rev s) = true).
    { apply forallb_forall. intros c Hc. apply in_rev in Hc.
      exact (proj1 (forallb_forall _ _) H c Hc). }
    destruct (rev s) as [|c rest]; auto. simpl in *.
    apply andb_true_iff in Hrev as [Hc _]. now rewrite (id_char_not_ws _ Hc).
Qed.

(** X23.  The id that [createRoom] returns joins the room when it is typed
    in the form, with or without white space around it: for a draw of digits
    below 36 and a clock that is not negative, the id is left alone by the
    trimming and, being made of [0-9A-Z] and the dash, by [toUpperCase], so
    that [handleJoinRoom] finds the room and makes it the current room; a
    session whose id is not [__proto__] becomes a participant, beside the
    host. *)
Theorem created_room_can_be_joined (up : jsstring -> jsstring)
    draw now_id now_created options rooms now pad1 pad2 app who :
  (forall s, forallb id_char s = true -> up s = s) ->
  Forall (fun d => (d < 36)%N) draw -> (0 <= now_id)%Z ->
  session app = Some who -> trim (ParticipantProfile.name who) <> [] ->
  ParticipantProfile.id who <> proto ->
  forallb is_ws pad1 = true -> forallb is_ws pad2 = true ->
  let created := createRoom draw now_id now_created options rooms in
  exists app' rooms',
    handleJoinRoom up now (pad1 ++ fst created ++ pad2) app (snd created)
    = Normal (app', rooms')
    /\ currentRoomId app' = Some (fst created)
    /\ errors app' = no_errors
    /\ exists r',
        get (fst created) rooms' = Some r'
        /\ has (ParticipantProfile.id who) (RoomState.participants r') = true
        /\ has (ParticipantProfile.id (opt_host options)) (RoomState.participants r')
           = true
        /\ RoomState.hostId r' = ParticipantProfile.id (opt_host options).
Proof.
  intros Hup Hdraw Hnow Hs Hname Hproto H1 H2 created. subst created.
  pose proof (generateRoomId_chars Hdraw Hnow) as Hchars.
  assert (Hid : up (trim (pad1 ++ generateRoomId draw now_id ++ pad2))
                = generateRoomId draw now_id).
  { rewrite (trim_padding _ _ H1 H2 (no_ws_trimmed _ Hchars)). now apply Hup. }
  unfold createRoom, updateRooms. cbn [fst snd committed].
  rewrite assign_generated.
  match goal with
  | |- context [set ?id ?room rooms] =>
      pose proof (get_set_eq id room rooms) as G
  end.
  rewrite <- Hid in G at 1.
  rewrite (@handleJoinRoom_own up now _ app _ who _ Hs Hname G).
  rewrite (@joinRoom_own _ _ _ _ G). rewrite Hid.
  cbn [snd ParticipantProfile.id ParticipantProfile.name
    ParticipantProfile.avatarColor ParticipantProfile.joinedAt]. cbn zeta.
  eexists. eexists. split; [reflexivity|]. split; [reflexivity|].
  split; [reflexivity|].
  rewrite get_set_eq. eexists. split; [reflexivity|].
  cbn [RoomState.participants RoomState.with_votes RoomState.with_participants
    RoomState.hostId ParticipantProfile.id].
  rewrite assign_not_proto by assumption.
  rewrite !has_set, !eqb_refl. simpl.
  split; [reflexivity|]. split; [|reflexivity].
  unfold has. simpl. rewrite eqb_refl. apply orb_true_r.
Qed.

Lemma created_room_can_be_joined_witness :
  let bia_app :=
    {| session := Some bia; currentRoomId := None; errors := no_errors |} in
  let created :=
    createRoom sample_draw 1700000000000 1700000000001 sample_options [] in
  exists app' rooms',
    handleJoinRoom toUpperCase 1700000001000 (lit "  " ++ fst created ++ lit " ")
      bia_app (snd created) = Normal (app', rooms')
    /\ currentRoomId app' = Some sample_id.
Proof.
  intros bia_app created.
  destruct (@created_room_can_be_joined toUpperCase sample_draw 1700000000000
              1700000000001 sample_options [] 1700000001000 (lit "  ") (lit " ")
              bia_app bia toUpperCase_id_chars)
    as (app' & rooms' & E & Hcur & _).
  - repeat constructor.
  - lia.
  - reflexivity.
  - vm_compute. discriminate.
  - vm_compute. discriminate.
  - reflexivity.
  - reflexivity.
  - exists app', rooms'. split; [exact E | exact Hcur].
Defined.

(** * Properties of the room view *)

Section SortFacts.
Variable A : Type.
Variable before : A -> A -> bool.
Hypothesis before_total : forall a b, before a b = true \/ before b a = true.
Hypothesis before_trans :
  forall a b c, before a b = true -> before b c = true -> before a c = true.

Lemma insert_sorted_perm x l : Permutation (insert_sorted before x l) (x :: l).
Proof.
  induction l as [|y l IH]; simpl; auto.
  destruct (before x y); auto.
  rewrite IH. apply perm_swap.
Qed.

Lemma sort_perm l : Permutation (sort before l) l.
Proof.
  induction l as [|x l IH]; simpl; auto.
  rewrite insert_sorted_perm. now constructor.
Qed.

Lemma insert_sorted_sorted x l :
  StronglySorted (fun a b => before a b = true) l ->
  StronglySorted (fun a b => before a b = true) (insert_sorted before x l).
Proof.
  induction 1 as [|y l Hs IH Hy]; simpl.
  - repeat constructor.
  - destruct (before x y) eqn:E.
    + constructor; [now constructor|].
      constructor; auto.
      eapply Forall_impl; [|exact Hy]. intros z Hz. eauto.
    + constructor; auto.
      apply Forall_forall. intros z Hz.
      apply (Permutation_in _ (insert_sorted_perm x l)) in Hz.
      destruct Hz as [<-|Hz].
      * destruct (before_total x y); congruence.
      * eapply Forall_forall in Hy; eauto.
Qed.

Lemma sort_sorted l : StronglySorted (fun a b => before a b = true) (sort before l).
Proof.
  induction l as [|x l IH]; simpl; [constructor | now apply insert_sorted_sorted].
Qed.

Lemma sort_fixed l :
  StronglySorted (fun a b => before a b = true) l -> sort before l = l.
Proof.
  induction 1 as [|x l Hs IH Hx]; simpl; auto.
  rewrite IH. destruct l as [|y l]; simpl; auto.
  inversion Hx; subst. now rewrite H1.
Qed.

End SortFacts.

Lemma sorted_weaken (A : Type) (R R' : A -> A -> Prop) l :
  (forall a b, R a b -> R' a b) -> StronglySorted R l -> StronglySorted R' l.
Proof.
  intros HR. induction 1 as [|x l Hs IH Hx]; constructor; auto.
  eapply Forall_impl; [|exact Hx]. auto.
Qed.

Lemma by_joinedAt_total a b :
  RoomView.by_joinedAt a b = true \/ RoomView.by_joinedAt b a = true.
Proof.
  unfold RoomView.by_joinedAt.
  destruct (Z.leb_spec (ParticipantProfile.joinedAt a) (ParticipantProfile.joinedAt b));
    auto.
  right. apply Z.leb_le. lia.
Qed.

Lemma by_joinedAt_trans a b c :
  RoomView.by_joinedAt a b = true -> RoomView.by_joinedAt b c = true ->
  RoomView.by_joinedAt a c = true.
Proof.
  unfold RoomView.by_joinedAt. rewrite !Z.leb_le. lia.
Qed.

Lemma by_count_total a b :
  RoomView.by_count a b = true \/ RoomView.by_count b a = true.
Proof.
  unfold RoomView.by_count.
  destruct (Nat.leb_spec (snd b) (snd a)); auto.
  right. apply Nat.leb_le. lia.
Qed.

Lemma by_count_trans a b c :
  RoomView.by_count a b = true -> RoomView.by_count b c = true ->
  RoomView.by_count a c = true.
Proof.
  unfold RoomView.by_count. rewrite !Nat.leb_le. lia.
Qed.

(** X24.  The players of the view are the participants of the room, each
    one once, in the order of their [joinedAt]; participants that are
    already enumerated in this order, those with the same [joinedAt] among
    them, keep their order. *)
Theorem players_in_join_order room :
  Permutation (RoomView.participants room)
    (List.map snd (RoomState.participants room))
  /\ StronglySorted
       (fun a b => (ParticipantProfile.joinedAt a <= ParticipantProfile.joinedAt b)%Z)
       (RoomView.participants room)
  /\ (StronglySorted
        (fun a b => (ParticipantProfile.joinedAt a <= ParticipantProfile.joinedAt b)%Z)
        (List.map snd (RoomState.participants room)) ->
      RoomView.participants room = List.map snd (RoomState.participants room)).
Proof.
  unfold RoomView.participants. split; [apply sort_perm|]. split.
  - eapply sorted_weaken;
      [|apply (@sort_sorted _ _ by_joinedAt_total by_joinedAt_trans)].
    intros a b H. now apply Z.leb_le.
  - intros H. apply sort_fixed.
    eapply sorted_weaken; [|exact H].
    intros a b Hab. now apply Z.leb_le.
Qed.

Lemma players_in_join_order_witness :
  RoomView.participants two_room = [ana; bia].
Proof.
  apply (proj2 (proj2 (players_in_join_order two_room))).
  repeat constructor; simpl; lia.
Defined.

(** ** The distribution of the votes *)

Lemma counted_bump vote value counts :
  RoomView.counted value (RoomView.bump vote counts)
  = RoomView.counted value counts + (if JsString.eqb value vote then 1 else 0).
Proof.
  induction counts as [|[v n] counts IH]; simpl.
  - destruct (JsString.eqb value vote); auto.
  - case_key vote v; simpl.
    + destruct (JsString.eqb value v); lia.
    + rewrite IH. destruct (JsString.eqb value v) eqn:Ev; auto.
      apply eqb_eq in Ev. subst v.
      assert (X : JsString.eqb value vote = false) by (apply eqb_neq; congruence).
      rewrite X. lia.
Qed.

Lemma keys_bump vote counts :
  List.map fst (RoomView.bump vote counts)
  = if existsb (JsString.eqb vote) (List.map fst counts)
    then List.map fst counts else List.map fst counts ++ [vote].
Proof.
  induction counts as [|[v n] counts IH]; simpl; auto.
  destruct (JsString.eqb vote v); simpl; auto.
  rewrite IH. destruct (existsb _ _); auto.
Qed.

Lemma bump_NoDup vote counts :
  NoDup (List.map fst counts) -> NoDup (List.map fst (RoomView.bump vote counts)).
Proof.
  intros H. rewrite keys_bump.
  destruct (existsb (JsString.eqb vote) (List.map fst counts)) eqn:E; auto.
  apply NoDup_app; auto.
  - repeat constructor. intros [].
  - intros x Hx [Ex|[]]. subst x.
    assert (X : existsb (JsString.eqb vote) (List.map fst counts) = true)
      by (apply existsb_exists; exists vote; split; [auto | apply eqb_refl]).
    congruence.
Qed.

Lemma bump_positive vote counts :
  Forall (fun entry => snd entry >= 1 /\ fst entry <> []) counts ->
  vote <> [] ->
  Forall (fun entry => snd entry >= 1 /\ fst entry <> []) (RoomView.bump vote counts).
Proof.
  intros H Hv. induction H as [|[v n] counts [Hn Hk] Hrest IH]; simpl.
  - repeat constructor; auto.
  - destruct (JsString.eqb vote v); constructor; simpl in *; auto; split; auto; lia.
Qed.

Lemma count_votes_spec values counts value :
  RoomView.counted value
    (fold_left (fun counts vote =>
                  match vote with
                  | Some (c :: s) => RoomView.bump (c :: s) counts
                  | _ => counts
                  end) values counts)
  = RoomView.counted value counts
    + match value with
      | [] => 0
      | _ :: _ => RoomView.votes_for value values
      end.
Proof.
  revert counts. induction values as [|vote values IH]; intros counts; simpl.
  - destruct value; unfold RoomView.votes_for; simpl; lia.
  - rewrite IH. unfold RoomView.votes_for. simpl.
    destruct vote as [[|c s]|]; simpl.
    + destruct value as [|x value]; reflexivity.
    + rewrite counted_bump. destruct value as [|x value].
      * simpl. lia.
      * destruct (JsString.eqb (x :: value) (c :: s)); simpl; lia.
    + destruct value; reflexivity.
Qed.

Lemma count_votes_shape values counts :
  NoDup (List.map fst counts) ->
  Forall (fun entry => snd entry >= 1 /\ fst entry <> []) counts ->
  let counts' :=
    fold_left (fun counts vote =>
                 match vote with
                 | Some (c :: s) => RoomView.bump (c :: s) counts
                 | _ => counts
                 end) values counts in
  NoDup (List.map fst counts')
  /\ Forall (fun entry => snd entry >= 1 /\ fst entry <> []) counts'.
Proof.
  revert counts. induction values as [|vote values IH]; intros counts Hn Hp; simpl.
  - auto.
  - destruct vote as [[|c s]|]; auto.
    apply IH; [now apply bump_NoDup | apply bump_positive; [auto | discriminate]].
Qed.

Lemma counted_In value n counts :
  NoDup (List.map fst counts) -> In (value, n) counts ->
  RoomView.counted value counts = n.
Proof.
  induction counts as [|[v m] counts IH]; simpl; [tauto|].
  intros Hn [E|Hin].
  - inversion E; subst. now rewrite eqb_refl.
  - inversion Hn as [|? ? Hv Hrest]; subst.
    case_key value v.
    + exfalso. apply Hv. change v with (fst (v, n)). now apply in_map.
    + auto.
Qed.

Lemma counted_positive value counts :
  RoomView.counted value counts >= 1 ->
  In (value, RoomView.counted value counts) counts.
Proof.
  induction counts as [|[v m] counts IH]; simpl; [lia|].
  case_key value v; auto.
Qed.

(** X25.  The distribution accounts for the votes: a value is listed there
    exactly when somebody has cast it, once, with the number of the votes for
    it, so that [null] and empty votes are not listed; and the values come by
    falling count. *)
Theorem voteSummary_accounts room :
  let values := List.map snd (RoomState.votes room) in
  NoDup (List.map fst (RoomView.voteSummary room))
  /\ (forall value count,
        In (value, count) (RoomView.voteSummary room) <->
        value <> [] /\ count >= 1 /\ count = RoomView.votes_for value values)
  /\ StronglySorted (fun a b => snd b <= snd a) (RoomView.voteSummary room).
Proof.
  intros values. unfold RoomView.voteSummary. fold values.
  set (counts := RoomView.count_votes values).
  assert (Hshape : NoDup (List.map fst counts)
                   /\ Forall (fun entry => snd entry >= 1 /\ fst entry <> []) counts)
    by (apply (@count_votes_shape values [] (NoDup_nil _) (Forall_nil _))).
  destruct Hshape as [Hnodup Hpos].
  assert (Hspec : forall value,
             RoomView.counted value counts
             = match value with
               | [] => 0
               | _ :: _ => RoomView.votes_for value values
               end)
    by (intros value; unfold counts, RoomView.count_votes;
        now rewrite count_votes_spec).
  pose proof (sort_perm RoomView.by_count counts) as Hperm.
  split; [|split].
  - eapply Permutation_NoDup; [|exact Hnodup].
    apply Permutation_map. now apply Permutation_sym.
  - intros value count. split.
    + intros Hin. apply (Permutation_in _ Hperm) in Hin.
      pose proof (proj1 (Forall_forall _ _) Hpos _ Hin) as [Hc Hv]. simpl in *.
      split; [exact Hv|]. split; [exact Hc|].
      rewrite <- (@counted_In _ _ _ Hnodup Hin), Hspec.
      destruct value; [congruence | reflexivity].
    + intros (Hv & Hc & E).
      apply (Permutation_in _ (Permutation_sym Hperm)).
      assert (Hcounted : RoomView.counted value counts = count)
        by (rewrite Hspec; destruct value; [congruence | now symmetry]).
      rewrite <- Hcounted. apply counted_positive. lia.
  - eapply sorted_weaken;
      [|apply (@sort_sorted _ _ by_count_total by_count_trans)].
    intros a b H. now apply Nat.leb_le.
Qed.

Lemma voteSummary_accounts_witness :
  In (lit "8", 2) (RoomView.voteSummary voted_room)
  /\ RoomView.voteSummary voted_room = [(lit "8", 2); (lit "5", 1)].
Proof.
  split; [|reflexivity].
  apply (proj1 (proj2 (voteSummary_accounts voted_room))).
  split; [discriminate|]. split; [lia | reflexivity].
Defined.

(** ** What the view tells *)

Lemma cast_display room participant :
  RoomState.revealed room = false ->
  RoomView.displayVote room participant
  = RoomView.Text
      (if RoomView.cast (RoomState.votes room) (ParticipantProfile.id participant)
       then RoomView.bullet else [])
  /\ RoomView.voteClass room participant
     = (if RoomView.cast (RoomState.votes room) (ParticipantProfile.id participant)
        then lit "hidden" else lit "empty")
  /\ RoomView.voteStatus room participant
     = RoomView.Text
         (if RoomView.cast (RoomState.votes room)
               (ParticipantProfile.id participant)
          then lit "Carta selecionada" else lit "Aguardando voto").
Proof.
  intros H. unfold RoomView.displayVote, RoomView.voteClass, RoomView.voteStatus,
    RoomView.cast. rewrite H.
  destruct (RoomView.truthy _); repeat split.
Qed.

(** X26.  Until the votes are revealed the view tells who has voted and
    nothing of what was voted: two rooms that are not revealed, with the
    same participants and the same people having cast a vote, show the same
    status, the same seats, the same lines of players and no distribution. *)
Theorem votes_are_hidden_until_revealed room1 room2 :
  RoomState.revealed room1 = false -> RoomState.revealed room2 = false ->
  RoomState.participants room1 = RoomState.participants room2 ->
  (forall id,
     RoomView.cast (RoomState.votes room1) id
     = RoomView.cast (RoomState.votes room2) id) ->
  RoomView.shown room1 = RoomView.shown room2
  /\ RoomView.shownSummary room1 = None.
Proof.
  intros H1 H2 Hp Hcast.
  assert (Hplayers : RoomView.participants room1 = RoomView.participants room2)
    by (unfold RoomView.participants; now rewrite Hp).
  assert (Hwait : RoomView.waitingParticipants room1
                  = RoomView.waitingParticipants room2).
  { unfold RoomView.waitingParticipants. rewrite Hplayers.
    apply filter_ext. intros p. now rewrite Hcast. }
  split.
  - unfold RoomView.shown. f_equal; [f_equal|].
    + unfold RoomView.statusMessage, RoomView.everyoneVoted.
      now rewrite H1, H2, Hwait.
    + rewrite Hplayers. apply map_ext. intros p.
      destruct (cast_display room1 p H1) as (-> & -> & ->).
      destruct (cast_display room2 p H2) as (-> & -> & ->).
      now rewrite Hcast.
    + unfold RoomView.shownSummary. now rewrite H1, H2.
  - unfold RoomView.shownSummary. now rewrite H1.
Qed.

Lemma votes_are_hidden_until_revealed_witness :
  RoomView.shown voted_room
  = RoomView.shown
      (RoomState.with_votes
         [(lit "U1", Some (lit "13")); (lit "U2", Some (lit "1"));
          (lit "U4", Some (lit "?"))] voted_room).
Proof.
  apply votes_are_hidden_until_revealed; try reflexivity.
  intros id. unfold RoomView.cast, lookup. simpl.
  repeat (match goal with
          | |- context [JsString.eqb id ?b] => case_key id b
          end; try reflexivity).
Defined.

(** X27.  The status of the table is never the default text [Escolha sua
    carta para votar]: a room that is not revealed either waits for
    somebody, or has all the votes. *)
Theorem status_is_never_the_default room :
  RoomView.statusMessage room <> RoomView.default_status
  /\ (RoomState.revealed room = false ->
      RoomView.statusMessage room
      = lit "Todos os votos recebidos. Revele quando quiser!"
      <-> RoomView.waitingParticipants room = []).
Proof.
  unfold RoomView.statusMessage, RoomView.everyoneVoted. split.
  - destruct (RoomState.revealed room); [discriminate|].
    destruct (RoomView.waitingParticipants room) as [|p [|q rest]]; simpl;
      discriminate.
  - intros ->.
    destruct (RoomView.waitingParticipants room) as [|p [|q rest]]; simpl;
      split; try reflexivity; try discriminate.
Qed.

Lemma status_is_never_the_default_witness :
  RoomView.statusMessage
    (RoomState.with_votes
       [(lit "U1", Some (lit "5")); (lit "U2", Some (lit "8"));
        (lit "U3", Some (lit "?")); (lit "U4", Some (lit "8"))] voted_room)
  = lit "Todos os votos recebidos. Revele quando quiser!"
  /\ RoomView.statusMessage voted_room = lit "Aguardando Caio...".
Proof.
  split; [|reflexivity].
  apply (proj2 (status_is_never_the_default _)); reflexivity.
Defined.

(** ** A new round *)

Lemma keys_create_perm (V : Type) k (v : V) (o : JsObject.t V) :
  Permutation (keys (create k v o)) (k :: keys o).
Proof.
  unfold create, keys. destruct (array_index k) as [i|].
  - induction o as [|[k' w] o IH]; simpl; auto.
    destruct (array_index k') as [j|]; [destruct (j <? i)%N|]; simpl; auto.
    rewrite IH. apply perm_swap.
  - rewrite map_app. simpl. apply Permutation_sym, Permutation_cons_append.
Qed.

Lemma set_keys_NoDup (V : Type) k (v : V) (o : JsObject.t V) :
  NoDup (keys o) -> NoDup (keys (set k v o)).
Proof.
  intros H. unfold set. destruct (has k o) eqn:E.
  - now rewrite keys_replace.
  - eapply Permutation_NoDup; [apply Permutation_sym, keys_create_perm|].
    constructor; auto. intros Hin. apply has_keys in Hin. congruence.
Qed.

Lemma delete_keys_NoDup (V : Type) k (o : JsObject.t V) :
  NoDup (keys o) -> NoDup (keys (delete k o)).
Proof. intros H. rewrite keys_delete. now apply NoDup_filter. Qed.

Lemma assign_keys_NoDup (V : Type) k (v : V) (o : JsObject.t V) :
  NoDup (keys o) -> NoDup (keys (assign k v o)).
Proof.
  intros H. unfold assign. destruct (has k o) eqn:E.
  - now rewrite keys_replace.
  - destruct (JsString.eqb k proto); auto.
    eapply Permutation_NoDup; [apply Permutation_sym, keys_create_perm|].
    constructor; auto. intros Hin. apply has_keys in Hin. congruence.
Qed.

Lemma perform_objects c rooms :
  every_room objects rooms -> every_room objects (perform c rooms).
Proof.
  intros H. destruct c; simpl.
  - unfold createRoom, updateRooms. simpl. apply every_room_assign; auto.
    unfold objects. simpl. split; repeat constructor; intros [].
  - destruct (get roomId rooms) as [r|] eqn:G; [|now rewrite joinRoom_absent].
    rewrite (@joinRoom_own roomId profile rooms r G). cbn [snd].
    apply every_room_set; auto.
    destruct (every_room_get _ H G) as [Hp Hv]. destruct r; split; simpl in *.
    + now apply assign_keys_NoDup.
    + destruct (negb _); auto. now apply assign_keys_NoDup.
  - destruct (get roomId rooms) as [r|] eqn:G; [|now rewrite leaveRoom_absent].
    on_room G.
    destruct (keys (delete participantId (RoomState.participants r))) eqn:K;
      cbn [committed].
    + now apply every_room_delete.
    + apply every_room_set; auto.
      destruct (every_room_get _ H G) as [Hp Hv]. destruct r; simpl in *.
      split; now apply delete_keys_NoDup.
  - destruct (get roomId rooms) as [r|] eqn:G;
      [|now rewrite updateParticipantProfile_absent].
    on_room G. destruct (lookup participantId _); cbn [committed]; auto.
    + apply every_room_set; auto.
      destruct (every_room_get _ H G) as [Hp Hv]. destruct r; simpl in *.
      split; auto. now apply assign_keys_NoDup.
    + now destruct (JsString.eqb participantId proto).
  - destruct (get roomId rooms) as [r|] eqn:G; [|now rewrite submitVote_absent].
    on_room G. destruct (negb _); cbn [committed]; auto.
    apply every_room_set; auto.
    destruct (every_room_get _ H G) as [Hp Hv].
    destruct r, value; simpl in *; split; auto; now apply assign_keys_NoDup.
  - destruct (get roomId rooms) as [r|] eqn:G; [|now rewrite revealVotes_absent].
    on_room G. apply every_room_set; auto.
    destruct (every_room_get _ H G) as [Hp Hv]. now destruct r.
  - destruct (get roomId rooms) as [r|] eqn:G; [|now rewrite resetVotes_absent].
    rewrite (@resetVotes_own roomId rooms r G). apply every_room_set; auto.
    destruct (every_room_get _ H G) as [Hp Hv]. destruct r; simpl in *.
    unfold objects, RoomState.with_revealed, RoomState.with_votes.
    cbn [RoomState.votes RoomState.participants].
    split; auto. rewrite reset_keys; auto.
    intros i Hi. now apply has_keys.
  - destruct (get roomId rooms) as [r|] eqn:G;
      [|unfold removeParticipant; now rewrite leaveRoom_absent].
    on_room G.
    destruct (keys (delete participantId (RoomState.participants r))) eqn:K;
      cbn [committed].
    + now apply every_room_delete.
    + apply every_room_set; auto.
      destruct (every_room_get _ H G) as [Hp Hv]. destruct r; simpl in *.
      split; now apply delete_keys_NoDup.
  - destruct (get roomId rooms) as [r|] eqn:G; [|now rewrite transferHost_absent].
    on_room G. destruct (negb _); cbn [committed]; auto.
    apply every_room_set; auto.
    destruct (every_room_get _ H G) as [Hp Hv]. now destruct r.
Qed.

Lemma reachable_objects rooms : reachable rooms -> every_room objects rooms.
Proof.
  induction 1 as [|c rooms _ IH]; [intros id r []|].
  now apply perform_objects.
Qed.

Lemma all_null (votes : JsObject.t (option jsstring)) :
  NoDup (keys votes) ->
  (forall k, In k (keys votes) -> get k votes = Some None) ->
  Forall (fun vote => vote = None) (List.map snd votes).
Proof.
  induction votes as [|[k v] votes IH]; simpl; intros Hn Hall; constructor.
  - specialize (Hall k (or_introl eq_refl)). simpl in Hall.
    rewrite eqb_refl in Hall. congruence.
  - inversion Hn as [|? ? Hk Hrest]; subst. apply IH; auto.
    intros k' Hk'. specialize (Hall k' (or_intror Hk')). simpl in Hall.
    case_key k' k; [contradiction | exact Hall].
Qed.

Lemma count_votes_null values :
  Forall (fun vote => vote = None) values -> RoomView.count_votes values = [].
Proof.
  intros H. unfold RoomView.count_votes. generalize (@nil (jsstring * nat)).
  induction H as [|vote values Hv _ IH]; intros counts; simpl; auto.
  subst vote. apply IH.
Qed.

(** X28.  [resetVotes] starts a new round for the view of a room of a table
    reached through the API whose participants have ordinary ids: the
    players are the same, every one of them is waited for, no seat of a
    player with an ordinary id shows a card, and the distribution is
    empty. *)
Theorem reset_starts_a_new_round rooms roomId r :
  reachable rooms -> get roomId rooms = Some r ->
  (forall participant,
     In participant (List.map snd (RoomState.participants r)) ->
     ordinary (ParticipantProfile.id participant) = true) ->
  exists r',
    get roomId (resetVotes roomId rooms) = Some r'
    /\ RoomView.participants r' = RoomView.participants r
    /\ RoomView.waitingParticipants r' = RoomView.participants r
    /\ RoomView.everyoneVoted r' = false
    /\ RoomView.voteSummary r' = []
    /\ forall participant,
         ordinary (ParticipantProfile.id participant) = true ->
         RoomView.displayVote r' participant = RoomView.Text []
         /\ RoomView.voteStatus r' participant
            = RoomView.Text (lit "Aguardando voto").
Proof.
  intros Hreach G Hids.
  destruct (every_room_get _ (reachable_objects Hreach) G) as [_ Hnodup].
  pose proof (every_room_get _ (reachable_occupied Hreach) G) as Hne.
  unfold occupied in Hne.
  rewrite (@resetVotes_own roomId rooms r G), get_set_eq.
  eexists. split; [reflexivity|].
  assert (Hall : forall i, In i (keys (RoomState.votes r)) ->
                           has i (RoomState.votes r) = true)
    by (intros i Hi; now apply has_keys).
  destruct r; simpl in *.
  set (cleared := fold_left (fun votes participantId => set participantId None votes)
                    (keys votes) votes).
  assert (Hget : forall k, get k cleared = if has k votes then Some None else None).
  { intros k. unfold cleared. rewrite reset_get by assumption.
    rewrite existsb_keys. destruct (has k votes) eqn:E; auto.
    now apply has_false_get. }
  assert (Hcast : forall k, ordinary k = true -> RoomView.cast cleared k = false).
  { intros k Hk. unfold RoomView.cast. rewrite lookup_ordinary by assumption.
    rewrite Hget. now destruct (has k votes). }
  assert (Hwait : forall players : list ParticipantProfile.t,
             (forall p, In p players -> ordinary (ParticipantProfile.id p) = true) ->
             filter (fun participant =>
                       negb (RoomView.cast cleared (ParticipantProfile.id participant)))
               players = players).
  { induction players as [|p players IH]; simpl; auto. intros Hp.
    rewrite Hcast by auto. simpl. now rewrite IH by auto. }
  assert (Hsorted : forall p,
             In p (sort RoomView.by_joinedAt (List.map snd participants)) ->
             ordinary (ParticipantProfile.id p) = true).
  { intros p Hp. apply Hids.
    eapply Permutation_in; [apply sort_perm | exact Hp]. }
  split; [reflexivity|].
  split; [unfold RoomView.waitingParticipants; simpl; now apply Hwait|].
  split.
  - unfold RoomView.everyoneVoted, RoomView.waitingParticipants. simpl.
    rewrite Hwait by exact Hsorted. unfold RoomView.participants. simpl.
    rewrite (Permutation_length (sort_perm RoomView.by_joinedAt _)), length_map.
    destruct participants; [congruence | reflexivity].
  - split.
    + unfold RoomView.voteSummary. simpl. fold cleared.
      rewrite count_votes_null; [reflexivity|].
      apply all_null.
      * unfold cleared. rewrite reset_keys; assumption.
      * intros k Hk. rewrite Hget.
        unfold cleared in Hk. rewrite reset_keys in Hk by assumption.
        now rewrite (Hall k Hk).
    + intros participant Hp.
      destruct (@cast_display
                  (RoomState.mk id name deckType deckValues hostId participants
                     cleared false createdAt) participant eq_refl)
        as (Hshow & _ & Hstatus).
      simpl in Hshow, Hstatus. rewrite (Hcast _ Hp) in Hshow, Hstatus.
      split; assumption.
Qed.

Lemma reset_starts_a_new_round_witness :
  let voted := submitVote sample_id (lit "U2") (Some (lit "8")) two_rooms in
  exists r',
    get sample_id (resetVotes sample_id (revealVotes sample_id voted)) = Some r'
    /\ RoomView.waitingParticipants r' = [ana; bia]
    /\ RoomView.voteSummary r' = [].
Proof.
  intros voted.
  destruct (@reset_starts_a_new_round (revealVotes sample_id voted) sample_id
              (RoomState.with_revealed true
                 (RoomState.with_votes
                    [(lit "U1", None); (lit "U2", Some (lit "8"))] two_room)))
    as (r' & G & _ & Hwait & _ & Hsummary & _).
  - apply (reachable_call (RevealVotes sample_id)),
      (reachable_call (SubmitVote sample_id (lit "U2") (Some (lit "8")))),
      (reachable_call (JoinRoom sample_id bia)),
      (reachable_call sample_call), reachable_empty.
  - vm_compute. reflexivity.
  - intros participant [E|[E|[]]]; subst participant; reflexivity.
  - exists r'. split; [exact G|]. split; [|exact Hsummary].
    rewrite Hwait. reflexivity.
Defined.

(** ** Ordinary ids *)

(** X29.  In every room of a table reached from the empty table by calls
    whose participant ids are ordinary, every participant has a vote entry
    and every vote entry is a participant's, the room has a participant, and
    its host is one of them. *)
Theorem ordinary_calls_keep_invariants calls :
  Forall (fun c => ordinary_call c = true) calls ->
  every_room
    (fun r =>
       votes_cover_participants r
       /\ host_is_participant r
       /\ RoomState.participants r <> []
       /\ has (RoomState.hostId r) (RoomState.participants r) = true
       /\ forall k, has k (RoomState.votes r) = has k (RoomState.participants r))
    (run calls).
Proof.
  intros Hcalls id r Hin.
  destruct (run_sound Hcalls id r Hin) as (Hne & Hhost & Hkeys).
  repeat split; auto.
  - intros k Hk. now rewrite Hkeys.
  - intros _. exact Hhost.
Qed.

Lemma ordinary_calls_keep_invariants_witness :
  exists r,
    get sample_id (run [sample_call; JoinRoom sample_id bia]) = Some r
    /\ votes_cover_participants r
    /\ has (RoomState.hostId r) (RoomState.participants r) = true.
Proof.
  exists two_room. split; [reflexivity|].
  assert (Hcalls : Forall (fun c => ordinary_call c = true)
                     [sample_call; JoinRoom sample_id bia])
    by (repeat constructor).
  assert (Hin : In (sample_id, two_room) (run [sample_call; JoinRoom sample_id bia]))
    by (left; reflexivity).
  destruct (ordinary_calls_keep_invariants Hcalls sample_id two_room Hin)
    as (Hcover & _ & _ & Hhost & _).
  split; [exact Hcover | exact Hhost].
Defined.

(** X30.  [submitVote] with an ordinary participant id ends without
    throwing.  It leaves the table as it is when the id is no participant of
    the room; otherwise it stores the value as the participant's vote and
    changes no other vote, nor the participants, nor the host, and a [null]
    value also sets [revealed] to [false], whatever it was. *)
Theorem submitVote_ordinary rooms roomId participantId value r :
  ordinary participantId = true ->
  get roomId rooms = Some r ->
  (has participantId (RoomState.participants r) = false ->
     Try.submitVote roomId participantId value rooms = Normal rooms)
  /\ (has participantId (RoomState.participants r) = true ->
      exists r',
        Try.submitVote roomId participantId value rooms
        = Normal (set roomId r' rooms)
        /\ get roomId (submitVote roomId participantId value rooms) = Some r'
        /\ get participantId (RoomState.votes r') = Some value
        /\ (value = None -> RoomState.revealed r' = false)
        /\ (value <> None -> RoomState.revealed r' = RoomState.revealed r)
        /\ (forall k, k <> participantId ->
              get k (RoomState.votes r') = get k (RoomState.votes r))
        /\ RoomState.participants r' = RoomState.participants r
        /\ RoomState.hostId r' = RoomState.hostId r).
Proof.
  intros Hid G. split; intros Hp.
  - unfold Try.submitVote, updateRooms. cbn zeta.
    rewrite (lookup_own _ _ G), in_ordinary by assumption. now rewrite Hp.
  - unfold submitVote, Try.submitVote, updateRooms. cbn zeta.
    rewrite (lookup_own _ _ G), in_ordinary, assign_ordinary by assumption.
    rewrite Hp. cbn [negb committed]. rewrite get_set_eq.
    eexists. split; [reflexivity|]. split; [reflexivity|].
    destruct r, value; simpl; rewrite get_set_eq;
      repeat split; try congruence;
      intros k Hk; apply get_set_ne; congruence.
Qed.

Lemma submitVote_ordinary_witness :
  Try.submitVote sample_id (lit "U2") (Some (lit "5")) sample_rooms
  = Normal sample_rooms
  /\ exists r',
      get sample_id
        (submitVote sample_id (lit "U1") None (revealVotes sample_id sample_rooms))
      = Some r'
      /\ get (lit "U1") (RoomState.votes r') = Some None
      /\ RoomState.revealed r' = false.
Proof.
  pose (r := RoomState.mk sample_id (lit "Sprint 12") fibonacci
               PRESET_DECKS_fibonacci (lit "U1") [(lit "U1", ana)]
               [(lit "U1", None)] false 1700000000001).
  split.
  - apply (proj1 (@submitVote_ordinary sample_rooms sample_id (lit "U2")
                    (Some (lit "5")) r eq_refl eq_refl)).
    reflexivity.
  - destruct (proj2 (@submitVote_ordinary (revealVotes sample_id sample_rooms)
                       sample_id (lit "U1") None (RoomState.with_revealed true r)
                       eq_refl eq_refl) eq_refl)
      as (r' & _ & G & Hvote & Hrev & _).
    exists r'. split; [exact G|]. split; [exact Hvote | now apply Hrev].
Defined.
